(** * Interactive coding engine: the analyzer, its endpoints and the video job

    A shallow embedding of [src/api/interactive-coding.py] and the properties
    its specification states about it.

    Conventions of the embedding:
    - a Python [str] is a [string], one [ascii] per character, so the model
      covers text whose code points are below 256;
    - a Python [float] is a primitive binary64 [float], a Python [int] is a [Z];
    - a statement that can raise is a computation in the [result] monad;
    - a [dict] whose iteration order is observed is an association list kept in
      insertion order, any other [dict] is a [gmap];
    - the module-level stores are threaded explicitly through the endpoints;
      the clock readings an endpoint makes are its [Env] argument. *)

From Stdlib Require Import ZArith Ascii String PrimFloat FloatOps SpecFloat.
From stdpp Require Import base option list strings gmap pretty sorting.

Set Warnings "-inexact-float".
Local Open Scope Z_scope.

(** ** Python runtime *)

(** The exceptions the modelled statements can raise, with the text [str(e)]
    gives for each. *)
Inductive exn :=
| KeyError (key : string)
| OverflowError (msg : string)
| ValueError (msg : string)
| RuntimeError (msg : string).

Definition squote : ascii := "039"%char.
Definition dquote : ascii := "034"%char.

Definition exn_str (e : exn) : string :=
  match e with
  | KeyError key => String squote key +:+ String squote ""
  | OverflowError msg | ValueError msg | RuntimeError msg => msg
  end.

Inductive result (A : Type) :=
| Ok (a : A)
| Raise (e : exn).
Arguments Ok {A} a.
Arguments Raise {A} e.

Global Instance result_ret : MRet result := λ A, Ok.
Global Instance result_bind : MBind result := λ A B f m,
  match m with
  | Ok a => f a
  | Raise e => Raise e
  end.

(** [int(x)] for a float: truncation towards zero; infinities and NaN raise. *)
Definition py_int (x : float) : result Z :=
  match Prim2SF x with
  | S754_zero _ => Ok 0
  | S754_infinity _ => Raise (OverflowError "cannot convert float infinity to integer")
  | S754_nan => Raise (ValueError "cannot convert float NaN to integer")
  | S754_finite sign m e =>
      let magnitude := if 0 <=? e then Z.pos m * 2 ^ e else Z.pos m / 2 ^ (- e) in
      Ok (if sign then - magnitude else magnitude)
  end.

(** [min(a, b)] on floats: the first argument unless the second is smaller. *)
Definition py_min (a b : float) : float :=
  if PrimFloat.ltb b a then b else a.

(** [range(start, stop, step)] for a positive step (empty otherwise, the
    source has no other use). *)
Definition py_range (start stop step : Z) : list Z :=
  if step <=? 0 then []
  else (λ i : nat, start + step * Z.of_nat i) <$>
         seq 0 (Z.to_nat ((stop - start + step - 1) `div` step)).

(** [sub in s] on strings. *)
Fixpoint str_in (sub s : string) : bool :=
  String.prefix sub s ||
  match s with
  | EmptyString => false
  | String _ s' => str_in sub s'
  end.

(** [s.replace(old, new)] for a one-character [old]. *)
Fixpoint str_replace1 (old : ascii) (new : string) (s : string) : string :=
  match s with
  | EmptyString => EmptyString
  | String c s' =>
      (if Ascii.eqb c old then new else String c EmptyString) +:+ str_replace1 old new s'
  end.

(** [any(f(x) for x in l)]. *)
Definition py_any {A} (f : A → bool) (l : list A) : bool := existsb f l.

(** Truth value of a list, and of what [dict.get] returns for a list-valued
    dictionary ([None] and the empty list are false). *)
Definition list_truthy {A} (l : list A) : bool :=
  match l with
  | [] => false
  | _ :: _ => true
  end.

Definition get_truthy {A} (o : option (list A)) : bool :=
  match o with
  | Some l => list_truthy l
  | None => false
  end.

(** [d[key]]: raises [KeyError] on a missing key. *)
Definition py_getitem {V} (d : gmap string V) (key : string) : result V :=
  match d !! key with
  | Some v => Ok v
  | None => Raise (KeyError key)
  end.

(** [list(set(l))]: the distinct elements of [l]. Python leaves the order of
    a set unspecified; the model takes the order [gset] enumerates them in,
    and no statement below depends on it. *)
Definition py_list_set (l : list string) : list string :=
  elements (list_to_set l : gset string).

(** [l[:n]], with Python's reading of a negative bound. *)
Definition py_slice_to {A} (l : list A) (n : Z) : list A :=
  if n <? 0 then take (Z.to_nat (Z.of_nat (length l) + n)) l
  else take (Z.to_nat n) l.

(** An insertion-ordered dictionary: assigning to a present key replaces the
    value in place, assigning to a new key appends. *)
Fixpoint dict_set {V} (key : string) (v : V) (d : list (string * V)) : list (string * V) :=
  match d with
  | [] => [(key, v)]
  | (k, w) :: d' =>
      if decide (k = key) then (key, v) :: d' else (k, w) :: dict_set key v d'
  end.

Definition dict_values {V} (d : list (string * V)) : list V := d.*2.

Fixpoint dict_get {V} (key : string) (d : list (string * V)) : option V :=
  match d with
  | [] => None
  | (k, w) :: d' => if decide (k = key) then Some w else dict_get key d'
  end.

(** ** Regular expressions

    The patterns of the analyzer are sequences of single-character classes,
    each taken once or under a greedy [*] or [+], with at most one capturing
    group. [Re.finditer] matches such a pattern the way Python's backtracking
    matcher does: leftmost, and for each repetition the longest run first. *)
Module Re.

Definition code (c : ascii) : N := N_of_ascii c.

Definition between (lo hi : N) (c : ascii) : bool :=
  ((lo <=? code c) && (code c <=? hi))%N.

(** [[A-Z]] *)
Definition upper : ascii → bool := between 65 90.

(** [\s] on a [str] pattern: Unicode white space. *)
Definition space (c : ascii) : bool :=
  between 9 13 c || between 28 32 c || between 133 133 c || between 160 160 c.

(** [\w] on a [str] pattern: Unicode alphanumerics and the underscore. *)
Definition word (c : ascii) : bool :=
  between 48 57 c || between 65 90 c || between 95 95 c || between 97 122 c
  || between 170 170 c || between 178 179 c || between 181 181 c
  || between 185 186 c || between 188 190 c || between 192 214 c
  || between 216 246 c || between 248 255 c.

(** [.]: anything but a newline. *)
Definition dot (c : ascii) : bool := negb (Ascii.eqb c "010").

(** A literal character. *)
Definition chr (a : ascii) : ascii → bool := Ascii.eqb a.

(** The class of the two quote characters, double and single. *)
Definition quote (c : ascii) : bool := chr dquote c || chr squote c.

(** [[\w\s\-]] *)
Definition word_space_dash (c : ascii) : bool := word c || space c || chr "-" c.

(** [[^}]] *)
Definition not_rbrace (c : ascii) : bool := negb (chr "}" c).

Inductive atom :=
| One (cls : ascii → bool)
| Star (cls : ascii → bool)
| Plus (cls : ascii → bool).

(** A literal string, character by character. *)
Fixpoint lit (s : string) : list atom :=
  match s with
  | EmptyString => []
  | String a s' => One (chr a) :: lit s'
  end.

(** A pattern: the atoms before the group, inside it and after it. A
    pattern without a group has all its atoms in [before]. *)
Record pattern := Pattern {
  before : list atom;
  group : list atom;
  after : list atom
}.

(** Length of the longest prefix of [s] inside the class. *)
Fixpoint run (cls : ascii → bool) (s : string) : nat :=
  match s with
  | String c s' => if cls c then S (run cls s') else O
  | EmptyString => O
  end.

Fixpoint skip (n : nat) (s : string) : string :=
  match n, s with
  | S n', String _ s' => skip n' s'
  | _, _ => s
  end.

(** Greedy choice: try [k n], then [k (n-1)], down to [k lo]. *)
Fixpoint longest_first {R} (k : nat → option R) (lo n : nat) : option R :=
  match k n with
  | Some r => Some r
  | None =>
      match n with
      | O => None
      | S n' => if decide (lo ≤ n')%nat then longest_first k lo n' else None
      end
  end.

(** [match_atoms p s pos k]: match [p] at the head of [s], which starts at
    offset [pos] of the attempt, then continue with [k] on the rest;
    backtrack into [p] when [k] fails. *)
Fixpoint match_atoms {R} (p : list atom) (s : string) (pos : nat)
    (k : string → nat → option R) : option R :=
  match p with
  | [] => k s pos
  | One cls :: p' =>
      match s with
      | String c s' => if cls c then match_atoms p' s' (S pos) k else None
      | EmptyString => None
      end
  | Star cls :: p' =>
      longest_first (λ i, match_atoms p' (skip i s) (pos + i)%nat k) 0 (run cls s)
  | Plus cls :: p' =>
      match run cls s with
      | O => None
      | S n => longest_first (λ i, match_atoms p' (skip i s) (pos + i)%nat k) 1 (S n)
      end
  end.

(** A match object: [group(0)] and [group(1)]. *)
Record t := Match {
  group0 : string;
  group1 : string
}.

(** One attempt at the head of [s] (what [pattern.match] does there). *)
Definition match_here (p : pattern) (s : string) : option t :=
  match_atoms (before p) s 0 (λ s1 p1,
    match_atoms (group p) s1 p1 (λ s2 p2,
      match_atoms (after p) s2 p2 (λ _ p3,
        Some (Match (substring 0 p3 s) (substring p1 (p2 - p1) s))))).

(** [re.finditer]: scan left to right; after a match the scan resumes where
    it ended ([pending] counts the characters still covered by it). After an
    empty match the scan moves on by one character; no pattern of the
    analyzer matches the empty string. *)
Fixpoint finditer_from (p : pattern) (s : string) (pending : nat) : list t :=
  match s with
  | EmptyString =>
      match pending, match_here p EmptyString with
      | O, Some m => [m]
      | _, _ => []
      end
  | String _ s' =>
      match pending with
      | S n => finditer_from p s' n
      | O =>
          match match_here p s with
          | Some m => m :: finditer_from p s' (pred (String.length (group0 m)))
          | None => finditer_from p s' 0
          end
      end
  end.

Definition finditer (p : pattern) (s : string) : list t := finditer_from p s 0.

End Re.

(** ** The analyzer: pattern extractors

    The source patterns, written with blanks around the group for
    readability (the blanks are not part of the pattern). *)

(** [function\s+ ( [A-Z]\w* )] *)
Definition re_function : Re.pattern :=
  Re.Pattern (Re.lit "function" ++ [Re.Plus Re.space])
             [Re.One Re.upper; Re.Star Re.word]
             [].

(** [const\s+ ( [A-Z]\w* ) \s*=.*=>] *)
Definition re_const_arrow : Re.pattern :=
  Re.Pattern (Re.lit "const" ++ [Re.Plus Re.space])
             [Re.One Re.upper; Re.Star Re.word]
             ([Re.Star Re.space] ++ Re.lit "=" ++ [Re.Star Re.dot] ++ Re.lit "=>").

(** [class\s+ ( [A-Z]\w* )] *)
Definition re_class : Re.pattern :=
  Re.Pattern (Re.lit "class" ++ [Re.Plus Re.space])
             [Re.One Re.upper; Re.Star Re.word]
             [].

(** [use ( [A-Z]\w* )] *)
Definition re_hook : Re.pattern :=
  Re.Pattern (Re.lit "use") [Re.One Re.upper; Re.Star Re.word] [].

(** [on[A-Z]\w*\s*=] *)
Definition re_event : Re.pattern :=
  Re.Pattern (Re.lit "on" ++ [Re.One Re.upper; Re.Star Re.word; Re.Star Re.space] ++ Re.lit "=")
             [] [].

(** [className=Q ( [\w\s\-]+ ) Q], with Q the class of the two quote
    characters. *)
Definition re_className : Re.pattern :=
  Re.Pattern (Re.lit "className=" ++ [Re.One Re.quote])
             [Re.Plus Re.word_space_dash]
             [Re.One Re.quote].

(** [style=\{ ( [^}]+ ) \}] *)
Definition re_style : Re.pattern :=
  Re.Pattern (Re.lit "style={") [Re.Plus Re.not_rbrace] (Re.lit "}").

(** [class_name=Q ( [\w\s\-]+ ) Q], with Q as above. *)
Definition re_class_name : Re.pattern :=
  Re.Pattern (Re.lit "class_name=" ++ [Re.One Re.quote])
             [Re.Plus Re.word_space_dash]
             [Re.One Re.quote].

Definition js_family (language : string) : bool :=
  bool_decide (language ∈ ["javascript"; "typescript"]).

(** The loop shared by [extract_components] and [extract_styling]: every
    pattern in turn extends the list with the [group(1)] of its matches. *)
Definition collect_group1 (patterns : list Re.pattern) (code : string) : list string :=
  foldl (λ acc pattern, acc ++ (Re.group1 <$> Re.finditer pattern code)) [] patterns.

Definition extract_components (code language : string) : list string :=
  let component_patterns :=
    if js_family language then Some [re_function; re_const_arrow]
    else if String.eqb language "python" then Some [re_class]
    else None in
  match component_patterns with
  | None => []
  | Some patterns => py_list_set (collect_group1 patterns code)
  end.

Definition extract_hooks (code language : string) : list string :=
  if js_family language then
    py_list_set (Re.group0 <$> Re.finditer re_hook code)
  else [].

Definition extract_event_handlers (code language : string) : list string :=
  if js_family language then
    py_list_set ((λ m, str_replace1 "=" "" (Re.group0 m)) <$> Re.finditer re_event code)
  else [].

Definition extract_styling (code language : string) : list string :=
  let style_patterns :=
    if js_family language then Some [re_className; re_style]
    else if String.eqb language "python" then Some [re_class_name]
    else None in
  match style_patterns with
  | None => []
  | Some patterns => py_list_set (collect_group1 patterns code)
  end.

(** ** The analyzer: classifier and content generator *)

(** [analysis_data], the dictionary the analyzer methods receive. *)
Definition make_analysis_data (components hooks events styling : list string)
    : gmap string (list string) :=
  <["components" := components]>
    (<["hooks" := hooks]> (<["events" := events]> (<["styling" := styling]> ∅))).

(** [analysis_data.get("hooks") and any(test(h) for h in analysis_data["hooks"])] *)
Definition hooks_any (test : string → bool) (analysis_data : gmap string (list string))
    : result bool :=
  if get_truthy (analysis_data !! "hooks") then
    hooks ← py_getitem analysis_data "hooks";
    mret (py_any test hooks)
  else mret false.

Definition determine_change_type (analysis_data : gmap string (list string))
    : result string :=
  is_state ← hooks_any (λ h, str_in "useState" h || str_in "useReducer" h) analysis_data;
  if is_state : bool then mret "state_management"
  else
    is_effect ← hooks_any (λ h, str_in "useEffect" h) analysis_data;
    if is_effect : bool then mret "side_effects"
    else if get_truthy (analysis_data !! "events") then mret "event_handling"
    else if get_truthy (analysis_data !! "styling") then mret "styling"
    else if get_truthy (analysis_data !! "components") then mret "component_structure"
    else mret "general_coding".

Definition element_map : gmap string (list string) :=
  list_to_map [
    ("state_management", ["component-tree"; "data-flow"; "render-cycle"; "state-updates"]);
    ("side_effects", ["lifecycle"; "api-calls"; "subscriptions"; "cleanup"]);
    ("event_handling", ["user-interaction"; "state-updates"; "ui-changes"; "event-flow"]);
    ("styling", ["visual-layout"; "css-rendering"; "responsive-design"; "style-cascade"]);
    ("component_structure", ["component-hierarchy"; "props-flow"; "composition-pattern"]);
    ("general_coding", ["code-structure"; "javascript-execution"; "logic-flow"])
  ].

Definition get_affected_elements (change_type : string) : list string :=
  default ["general-concepts"] (element_map !! change_type).

Definition explanations : gmap string string :=
  list_to_map [
    ("state_management", "State management creates reactive data that automatically triggers UI updates. Your component now manages dynamic data that flows through the render cycle.");
    ("side_effects", "Side effects handle interactions with external systems like APIs, timers, or subscriptions. This controls when your component interacts with the outside world.");
    ("event_handling", "Event handlers create interactive user experiences by responding to user actions like clicks, input changes, and form submissions.");
    ("styling", "Styling controls the visual presentation of your components. CSS classes and styles are applied during rendering to create the final appearance.");
    ("component_structure", "Components are the building blocks of React applications. They encapsulate logic, state, and presentation into reusable pieces.");
    ("general_coding", "This code affects how your application behaves and renders. Understanding these patterns helps build more effective software.")
  ].

(** The fallback [explanations["general_coding"]] is evaluated before the
    lookup, as an argument of [get]. *)
Definition generate_explanation (change_type : string)
    (analysis_data : gmap string (list string)) : result string :=
  fallback ← py_getitem explanations "general_coding";
  mret (default fallback (explanations !! change_type)).

Definition calculate_confidence (analysis_data : gmap string (list string)) : float :=
  let confidence := 0.5%float in
  let confidence :=
    if get_truthy (analysis_data !! "components") then (confidence + 0.2)%float else confidence in
  let confidence :=
    if get_truthy (analysis_data !! "hooks") then (confidence + 0.2)%float else confidence in
  let confidence :=
    if get_truthy (analysis_data !! "events") then (confidence + 0.15)%float else confidence in
  let confidence :=
    if get_truthy (analysis_data !! "styling") then (confidence + 0.15)%float else confidence in
  py_min 1.0 confidence.

Definition suggestions_map : gmap string (list string) :=
  list_to_map [
    ("state_management", [
       "Use functional updates for state: setState(prev => prev + 1)";
       "Keep state minimal and flat";
       "Consider useReducer for complex state logic"]);
    ("side_effects", [
       "Always include dependencies in useEffect array";
       "Clean up subscriptions in the return function";
       "Use async/await carefully in useEffect"]);
    ("event_handling", [
       "Use useCallback to optimize event handlers";
       "Handle errors gracefully in event handlers";
       "Prevent default behavior when necessary"]);
    ("styling", [
       "Use CSS modules or styled-components for better maintainability";
       "Follow consistent naming conventions";
       "Consider responsive design patterns"]);
    ("component_structure", [
       "Keep components small and focused";
       "Extract reusable logic to custom hooks";
       "Use proper prop validation"]);
    ("general_coding", [
       "Write clean, readable code";
       "Add meaningful comments";
       "Follow established coding standards"])
  ].

Definition get_suggestions (change_type : string)
    (analysis_data : gmap string (list string)) : result (list string) :=
  fallback ← py_getitem suggestions_map "general_coding";
  mret (default fallback (suggestions_map !! change_type)).

(** ** Requests, records and the two stores *)

Module CodeAnalysisRequest.
Record t := Make {
  code : string;
  language : string;
  context : option (gmap string string);
  user_id : option string;
  session_id : option string
}.
End CodeAnalysisRequest.

(** The dictionary [analysis_result] that [analyze_code] stores. *)
Module AnalysisResult.
Record t := Make {
  analysis_id : string;
  timestamp : string;
  code : string;
  language : string;
  change_type : string;
  affected_elements : list string;
  components : list string;
  hooks : list string;
  events : list string;
  styling : list string;
  explanation : string;
  confidence : float;
  suggestions : list string;
  significant_change : bool;
  context : option (gmap string string);
  user_id : option string;
  session_id : option string
}.
End AnalysisResult.

Module CodeAnalysisResponse.
Record t := Make {
  analysis_id : string;
  timestamp : string;
  change_type : string;
  affected_elements : list string;
  components : list string;
  hooks : list string;
  events : list string;
  styling : list string;
  explanation : string;
  confidence : float;
  suggestions : list string;
  significant_change : bool
}.

(** The response built from the unpacked [analysis_result]: the model's
    fields are read off the dictionary, its other keys are ignored. *)
Definition of_result (r : AnalysisResult.t) : t :=
  {| analysis_id := AnalysisResult.analysis_id r;
     timestamp := AnalysisResult.timestamp r;
     change_type := AnalysisResult.change_type r;
     affected_elements := AnalysisResult.affected_elements r;
     components := AnalysisResult.components r;
     hooks := AnalysisResult.hooks r;
     events := AnalysisResult.events r;
     styling := AnalysisResult.styling r;
     explanation := AnalysisResult.explanation r;
     confidence := AnalysisResult.confidence r;
     suggestions := AnalysisResult.suggestions r;
     significant_change := AnalysisResult.significant_change r |}.
End CodeAnalysisResponse.

Module VideoGenerationRequest.
Record t := Make {
  analysis_id : string;
  change_type : string;
  code_snippet : string;
  explanation : string;
  affected_elements : list string;
  title : option string
}.
End VideoGenerationRequest.

(** The dictionary [video_status] kept per video; [error] is the key the
    failure update adds. *)
Module VideoStatus.
Record t := Make {
  video_id : string;
  status : string;
  progress : Z;
  video_url : option string;
  thumbnail_url : option string;
  duration : option Z;
  generated_at : option string;
  analysis_id : string;
  title : string;
  error : option string
}.

Definition set_status (s : string) (v : t) : t :=
  Make (video_id v) s (progress v) (video_url v) (thumbnail_url v) (duration v)
       (generated_at v) (analysis_id v) (title v) (error v).

Definition set_progress (p : Z) (v : t) : t :=
  Make (video_id v) (status v) p (video_url v) (thumbnail_url v) (duration v)
       (generated_at v) (analysis_id v) (title v) (error v).

(** [update] with the keys of the completion. *)
Definition update_completed (url thumb : string) (d : Z) (at_ : string) (v : t) : t :=
  Make (video_id v) "completed" 100 (Some url) (Some thumb) (Some d) (Some at_)
       (analysis_id v) (title v) (error v).

(** [update] with the keys of the failure. *)
Definition update_failed (err : string) (v : t) : t :=
  Make (video_id v) "failed" (progress v) (video_url v) (thumbnail_url v) (duration v)
       (generated_at v) (analysis_id v) (title v) (Some err).
End VideoStatus.

Module VideoGenerationResponse.
Record t := Make {
  video_id : string;
  status : string;
  progress : Z;
  video_url : option string;
  thumbnail_url : option string;
  duration : option Z;
  generated_at : option string
}.

Definition of_status (v : VideoStatus.t) : t :=
  {| video_id := VideoStatus.video_id v;
     status := VideoStatus.status v;
     progress := VideoStatus.progress v;
     video_url := VideoStatus.video_url v;
     thumbnail_url := VideoStatus.thumbnail_url v;
     duration := VideoStatus.duration v;
     generated_at := VideoStatus.generated_at v |}.
End VideoGenerationResponse.

(** What an endpoint hands back: a response, or an [HTTPException]. *)
Inductive http (A : Type) :=
| Respond (a : A)
| HTTPException (status_code : Z) (detail : string).
Arguments Respond {A} a.
Arguments HTTPException {A} status_code detail.

(** The clock as a call sees it: [time.time()] and
    [datetime.now().isoformat()]. *)
Record Env := {
  time_time : float;
  now_isoformat : string
}.

(** A coroutine, as the event loop sees it: the statements still to run,
    cut at every [await], and the [except Exception] handler around them.
    A statement reads the clock and updates [video_generation_status]. *)
Inductive step :=
| Act (run : Env → gmap string VideoStatus.t → result (gmap string VideoStatus.t))
| AwaitSleep (seconds : Z).

Record coroutine := Coroutine {
  body : list step;
  on_exception : exn → Env → gmap string VideoStatus.t → result (gmap string VideoStatus.t)
}.

(** The module-level dictionaries, and the tasks handed to
    [BackgroundTasks.add_task]. *)
Record State := {
  analysis_storage : list (string * AnalysisResult.t);
  video_generation_status : gmap string VideoStatus.t;
  background_tasks : list coroutine
}.

Definition initial_state : State :=
  {| analysis_storage := []; video_generation_status := ∅; background_tasks := [] |}.

(** ** Endpoints *)

Definition analyze_code (env : Env) (request : CodeAnalysisRequest.t) (st : State)
    : State * http CodeAnalysisResponse.t :=
  let attempt : result AnalysisResult.t :=
    millis ← py_int (time_time env * 1000)%float;
    let analysis_id := "analysis_" +:+ pretty millis in
    let components :=
      extract_components (CodeAnalysisRequest.code request) (CodeAnalysisRequest.language request) in
    let hooks :=
      extract_hooks (CodeAnalysisRequest.code request) (CodeAnalysisRequest.language request) in
    let events :=
      extract_event_handlers (CodeAnalysisRequest.code request) (CodeAnalysisRequest.language request) in
    let styling :=
      extract_styling (CodeAnalysisRequest.code request) (CodeAnalysisRequest.language request) in
    let analysis_data := make_analysis_data components hooks events styling in
    change_type ← determine_change_type analysis_data;
    let affected_elements := get_affected_elements change_type in
    explanation ← generate_explanation change_type analysis_data;
    let confidence := calculate_confidence analysis_data in
    suggestions ← get_suggestions change_type analysis_data;
    let significant_change :=
      list_truthy components || list_truthy hooks || list_truthy events || list_truthy styling in
    mret {| AnalysisResult.analysis_id := analysis_id;
            AnalysisResult.timestamp := now_isoformat env;
            AnalysisResult.code := CodeAnalysisRequest.code request;
            AnalysisResult.language := CodeAnalysisRequest.language request;
            AnalysisResult.change_type := change_type;
            AnalysisResult.affected_elements := affected_elements;
            AnalysisResult.components := components;
            AnalysisResult.hooks := hooks;
            AnalysisResult.events := events;
            AnalysisResult.styling := styling;
            AnalysisResult.explanation := explanation;
            AnalysisResult.confidence := confidence;
            AnalysisResult.suggestions := suggestions;
            AnalysisResult.significant_change := significant_change;
            AnalysisResult.context := CodeAnalysisRequest.context request;
            AnalysisResult.user_id := CodeAnalysisRequest.user_id request;
            AnalysisResult.session_id := CodeAnalysisRequest.session_id request |} in
  match attempt with
  | Ok analysis_result =>
      ({| analysis_storage :=
            dict_set (AnalysisResult.analysis_id analysis_result) analysis_result
                     (analysis_storage st);
          video_generation_status := video_generation_status st;
          background_tasks := background_tasks st |},
       Respond (CodeAnalysisResponse.of_result analysis_result))
  | Raise e => (st, HTTPException 500 ("Analysis failed: " +:+ exn_str e))
  end.

(** [video_generation_status[video_id]] read and updated in place. *)
Definition update_video (video_id : string) (f : VideoStatus.t → VideoStatus.t)
    (store : gmap string VideoStatus.t) : result (gmap string VideoStatus.t) :=
  video_status ← py_getitem store video_id;
  mret (<[video_id := f video_status]> store).

Definition generate_video_background
    (video_id change_type code_snippet explanation : string)
    (affected_elements : list string) : coroutine :=
  {| body :=
       [ Act (λ _, update_video video_id (VideoStatus.set_status "generating"));
         Act (λ _, update_video video_id (VideoStatus.set_progress 10)) ]
       ++ (progress ← py_range 20 100 20;
           [ AwaitSleep 1;
             Act (λ _, update_video video_id (VideoStatus.set_progress progress)) ])
       ++ [ Act (λ env, update_video video_id
                   (VideoStatus.update_completed
                      ("/videos/" +:+ video_id +:+ ".webm")
                      ("/thumbnails/" +:+ video_id +:+ ".jpg")
                      8
                      (now_isoformat env))) ];
     on_exception := λ e _,
       update_video video_id (VideoStatus.update_failed (exn_str e)) |}.

(** [request.title or default]: the default replaces a missing and an empty
    title alike. *)
Definition title_or (title : option string) (fallback : string) : string :=
  match title with
  | Some (String c s) => String c s
  | _ => fallback
  end.

Definition generate_video (env : Env) (request : VideoGenerationRequest.t) (st : State)
    : State * http VideoGenerationResponse.t :=
  let attempt : result VideoStatus.t :=
    millis ← py_int (time_time env * 1000)%float;
    let video_id := "video_" +:+ pretty millis in
    mret {| VideoStatus.video_id := video_id;
            VideoStatus.status := "pending";
            VideoStatus.progress := 0;
            VideoStatus.video_url := None;
            VideoStatus.thumbnail_url := None;
            VideoStatus.duration := None;
            VideoStatus.generated_at := None;
            VideoStatus.analysis_id := VideoGenerationRequest.analysis_id request;
            VideoStatus.title :=
              title_or (VideoGenerationRequest.title request)
                ("Understanding: " +:+
                 str_replace1 "_" " " (VideoGenerationRequest.change_type request));
            VideoStatus.error := None |} in
  match attempt with
  | Ok video_status =>
      let video_id := VideoStatus.video_id video_status in
      ({| analysis_storage := analysis_storage st;
          video_generation_status := <[video_id := video_status]> (video_generation_status st);
          background_tasks :=
            background_tasks st ++
            [ generate_video_background video_id
                (VideoGenerationRequest.change_type request)
                (VideoGenerationRequest.code_snippet request)
                (VideoGenerationRequest.explanation request)
                (VideoGenerationRequest.affected_elements request) ] |},
       Respond (VideoGenerationResponse.of_status video_status))
  | Raise e => (st, HTTPException 500 ("Video generation failed: " +:+ exn_str e))
  end.

Definition get_video_status (video_id : string) (st : State) : http VideoGenerationResponse.t :=
  match video_generation_status st !! video_id with
  | None => HTTPException 404 "Video not found"
  | Some video_status => Respond (VideoGenerationResponse.of_status video_status)
  end.

Definition get_analysis (analysis_id : string) (st : State) : http AnalysisResult.t :=
  match dict_get analysis_id (analysis_storage st) with
  | None => HTTPException 404 "Analysis not found"
  | Some analysis => Respond analysis
  end.

(** [l.sort(key=lambda x: x["timestamp"], reverse=True)]: a stable sort, the
    largest timestamp first; strings compare character by character. *)
Fixpoint insert_by_timestamp (x : AnalysisResult.t) (l : list AnalysisResult.t)
    : list AnalysisResult.t :=
  match l with
  | [] => [x]
  | y :: l' =>
      if String.ltb (AnalysisResult.timestamp x) (AnalysisResult.timestamp y)
      then y :: insert_by_timestamp x l'
      else x :: y :: l'
  end.

Definition sort_by_timestamp_reverse (l : list AnalysisResult.t) : list AnalysisResult.t :=
  foldr insert_by_timestamp [] l.

Module UserHistory.
Record t := Make {
  user_id : string;
  total_analyses : nat;
  analyses : list AnalysisResult.t
}.
End UserHistory.

Definition get_user_history (user_id : string) (limit : Z) (st : State) : UserHistory.t :=
  let user_analyses :=
    filter (λ analysis, AnalysisResult.user_id analysis = Some user_id)
           (dict_values (analysis_storage st)) in
  let user_analyses := sort_by_timestamp_reverse user_analyses in
  {| UserHistory.user_id := user_id;
     UserHistory.total_analyses := length user_analyses;
     UserHistory.analyses := py_slice_to user_analyses limit |}.

(** ** The event loop

    A task runs from where it stands to its next [await] without being
    interleaved with anything else. [run_until_await] returns the store after
    each statement it ran, in order, and what is left of the body. An
    exception goes to the handler and ends the task; an exception of the
    handler itself ends the task without a write. *)
Fixpoint run_until_await
    (handler : exn → Env → gmap string VideoStatus.t → result (gmap string VideoStatus.t))
    (env : Env) (steps : list step) (store : gmap string VideoStatus.t)
    : list (gmap string VideoStatus.t) * list step :=
  match steps with
  | [] => ([], [])
  | AwaitSleep _ :: _ => ([], steps)
  | Act run :: rest =>
      match run env store with
      | Ok store' =>
          let '(stores, remaining) := run_until_await handler env rest store' in
          (store' :: stores, remaining)
      | Raise e =>
          match handler e env store with
          | Ok store' => ([store'], [])
          | Raise _ => ([], [])
          end
      end
  end.

(** The event loop resumes a task: a suspended task wakes from its sleep,
    normally or with the exception [fault] raised at the [await]. *)
Definition resume (fault : option exn) (env : Env) (task : coroutine)
    (store : gmap string VideoStatus.t)
    : list (gmap string VideoStatus.t) * coroutine :=
  let '(stores, remaining) :=
    match body task, fault with
    | AwaitSleep _ :: rest, Some e =>
        match on_exception task e env store with
        | Ok store' => ([store'], [])
        | Raise _ => ([], [])
        end
    | AwaitSleep _ :: rest, None => run_until_await (on_exception task) env rest store
    | steps, _ => run_until_await (on_exception task) env steps store
    end in
  (stores, {| body := remaining; on_exception := on_exception task |}).

(** What happens on the server, in order: requests handled and tasks
    resumed. *)
Inductive event :=
| PostAnalyze (env : Env) (request : CodeAnalysisRequest.t)
| PostGenerateVideo (env : Env) (request : VideoGenerationRequest.t)
| ResumeTask (i : nat) (env : Env) (fault : option exn).

Definition with_video_store (st : State) (store : gmap string VideoStatus.t) : State :=
  {| analysis_storage := analysis_storage st;
     video_generation_status := store;
     background_tasks := background_tasks st |}.

(** The states one event takes the server through, in order. *)
Definition step_event (ev : event) (st : State) : list State :=
  match ev with
  | PostAnalyze env request => [(analyze_code env request st).1]
  | PostGenerateVideo env request => [(generate_video env request st).1]
  | ResumeTask i env fault =>
      match background_tasks st !! i with
      | None => []
      | Some task =>
          let '(stores, task') := resume fault env task (video_generation_status st) in
          let st' :=
            {| analysis_storage := analysis_storage st;
               video_generation_status := video_generation_status st;
               background_tasks := <[i := task']> (background_tasks st) |} in
          match stores with
          | [] => [st']
          | _ => with_video_store st' <$> stores
          end
      end
  end.

Fixpoint exec (evs : list event) (st : State) : list State :=
  match evs with
  | [] => []
  | ev :: evs' =>
      let states := step_event ev st in
      states ++ exec evs' (default st (last states))
  end.

(** The successive values of one video's record along a run. *)
Definition video_trace (video_id : string) (states : list State) : list VideoStatus.t :=
  omap (λ st, video_generation_status st !! video_id) states.

Definition status_progress (v : VideoStatus.t) : string * Z :=
  (VideoStatus.status v, VideoStatus.progress v).

(** ** The analyzer's declared languages and the health endpoint *)

(** [InteractiveCodingAnalyzer.__init__]: the languages the analyzer
    declares. *)
Definition supported_languages : list string :=
  ["javascript"; "typescript"; "python"; "java"].

Module HealthCheck.
Record t := Make {
  status : string;
  timestamp : string;
  supported_languages : list string;
  active_analyses : nat;
  active_videos : nat
}.
End HealthCheck.

Definition health_check (env : Env) (st : State) : HealthCheck.t :=
  {| HealthCheck.status := "healthy";
     HealthCheck.timestamp := now_isoformat env;
     HealthCheck.supported_languages := supported_languages;
     HealthCheck.active_analyses := length (analysis_storage st);
     HealthCheck.active_videos := size (video_generation_status st) |}.

(** ** The specification's vocabulary

    Definitions written from the specification's words, to compare the code
    with. *)

(** The closed enumeration of change types, and the label each has in the
    code. *)
Inductive ChangeType :=
| StateManagement
| SideEffects
| EventHandling
| Styling
| ComponentStructure
| GeneralCoding.

Definition change_type_name (t : ChangeType) : string :=
  match t with
  | StateManagement => "state_management"
  | SideEffects => "side_effects"
  | EventHandling => "event_handling"
  | Styling => "styling"
  | ComponentStructure => "component_structure"
  | GeneralCoding => "general_coding"
  end.

(** A hook name of state or reducer style, and one of side-effect style. *)
Definition state_style (h : string) : bool :=
  str_in "useState" h || str_in "useReducer" h.

Definition effect_style (h : string) : bool := str_in "useEffect" h.

Definition nonempty {A} (l : list A) : bool := bool_decide (l ≠ []).

(** The ordered cascade of the classifier: the first rule that applies wins. *)
Definition classify (components hooks events styling : list string) : ChangeType :=
  if existsb state_style hooks then StateManagement
  else if existsb effect_style hooks then SideEffects
  else if nonempty events then EventHandling
  else if nonempty styling then Styling
  else if nonempty components then ComponentStructure
  else GeneralCoding.

(** The names the first two rules are about, read on the text of the name
    alone: [t] stands somewhere in [s]; a state-holding hook (state or
    reducer style) is one whose name contains [useState] or [useReducer], a
    side-effect lifecycle hook one whose name contains [useEffect]. *)
Definition has_text (t s : string) : Prop := ∃ pre suf, s = pre +:+ t +:+ suf.

Definition state_holding (h : string) : Prop :=
  has_text "useState" h ∨ has_text "useReducer" h.

Definition effect_lifecycle (h : string) : Prop := has_text "useEffect" h.

(** The cascade, rule by rule: a rule applies when none before it does. *)
Inductive cascade (components hooks events styling : list string) : ChangeType → Prop :=
| cascade_state :
    Exists state_holding hooks →
    cascade components hooks events styling StateManagement
| cascade_effect :
    ¬ Exists state_holding hooks → Exists effect_lifecycle hooks →
    cascade components hooks events styling SideEffects
| cascade_events :
    ¬ Exists state_holding hooks → ¬ Exists effect_lifecycle hooks →
    events ≠ [] →
    cascade components hooks events styling EventHandling
| cascade_styling :
    ¬ Exists state_holding hooks → ¬ Exists effect_lifecycle hooks →
    events = [] → styling ≠ [] →
    cascade components hooks events styling Styling
| cascade_components :
    ¬ Exists state_holding hooks → ¬ Exists effect_lifecycle hooks →
    events = [] → styling = [] → components ≠ [] →
    cascade components hooks events styling ComponentStructure
| cascade_general :
    ¬ Exists state_holding hooks → ¬ Exists effect_lifecycle hooks →
    events = [] → styling = [] → components = [] →
    cascade components hooks events styling GeneralCoding.

(** The confidence formula: base, one increment per non-empty set, clamp. *)
Definition increment (present : bool) (amount : float) : float :=
  if present then amount else 0%float.

Definition clamp_above (bound x : float) : float :=
  if PrimFloat.ltb bound x then bound else x.

Definition confidence_formula (components hooks events styling : bool) : float :=
  clamp_above 1
    (0.5 + increment components 0.2 + increment hooks 0.2
         + increment events 0.15 + increment styling 0.15)%float.

(** The non-empty categories of the first quadruple are among those of the
    second. *)
Definition categories_included
    (q1 q2 : list string * list string * list string * list string) : Prop :=
  let '(c1, h1, e1, s1) := q1 in
  let '(c2, h2, e2, s2) := q2 in
  (c1 ≠ [] → c2 ≠ []) ∧ (h1 ≠ [] → h2 ≠ []) ∧
  (e1 ≠ [] → e2 ≠ []) ∧ (s1 ≠ [] → s2 ≠ []).

Definition confidence_of (q : list string * list string * list string * list string) : float :=
  let '(c, h, e, s) := q in calculate_confidence (make_analysis_data c h e s).

(** [calculate_confidence] as a function of which sets are non-empty, the
    only thing it reads of them. *)
Definition confidence_by_flags (c h e s : bool) : float :=
  let confidence := 0.5%float in
  let confidence := if c then (confidence + 0.2)%float else confidence in
  let confidence := if h then (confidence + 0.2)%float else confidence in
  let confidence := if e then (confidence + 0.15)%float else confidence in
  let confidence := if s then (confidence + 0.15)%float else confidence in
  py_min 1.0 confidence.

(** ** What a pattern matches

    The declarative reading of a sequence of atoms, to state what the scan
    returns. *)

(** All characters of a string are in a class. *)
Fixpoint all_in (cls : ascii → bool) (s : string) : bool :=
  match s with
  | EmptyString => true
  | String c s' => cls c && all_in cls s'
  end.

(** The texts a sequence of atoms matches. *)
Inductive matches : list Re.atom → string → Prop :=
| matches_nil : matches [] ""
| matches_one cls c p t :
    cls c = true → matches p t → matches (Re.One cls :: p) (String c t)
| matches_star cls p u t :
    all_in cls u = true → matches p t → matches (Re.Star cls :: p) (u +:+ t)
| matches_plus cls p u t :
    all_in cls u = true → u ≠ "" → matches p t → matches (Re.Plus cls :: p) (u +:+ t).

(** The first [n] characters of a string. *)
Fixpoint take_str (n : nat) (s : string) : string :=
  match n, s with
  | S n', String c s' => String c (take_str n' s')
  | _, _ => ""
  end.

(** A handler as the source pattern reads it: [on], a capital letter, word
    characters, then white space up to the [=]. *)
Definition handler_text (c : ascii) (w sp : string) : string :=
  "on" +:+ String c (w +:+ sp).

(** The order of a history: a record is at least as recent as the next, or
    strictly more recent. *)
Definition newer_or_equal (a b : AnalysisResult.t) : Prop :=
  String.le (AnalysisResult.timestamp b) (AnalysisResult.timestamp a).

Definition strictly_newer (a b : AnalysisResult.t) : Prop :=
  String.ltb (AnalysisResult.timestamp b) (AnalysisResult.timestamp a) = true.

(** The records of one user in the store, in storage order. *)
Definition analyses_of (user_id : string) (st : State) : list AnalysisResult.t :=
  filter (λ analysis, AnalysisResult.user_id analysis = Some user_id)
         (dict_values (analysis_storage st)).

(** The history as the specification states it: at most [limit] records,
    each strictly more recent than all that follow it. *)
Definition history_as_stated (user_id : string) (limit : Z) (st : State) : Prop :=
  let analyses := UserHistory.analyses (get_user_history user_id limit st) in
  Z.of_nat (length analyses) ≤ limit ∧ StronglySorted strictly_newer analyses.

(** Creation read as the order in which the records were stored: the
    history is the user's records, the last stored first. *)
Definition newest_stored_first (user_id : string) (limit : Z) (st : State) : Prop :=
  UserHistory.analyses (get_user_history user_id limit st)
  = take (Z.to_nat limit) (reverse (analyses_of user_id st)).

(** Timestamps that grow strictly from each record of a list to all after
    it: the clock went forward between any two creations. *)
Definition older_first (l : list AnalysisResult.t) : Prop :=
  StronglySorted (λ a b, strictly_newer b a) l.



Definition default_title (change_type : string) : string :=
  "Understanding: " +:+ str_replace1 "_" " " change_type.




Definition response_analysis_id (r : http CodeAnalysisResponse.t) : option string :=
  match r with
  | Respond response => Some (CodeAnalysisResponse.analysis_id response)
  | HTTPException _ _ => None
  end.

Definition response_video_id (r : http VideoGenerationResponse.t) : option string :=
  match r with
  | Respond response => Some (VideoGenerationResponse.video_id response)
  | HTTPException _ _ => None
  end.

(** The invariants of a video job, over the successive values of its record:
    progress never goes down, progress is 100 exactly in the completed
    status, and a terminal record is never followed by a different one. *)
Fixpoint each_step {A} (R : A → A → Prop) (l : list A) : Prop :=
  match l with
  | v :: (w :: _) as rest => R v w ∧ each_step R rest
  | _ => True
  end.

Definition progress_non_decreasing (trace : list VideoStatus.t) : Prop :=
  each_step (λ v w, VideoStatus.progress v ≤ VideoStatus.progress w) trace.

Definition hundred_iff_completed (v : VideoStatus.t) : Prop :=
  VideoStatus.progress v = 100 ↔ VideoStatus.status v = "completed".

Definition terminal (v : VideoStatus.t) : Prop :=
  VideoStatus.status v = "completed" ∨ VideoStatus.status v = "failed".

Definition terminal_is_final (trace : list VideoStatus.t) : Prop :=
  each_step (λ v w, terminal v → w = v) trace.

Definition job_invariants (trace : list VideoStatus.t) : Prop :=
  progress_non_decreasing trace
  ∧ Forall hundred_iff_completed trace
  ∧ terminal_is_final trace.

(** ** The stages of a background task

    The task of one job as the event loop holds it: not started (stage 0),
    suspended in the sleep of the loop's first to fourth round (stages 1 to
    4), or ended (stage 5). *)
Definition stage_offset (k : nat) : nat :=
  match k with
  | 0 => 0
  | 1 => 2
  | 2 => 4
  | 3 => 6
  | 4 => 8
  | _ => 11
  end%nat.

Definition task_at (video_id : string) (k : nat) : coroutine :=
  let task := generate_video_background video_id "" "" "" [] in
  {| body := drop (stage_offset k) (body task); on_exception := on_exception task |}.

(** The stage a resumption leads to, and the values it writes to the job's
    record [v], in order. *)
Definition next_stage (k : nat) (fault : option exn) : nat :=
  match k, fault with
  | 0, _ => 1
  | 1, None => 2
  | 2, None => 3
  | 3, None => 4
  | _, _ => 5
  end%nat.

Definition completed_by (video_id : string) (env : Env) (v : VideoStatus.t) : VideoStatus.t :=
  VideoStatus.update_completed ("/videos/" +:+ video_id +:+ ".webm")
    ("/thumbnails/" +:+ video_id +:+ ".jpg") 8 (now_isoformat env) v.

Definition writes (video_id : string) (k : nat) (fault : option exn) (env : Env)
    (v : VideoStatus.t) : list VideoStatus.t :=
  match k, fault with
  | 0%nat, _ => [ VideoStatus.set_status "generating" v;
              VideoStatus.set_progress 10 (VideoStatus.set_status "generating" v) ]
  | 1%nat, None => [ VideoStatus.set_progress 20 v ]
  | 2%nat, None => [ VideoStatus.set_progress 40 v ]
  | 3%nat, None => [ VideoStatus.set_progress 60 v ]
  | 4%nat, None => [ VideoStatus.set_progress 80 v;
                 completed_by video_id env (VideoStatus.set_progress 80 v) ]
  | (1 | 2 | 3 | 4)%nat, Some e => [ VideoStatus.update_failed (exn_str e) v ]
  | _, _ => []
  end.

(** The values a record takes during a resumption: those written, or the
    unchanged record when nothing is written. *)
Definition or_unchanged (v : VideoStatus.t) (ws : list VideoStatus.t) : list VideoStatus.t :=
  match ws with
  | [] => [v]
  | _ => ws
  end.

(** What the record of a job looks like at each stage of its task. *)
Definition stage_record (k : nat) (v : VideoStatus.t) : Prop :=
  match k with
  | 0%nat => status_progress v = ("pending", 0)
  | 1%nat => status_progress v = ("generating", 10)
  | 2%nat => status_progress v = ("generating", 20)
  | 3%nat => status_progress v = ("generating", 40)
  | 4%nat => status_progress v = ("generating", 60)
  | _ => terminal v ∧ hundred_iff_completed v
  end.

(** ** Runs without colliding ids

    The video id an event mints, if it mints one, and the ids minted along a
    run. *)
Definition minted_video_id (ev : event) : option string :=
  match ev with
  | PostGenerateVideo env _ =>
      match py_int (time_time env * 1000)%float with
      | Ok millis => Some ("video_" +:+ pretty millis)
      | Raise _ => None
      end
  | _ => None
  end.

Definition minted_video_ids (evs : list event) : list string := omap minted_video_id evs.

(** The state of a server whose tasks each own one record: the task of id
    [id] stands at some stage and its record is as that stage expects; the
    ids are pairwise distinct and no other record exists. *)
Definition task_ok (st : State) (id : string) (task : coroutine) : Prop :=
  ∃ k v, (k ≤ 5)%nat ∧ task = task_at id k
         ∧ video_generation_status st !! id = Some v ∧ stage_record k v.

Definition system_ok (ids : list string) (st : State) : Prop :=
  NoDup ids
  ∧ length ids = length (background_tasks st)
  ∧ (∀ i id task, ids !! i = Some id → background_tasks st !! i = Some task →
       task_ok st id task)
  ∧ (∀ id, id ∉ ids → video_generation_status st !! id = None).

(** ** Sample inputs *)

Definition clock (seconds : float) (iso : string) : Env :=
  {| time_time := seconds; now_isoformat := iso |}.

Definition sample_request (code : string) (user : string) : CodeAnalysisRequest.t :=
  {| CodeAnalysisRequest.code := code;
     CodeAnalysisRequest.language := "javascript";
     CodeAnalysisRequest.context := None;
     CodeAnalysisRequest.user_id := Some user;
     CodeAnalysisRequest.session_id := None |}.

(** Three analyses of one user, made a second apart. *)
Definition sample_history : State :=
  let st := initial_state in
  let st := (analyze_code (clock 1700000000.25 "2023-11-14T22:13:20.250000")
               (sample_request "function Header() {}" "u1") st).1 in
  let st := (analyze_code (clock 1700000001.25 "2023-11-14T22:13:21.250000")
               (sample_request "const [n, setN] = useState(0)" "u1") st).1 in
  let st := (analyze_code (clock 1700000002.25 "2023-11-14T22:13:22.250000")
               (sample_request "<a onClick={go}>x</a>" "u1") st).1 in
  st.

(** Local wall-clock readings of the night the clocks are set back an hour
    (2023-10-29, 03:00 summer time becomes 02:00): the same reading taken
    twice, an hour apart, and the last second before and the first second
    after the change. [datetime.now().isoformat()] does not tell the two
    passes through the hour apart. *)
Definition first_pass : Env := clock 1698539400.5 "2023-10-29T02:30:00.500000".
Definition second_pass : Env := clock 1698543000.5 "2023-10-29T02:30:00.500000".
Definition before_change : Env := clock 1698541199.5 "2023-10-29T02:59:59.500000".
Definition after_change : Env := clock 1698541200.5 "2023-10-29T02:00:00.500000".

(** Two analyses of one user an hour apart, with the same timestamp. *)
Definition repeated_hour_history : State :=
  let st := initial_state in
  let st := (analyze_code first_pass (sample_request "function Header() {}" "u1") st).1 in
  let st := (analyze_code second_pass (sample_request "<a onClick={go}>x</a>" "u1") st).1 in
  st.

(** Two analyses of one user a second apart, the clock set back between
    them: the second is stored later and carries the earlier timestamp. *)
Definition set_back_history : State :=
  let st := initial_state in
  let st := (analyze_code before_change (sample_request "function Header() {}" "u1") st).1 in
  let st := (analyze_code after_change (sample_request "<a onClick={go}>x</a>" "u1") st).1 in
  st.

(** The specification's worked example: a component with a click handler
    and a class name, no hook. *)
Definition header_code : string :=
  "function Header() { return <button onClick={go} className="
  +:+ String dquote ("btn-primary" +:+ String dquote ">Go</button> }").

Definition sample_video_request (title : option string) : VideoGenerationRequest.t :=
  {| VideoGenerationRequest.analysis_id := "analysis_42";
     VideoGenerationRequest.change_type := "state_management";
     VideoGenerationRequest.code_snippet := "const [n, setN] = useState(0)";
     VideoGenerationRequest.explanation := "State management";
     VideoGenerationRequest.affected_elements := ["data-flow"];
     VideoGenerationRequest.title := title |}.

(** Two clock readings 0.3 ms apart, inside one millisecond. *)
Definition first_reading : Env := clock 1700000000.0001 "2023-11-14T22:13:20.000100".
Definition second_reading : Env := clock 1700000000.0004 "2023-11-14T22:13:20.000400".

(** Two video requests accepted within one millisecond, then their two
    background tasks resumed in turn, a second apart, until both are done. *)
Definition tick1 : Env := clock 1700000001.5 "2023-11-14T22:13:21.500000".
Definition tick2 : Env := clock 1700000002.5 "2023-11-14T22:13:22.500000".
Definition tick3 : Env := clock 1700000003.5 "2023-11-14T22:13:23.500000".
Definition tick4 : Env := clock 1700000004.5 "2023-11-14T22:13:24.500000".
Definition tick5 : Env := clock 1700000005.5 "2023-11-14T22:13:25.500000".

Definition colliding_schedule : list event :=
  [ PostGenerateVideo first_reading (sample_video_request None);
    PostGenerateVideo second_reading (sample_video_request (Some "Second"));
    ResumeTask 0 first_reading None;  ResumeTask 1 second_reading None;
    ResumeTask 0 tick1 None;          ResumeTask 1 tick1 None;
    ResumeTask 0 tick2 None;          ResumeTask 1 tick2 None;
    ResumeTask 0 tick3 None;          ResumeTask 1 tick3 None;
    ResumeTask 0 tick4 None;          ResumeTask 1 tick5 None ].

(** ** Vocabulary of the further properties *)

(** The state the server is in after a run. *)
Definition after (evs : list event) (st : State) : State :=
  foldl (λ st ev, default st (last (step_event ev st))) st evs.

(** The six labels of the classifier. *)
Definition change_type_names : list string :=
  change_type_name <$>
    [StateManagement; SideEffects; EventHandling; Styling; ComponentStructure; GeneralCoding].

(** The record [analyze_code] builds for a request, given the clock reading
    in milliseconds and the two texts looked up in the tables. *)
Definition analysis_record (env : Env) (request : CodeAnalysisRequest.t) (millis : Z)
    (explanation : string) (suggestions : list string) : AnalysisResult.t :=
  let code := CodeAnalysisRequest.code request in
  let language := CodeAnalysisRequest.language request in
  let components := extract_components code language in
  let hooks := extract_hooks code language in
  let events := extract_event_handlers code language in
  let styling := extract_styling code language in
  let label := change_type_name (classify components hooks events styling) in
  {| AnalysisResult.analysis_id := "analysis_" +:+ pretty millis;
     AnalysisResult.timestamp := now_isoformat env;
     AnalysisResult.code := code;
     AnalysisResult.language := language;
     AnalysisResult.change_type := label;
     AnalysisResult.affected_elements := get_affected_elements label;
     AnalysisResult.components := components;
     AnalysisResult.hooks := hooks;
     AnalysisResult.events := events;
     AnalysisResult.styling := styling;
     AnalysisResult.explanation := explanation;
     AnalysisResult.confidence :=
       calculate_confidence (make_analysis_data components hooks events styling);
     AnalysisResult.suggestions := suggestions;
     AnalysisResult.significant_change :=
       list_truthy components || list_truthy hooks || list_truthy events
       || list_truthy styling;
     AnalysisResult.context := CodeAnalysisRequest.context request;
     AnalysisResult.user_id := CodeAnalysisRequest.user_id request;
     AnalysisResult.session_id := CodeAnalysisRequest.session_id request |}.

(** ** What the extractors return *)

(** A capitalised identifier: a capital letter, then word characters. *)
Definition capitalized (r : string) : Prop :=
  ∃ c w, r = String c w ∧ Re.upper c = true ∧ all_in Re.word w = true.

(** A non-empty run of white space. *)
Definition blanks (sp : string) : Prop := sp ≠ "" ∧ all_in Re.space sp = true.

(** [t in code]. *)
Definition occurs_in (t code : string) : Prop := str_in t code = true.

(** ** Histories *)

(** The records of a list made at the timestamp [t], in the list's order. *)
Definition made_at (t : string) (l : list AnalysisResult.t) : list AnalysisResult.t :=
  filter (λ a, AnalysisResult.timestamp a = t) l.

(** The length of [l[:limit]] for a list of [total] elements. *)
Definition slice_length (total : nat) (limit : Z) : nat :=
  if limit <? 0 then Z.to_nat (Z.of_nat total + limit)
  else Nat.min (Z.to_nat limit) total.

(** ** The run of one background task

    A task resumed at the clock readings [resumptions], each with the fault
    its sleep raises, if any: the events, the values its record [v] takes,
    the record at the end and the stage reached, from stage [k]. *)
Definition resume_events (i : nat) (resumptions : list (Env * option exn)) : list event :=
  (λ r, ResumeTask i r.1 r.2) <$> resumptions.

Fixpoint expected_trace (video_id : string) (k : nat) (resumptions : list (Env * option exn))
    (v : VideoStatus.t) : list VideoStatus.t :=
  match resumptions with
  | [] => []
  | (env, fault) :: rest =>
      or_unchanged v (writes video_id k fault env v)
      ++ expected_trace video_id (next_stage k fault) rest
           (default v (last (writes video_id k fault env v)))
  end.

Fixpoint final_record (video_id : string) (k : nat) (resumptions : list (Env * option exn))
    (v : VideoStatus.t) : VideoStatus.t :=
  match resumptions with
  | [] => v
  | (env, fault) :: rest =>
      final_record video_id (next_stage k fault) rest
        (default v (last (writes video_id k fault env v)))
  end.

Fixpoint final_stage (k : nat) (resumptions : list (Env * option exn)) : nat :=
  match resumptions with
  | [] => k
  | (_, fault) :: rest => final_stage (next_stage k fault) rest
  end.

(** The record [generate_video] stores for a request. *)
Definition pending_job (video_id : string) (request : VideoGenerationRequest.t)
    : VideoStatus.t :=
  {| VideoStatus.video_id := video_id;
     VideoStatus.status := "pending";
     VideoStatus.progress := 0;
     VideoStatus.video_url := None;
     VideoStatus.thumbnail_url := None;
     VideoStatus.duration := None;
     VideoStatus.generated_at := None;
     VideoStatus.analysis_id := VideoGenerationRequest.analysis_id request;
     VideoStatus.title :=
       title_or (VideoGenerationRequest.title request)
         (default_title (VideoGenerationRequest.change_type request));
     VideoStatus.error := None |}.

(** Fault-free resumptions at the given clock readings. *)
Definition undisturbed (envs : list Env) : list (Env * option exn) := (., None) <$> envs.

(** ** What a run leaves in the stores *)

(** The analysis id an event mints, if it mints one. *)
Definition minted_analysis_id (ev : event) : option string :=
  match ev with
  | PostAnalyze env _ =>
      match py_int (time_time env * 1000)%float with
      | Ok millis => Some ("analysis_" +:+ pretty millis)
      | Raise _ => None
      end
  | _ => None
  end.

Definition minted_analysis_ids (evs : list event) : list string :=
  omap minted_analysis_id evs.

(** A statement, a step and a task that neither add nor remove a key of the
    video store. *)
Definition keeps_keys
    (run : Env → gmap string VideoStatus.t → result (gmap string VideoStatus.t)) : Prop :=
  ∀ env store store', run env store = Ok store' → dom store' = dom store.

Definition step_keeps_keys (s : step) : Prop :=
  match s with
  | Act run => keeps_keys run
  | AwaitSleep _ => True
  end.

Definition task_keeps_keys (task : coroutine) : Prop :=
  Forall step_keeps_keys (body task) ∧ ∀ e, keeps_keys (on_exception task e).

(** ** The texts of a response *)

(** [explanations.get(label, explanations["general_coding"])] and its
    counterpart for the suggestions. *)
Definition explanation_of (label : string) : string :=
  default (default "" (explanations !! "general_coding")) (explanations !! label).

Definition suggestions_of (label : string) : list string :=
  default (default [] (suggestions_map !! "general_coding")) (suggestions_map !! label).

(** The title [generate_video] gives a job. *)
Definition job_title (request : VideoGenerationRequest.t) : string :=
  match VideoGenerationRequest.title request with
  | Some t => if decide (t = "") then default_title (VideoGenerationRequest.change_type request)
              else t
  | None => default_title (VideoGenerationRequest.change_type request)
  end.

(** A schedule of two jobs accepted a second and a half apart, the second
    of which fails at its second sleep. *)
Definition distinct_schedule : list event :=
  [ PostGenerateVideo first_reading (sample_video_request None);
    ResumeTask 0 first_reading None;
    PostGenerateVideo tick1 (sample_video_request (Some "Second"));
    ResumeTask 1 tick1 None;
    ResumeTask 0 tick2 None;  ResumeTask 1 tick2 None;
    ResumeTask 0 tick3 None;  ResumeTask 1 tick3 (Some (RuntimeError "loop closed"));
    ResumeTask 0 tick4 None;  ResumeTask 1 tick4 None;
    ResumeTask 0 tick5 None ].

(** A hook name as the pattern of [extract_hooks] reads it. *)
Definition hook_name (r : string) : Prop := ∃ name, r = "use" +:+ name ∧ capitalized name.

(** * Properties *)

(** ** The analysis dictionary *)

Section AnalysisData.
Context (components hooks events styling : list string).

Lemma analysis_data_components :
  make_analysis_data components hooks events styling !! "components" = Some components.
Proof. unfold make_analysis_data. by simplify_map_eq. Qed.

Lemma analysis_data_hooks :
  make_analysis_data components hooks events styling !! "hooks" = Some hooks.
Proof. unfold make_analysis_data. by simplify_map_eq. Qed.

Lemma analysis_data_events :
  make_analysis_data components hooks events styling !! "events" = Some events.
Proof. unfold make_analysis_data. by simplify_map_eq. Qed.

Lemma analysis_data_styling :
  make_analysis_data components hooks events styling !! "styling" = Some styling.
Proof. unfold make_analysis_data. by simplify_map_eq. Qed.
End AnalysisData.

Lemma list_truthy_nonempty {A} (l : list A) : list_truthy l = nonempty l.
Proof. by destruct l. Qed.

(** The guard [analysis_data.get("hooks") and ...] never lets the indexing
    raise, and the whole condition is the [any] over the hooks. *)
Lemma hooks_any_data test components hooks events styling :
  hooks_any test (make_analysis_data components hooks events styling)
    = Ok (existsb test hooks).
Proof.
  unfold hooks_any, py_getitem. rewrite analysis_data_hooks.
  destruct hooks; reflexivity.
Qed.

(** ** Classifier *)

(** The code follows the cascade, and its indexing of the dictionary never
    raises. *)
Lemma determine_change_type_classify (components hooks events styling : list string) :
  determine_change_type (make_analysis_data components hooks events styling)
  = Ok (change_type_name (classify components hooks events styling)).
Proof.
  unfold determine_change_type, classify.
  rewrite !hooks_any_data. cbn [mbind result_bind].
  fold state_style. destruct (existsb state_style hooks); [reflexivity|].
  fold effect_style. destruct (existsb effect_style hooks); [reflexivity|].
  rewrite analysis_data_events, analysis_data_styling, analysis_data_components.
  cbn [get_truthy]. rewrite !list_truthy_nonempty.
  destruct (nonempty events); [reflexivity|].
  destruct (nonempty styling); [reflexivity|].
  destruct (nonempty components); reflexivity.
Qed.

(** *** Names read by their text *)

Lemma prefix_app t s : String.prefix t (t +:+ s) = true.
Proof.
  induction t as [|c t IH]; [by destruct s|].
  change (String.prefix (String c t) (String c (t +:+ s)) = true).
  simpl. by destruct (ascii_dec c c).
Qed.

Lemma str_in_unfold t s :
  str_in t s
  = String.prefix t s || match s with EmptyString => false | String _ s' => str_in t s' end.
Proof. by destruct s. Qed.

Lemma str_in_prefix t s : String.prefix t s = true → str_in t s = true.
Proof. intros Hprefix. by rewrite str_in_unfold, Hprefix. Qed.

Lemma str_in_app pre t s : str_in t (pre +:+ t +:+ s) = true.
Proof.
  induction pre as [|c pre IH].
  - change (str_in t (t +:+ s) = true). apply str_in_prefix, prefix_app.
  - change (str_in t (String c (pre +:+ t +:+ s)) = true).
    rewrite str_in_unfold, IH. apply orb_true_r.
Qed.

Lemma prefix_split t s : String.prefix t s = true → ∃ suf, s = t +:+ suf.
Proof.
  revert s. induction t as [|c t IH]; intros s; [by exists s|].
  destruct s as [|d s]; [done|]. simpl.
  destruct (ascii_dec c d) as [->|]; [|done].
  intros [suf ->]%IH. by exists suf.
Qed.

Lemma str_in_split t s : str_in t s = true → ∃ pre suf, s = pre +:+ t +:+ suf.
Proof.
  induction s as [|c s IH]; rewrite str_in_unfold.
  - rewrite orb_false_r. intros [suf ->]%prefix_split. by exists "", suf.
  - intros [[suf ->]%prefix_split|(pre & suf & ->)%IH]%orb_true_iff.
    + by exists "", suf.
    + by exists (String c pre), suf.
Qed.

Lemma has_text_str_in t s : has_text t s ↔ str_in t s = true.
Proof.
  split; [|apply str_in_split]. intros (pre & suf & ->). apply str_in_app.
Qed.

Lemma state_holding_style h : state_holding h ↔ state_style h = true.
Proof.
  unfold state_holding, state_style. by rewrite orb_true_iff, !has_text_str_in.
Qed.

Lemma effect_lifecycle_style h : effect_lifecycle h ↔ effect_style h = true.
Proof. apply has_text_str_in. Qed.

Lemma Exists_existsb {A} (P : A → Prop) (f : A → bool) l :
  (∀ x, P x ↔ f x = true) → Exists P l ↔ existsb f l = true.
Proof.
  intros Hf. rewrite list.Exists_exists, existsb_exists. split.
  - intros (x & Hx & HP). exists x. split; [by apply list_elem_of_In|by apply Hf].
  - intros (x & Hx & HP). exists x. split; [by apply list_elem_of_In|by apply Hf].
Qed.

(** The label computed is the one the rules give, and the rules give no
    other. *)
Lemma classify_cascade components hooks events styling :
  cascade components hooks events styling (classify components hooks events styling).
Proof.
  unfold classify.
  pose proof (Exists_existsb state_holding state_style hooks state_holding_style) as Hstate.
  pose proof (Exists_existsb effect_lifecycle effect_style hooks effect_lifecycle_style)
    as Heffect.
  destruct (existsb state_style hooks); [by apply cascade_state, Hstate|].
  assert (¬ Exists state_holding hooks) as Hno_state by (by intros ?%Hstate).
  destruct (existsb effect_style hooks); [by apply cascade_effect; [|apply Heffect]|].
  assert (¬ Exists effect_lifecycle hooks) as Hno_effect by (by intros ?%Heffect).
  unfold nonempty.
  destruct events as [|e events]; [|by apply cascade_events].
  destruct styling as [|s styling]; [|by apply cascade_styling].
  destruct components as [|c components]; [|by apply cascade_components].
  by apply cascade_general.
Qed.

Lemma cascade_unique components hooks events styling label other :
  cascade components hooks events styling label →
  cascade components hooks events styling other →
  other = label.
Proof. intros Hlabel Hother. inversion Hlabel; inversion Hother; subst; done. Qed.

(** C1. Given the four extraction sets, the classifier returns exactly one
    change type and never raises: the one the ordered cascade gives, rule by
    rule, and the rules give no other. A hook counts by the text of its name:
    as state-holding when the name contains [useState] or [useReducer], as a
    side-effect lifecycle hook when it contains [useEffect]. In particular a
    hook set that contains a state-holding name yields [state_management]
    whatever the other sets hold. *)
Theorem determine_change_type_cascade (components hooks events styling : list string) :
  ∃ label,
    determine_change_type (make_analysis_data components hooks events styling)
    = Ok (change_type_name label)
    ∧ cascade components hooks events styling label
    ∧ (∀ other, cascade components hooks events styling other → other = label)
    ∧ (Exists state_holding hooks →
       determine_change_type (make_analysis_data components hooks events styling)
       = Ok "state_management").
Proof.
  exists (classify components hooks events styling).
  pose proof (classify_cascade components hooks events styling) as Hlabel.
  split; [apply determine_change_type_classify|]. split; [exact Hlabel|]. split.
  - intros other Hother. by eapply cascade_unique.
  - intros Hstate. rewrite determine_change_type_classify.
    by rewrite <- (cascade_unique _ _ _ _ _ StateManagement Hlabel
                     (cascade_state _ _ _ _ Hstate)).
Qed.

(** The rule a concrete input falls under, settled by looking for the three
    texts in its hook names. *)
Ltac settle_names :=
  repeat match goal with
  | |- ¬ _ => intros Hnames; apply Exists_exists in Hnames as (h & Hh & Hname);
              repeat (apply elem_of_cons in Hh as [->|Hh]);
              [..|by apply elem_of_nil in Hh]
  | Hname : state_holding _ |- _ => apply state_holding_style in Hname; discriminate Hname
  | Hname : effect_lifecycle _ |- _ =>
      apply effect_lifecycle_style in Hname; discriminate Hname
  end.

Ltac by_rule rule :=
  match goal with
  | |- determine_change_type (make_analysis_data ?c ?h ?e ?s) = _ =>
      destruct (determine_change_type_cascade c h e s) as (label & -> & _ & Hunique & _);
      rewrite <- (Hunique _ ltac:(apply rule;
                                  first [ done
                                        | by apply Exists_cons_hd; exists "", ""
                                        | settle_names ]));
      reflexivity
  end.

Lemma determine_change_type_cascade_witness :
  determine_change_type
    (make_analysis_data ["Header"] ["useEffect"; "useState"] ["onClick"] ["btn"])
  = Ok "state_management"
  ∧ determine_change_type (make_analysis_data ["Header"] ["useEffect"] ["onClick"] ["btn"])
    = Ok "side_effects"
  ∧ determine_change_type (make_analysis_data ["Header"] ["useMemo"] ["onClick"] ["btn"])
    = Ok "event_handling"
  ∧ determine_change_type (make_analysis_data ["Header"] ["useMemo"] [] ["btn"])
    = Ok "styling"
  ∧ determine_change_type (make_analysis_data ["Header"] [] [] [])
    = Ok "component_structure"
  ∧ determine_change_type (make_analysis_data [] ["useMemo"] [] [])
    = Ok "general_coding".
Proof.
  split.
  { destruct (determine_change_type_cascade ["Header"] ["useEffect"; "useState"]
                ["onClick"] ["btn"]) as (label & _ & _ & _ & Hstate).
    apply Hstate, Exists_cons_tl, Exists_cons_hd. left. by exists "", "". }
  split; [by_rule cascade_effect|]. split; [by_rule cascade_events|].
  split; [by_rule cascade_styling|]. split; [by_rule cascade_components|].
  by_rule cascade_general.
Defined.

(** The three texts are all the first two rules look for: a hook whose name
    holds none of them leaves the decision to the later rules. *)
Example names_without_the_texts :
  determine_change_type (make_analysis_data [] ["useLayoutEffect"] [] ["btn"])
  = Ok "styling"
  ∧ determine_change_type (make_analysis_data ["Panel"] ["useImmerReducer"] [] [])
    = Ok "component_structure".
Proof. split; reflexivity. Qed.

(** ** Confidence *)

Lemma calculate_confidence_flags (components hooks events styling : list string) :
  calculate_confidence (make_analysis_data components hooks events styling)
  = confidence_by_flags (nonempty components) (nonempty hooks)
                        (nonempty events) (nonempty styling).
Proof.
  unfold calculate_confidence, confidence_by_flags.
  rewrite analysis_data_components, analysis_data_hooks,
          analysis_data_events, analysis_data_styling.
  cbn [get_truthy]. by rewrite !list_truthy_nonempty.
Qed.

Lemma nonempty_true {A} (l : list A) : nonempty l = true ↔ l ≠ [].
Proof. unfold nonempty. by rewrite bool_decide_eq_true. Qed.

(** The sixteen values the score can take, as binary64 numbers. *)
Lemma confidence_by_flags_table :
  (c ← [false; true]; h ← [false; true]; e ← [false; true]; s ← [false; true];
   [confidence_by_flags c h e s])
  = [ 0.5; 0.65; 0.65; 0.8;
      0.7; 0.85; 0.85; 1;
      0.7; 0.85; 0.85; 1;
      0x1.cccccccccccccp-1; 1; 1; 1 ]%float.
Proof. vm_compute. reflexivity. Qed.

(** C3. The confidence is the 0.5 base plus 0.20 for a non-empty component
    set, 0.20 for hooks, 0.15 for events and 0.15 for styling, clamped to at
    most 1.0 (sums are binary64 sums, taken in that order). When all four
    sets are non-empty it is exactly 1.0, and it always lies between 0.0 and
    1.0. *)
Theorem calculate_confidence_formula (components hooks events styling : list string) :
  let confidence :=
    calculate_confidence (make_analysis_data components hooks events styling) in
  confidence = confidence_formula (nonempty components) (nonempty hooks)
                                  (nonempty events) (nonempty styling)
  ∧ (components ≠ [] → hooks ≠ [] → events ≠ [] → styling ≠ [] →
     confidence = 1%float)
  ∧ PrimFloat.leb 0 confidence = true
  ∧ PrimFloat.leb confidence 1 = true.
Proof.
  cbv zeta. rewrite calculate_confidence_flags. split; [|split].
  - by destruct (nonempty components), (nonempty hooks),
                (nonempty events), (nonempty styling).
  - intros Hc Hh He Hs.
    apply nonempty_true in Hc as ->. apply nonempty_true in Hh as ->.
    apply nonempty_true in He as ->. apply nonempty_true in Hs as ->.
    reflexivity.
  - by destruct (nonempty components), (nonempty hooks),
                (nonempty events), (nonempty styling).
Qed.

Lemma calculate_confidence_formula_witness :
  calculate_confidence
    (make_analysis_data ["Header"] ["useState"] ["onClick"] ["btn-primary"])
  = 1%float.
Proof.
  apply (calculate_confidence_formula ["Header"] ["useState"] ["onClick"] ["btn-primary"]);
    discriminate.
Defined.

(** C9. The confidence is monotone: when the non-empty categories of one
    quadruple of extraction sets are among those of another, the confidence
    of the first is at most that of the second. *)
Theorem calculate_confidence_monotone
    (q1 q2 : list string * list string * list string * list string) :
  categories_included q1 q2 →
  PrimFloat.leb (confidence_of q1) (confidence_of q2) = true.
Proof.
  destruct q1 as [[[c1 h1] e1] s1], q2 as [[[c2 h2] e2] s2].
  unfold categories_included, confidence_of.
  rewrite <- !nonempty_true, !calculate_confidence_flags.
  intros (Hc & Hh & He & Hs).
  destruct (nonempty c1), (nonempty c2); try (by specialize (Hc eq_refl));
  destruct (nonempty h1), (nonempty h2); try (by specialize (Hh eq_refl));
  destruct (nonempty e1), (nonempty e2); try (by specialize (He eq_refl));
  destruct (nonempty s1), (nonempty s2); try (by specialize (Hs eq_refl));
  reflexivity.
Qed.

Lemma calculate_confidence_monotone_witness :
  PrimFloat.leb (confidence_of (["Header"], [], [], ["btn"]))
                (confidence_of (["Header"; "Footer"], ["useState"], [], ["a"; "b"]))
  = true.
Proof.
  apply (calculate_confidence_monotone
           (["Header"], [], [], ["btn"])
           (["Header"; "Footer"], ["useState"], [], ["a"; "b"])).
  unfold categories_included. repeat split; intros; congruence.
Defined.

(** The order is by inclusion of the non-empty categories, not by their
    number: components alone score more than events alone. *)
Example confidence_not_by_count :
  confidence_of (["Header"], [], [], []) = 0.7%float
  ∧ confidence_of ([], [], ["onClick"], []) = 0.65%float.
Proof. split; reflexivity. Qed.

(** ** Pattern extractors *)

Lemma py_list_set_NoDup l : NoDup (py_list_set l).
Proof. unfold py_list_set. apply NoDup_elements. Qed.

Lemma elem_of_py_list_set x l : x ∈ py_list_set l ↔ x ∈ l.
Proof. unfold py_list_set. by rewrite elem_of_elements, elem_of_list_to_set. Qed.


Lemma js_family_false language :
  language ∉ ["javascript"; "typescript"] → js_family language = false.
Proof. intros. unfold js_family. by apply bool_decide_eq_false. Qed.

Lemma not_python language :
  language ∉ ["javascript"; "typescript"; "python"] →
  js_family language = false ∧ String.eqb language "python" = false.
Proof.
  intros Hnot. split.
  - apply js_family_false. intros Hin. apply Hnot.
    rewrite !elem_of_cons in Hin. rewrite !elem_of_cons. tauto.
  - apply String.eqb_neq. intros ->. apply Hnot. repeat constructor.
Qed.

(** C6. Every extractor is a total function of the text and the language tag
    (its regular-expression scan has no failing case): for all inputs it
    returns a duplicate-free list of strings, and for a language outside the
    modes it recognises it returns the empty list. *)
Theorem extractors_total (code language : string) :
  (NoDup (extract_components code language) ∧ NoDup (extract_hooks code language) ∧
   NoDup (extract_event_handlers code language) ∧ NoDup (extract_styling code language))
  ∧ (language ∉ ["javascript"; "typescript"; "python"] →
     extract_components code language = [] ∧ extract_styling code language = [])
  ∧ (language ∉ ["javascript"; "typescript"] →
     extract_hooks code language = [] ∧ extract_event_handlers code language = []).
Proof.
  split; [|split].
  - unfold extract_components, extract_hooks, extract_event_handlers, extract_styling.
    destruct (js_family language), (String.eqb language "python");
      repeat split; first [apply py_list_set_NoDup | apply NoDup_nil_2].
  - intros [Hjs Hpy]%not_python.
    unfold extract_components, extract_styling. by rewrite Hjs, Hpy.
  - intros Hjs%js_family_false.
    unfold extract_hooks, extract_event_handlers. by rewrite Hjs.
Qed.

Lemma extractors_total_witness :
  extract_components "public class Main { }" "java" = [] ∧
  extract_styling "public class Main { }" "java" = [].
Proof.
  refine (proj1 (proj2 (extractors_total "public class Main { }" "java")) _).
  rewrite !elem_of_cons, elem_of_nil. intros [?|[?|[?|[]]]]; discriminate.
Defined.


(** *** The scan is sound for the declarative reading *)

Lemma take_skip cls n s :
  (n ≤ Re.run cls s)%nat →
  s = take_str n s +:+ Re.skip n s
  ∧ all_in cls (take_str n s) = true
  ∧ String.length (take_str n s) = n.
Proof.
  revert s. induction n as [|n IH]; intros s Hn.
  - by destruct s.
  - destruct s as [|c s]; simpl in Hn; [lia|].
    destruct (cls c) eqn:Hc; [|lia].
    destruct (IH s) as (Hs & Hall & Hlen); [lia|]. split; [|split].
    + change (String c s = String c (take_str n s +:+ Re.skip n s)). by rewrite <- Hs.
    + simpl. by rewrite Hc, Hall.
    + simpl. by rewrite Hlen.
Qed.

Lemma longest_first_Some {R} (k : nat → option R) lo n r :
  Re.longest_first k lo n = Some r → ∃ i, (lo ≤ i ≤ n ∨ i = n)%nat ∧ (i ≤ n)%nat ∧ k i = Some r.
Proof.
  induction n as [|n IH]; simpl.
  - destruct (k 0%nat) eqn:Hk; [|done]. intros [= ->]. exists 0%nat. auto.
  - destruct (k (S n)) eqn:Hk.
    + intros [= ->]. exists (S n). auto.
    + destruct (decide (lo ≤ n)%nat); [|done].
      intros (i & Hi & Hle & Hki)%IH. exists i. split; [left; lia|]. split; [lia|done].
Qed.

Lemma app_length_str s t : String.length (s +:+ t) = (String.length s + String.length t)%nat.
Proof.
  induction s as [|c s IH]; [done|].
  change (S (String.length (s +:+ t)) = S (String.length s + String.length t)).
  by rewrite IH.
Qed.

Lemma app_assoc_str s t u : (s +:+ t) +:+ u = s +:+ t +:+ u.
Proof.
  induction s as [|c s IH]; [done|].
  change (String c ((s +:+ t) +:+ u) = String c (s +:+ t +:+ u)). by rewrite IH.
Qed.

Lemma match_atoms_sound {R} p : ∀ s pos (k : string → nat → option R) r,
  Re.match_atoms p s pos k = Some r →
  ∃ t s', s = t +:+ s' ∧ matches p t ∧ k s' (pos + String.length t)%nat = Some r.
Proof.
  induction p as [|[cls|cls|cls] p IH]; intros s pos k r; cbn [Re.match_atoms].
  - intros Hk. exists "", s. rewrite Nat.add_0_r. split; [done|]. split; [constructor|done].
  - destruct s as [|c s]; [done|]. destruct (cls c) eqn:Hc; [|done].
    intros (t & s' & -> & Hm & Hk)%IH. exists (String c t), s'.
    split; [done|]. split; [by constructor|]. simpl.
    by rewrite <- Nat.add_succ_comm.
  - intros (i & _ & Hi & (t & s' & Hs & Hm & Hk)%IH)%longest_first_Some.
    destruct (take_skip cls i s Hi) as (Hsplit & Hall & Hlen).
    exists (take_str i s +:+ t), s'. split; [|split].
    + rewrite Hsplit at 1. by rewrite Hs, app_assoc_str.
    + by constructor.
    + rewrite app_length_str, Hlen. by rewrite Nat.add_assoc.
  - destruct (Re.run cls s) as [|n] eqn:Hrun; [done|].
    intros (i & Hlo & Hi & (t & s' & Hs & Hm & Hk)%IH)%longest_first_Some.
    rewrite <- Hrun in Hi.
    destruct (take_skip cls i s Hi) as (Hsplit & Hall & Hlen).
    exists (take_str i s +:+ t), s'. split; [|split].
    + rewrite Hsplit at 1. by rewrite Hs, app_assoc_str.
    + constructor; [done| |done]. intros Hempty. rewrite Hempty in Hlen. simpl in Hlen. lia.
    + rewrite app_length_str, Hlen. by rewrite Nat.add_assoc.
Qed.

Lemma substring_prefix t s : substring 0 (String.length t) (t +:+ s) = t.
Proof.
  induction t as [|c t IH].
  - by destruct s.
  - change (String c (substring 0 (String.length t) (t +:+ s)) = String c t).
    by rewrite IH.
Qed.

Lemma substring_middle t1 t2 s :
  substring (String.length t1) (String.length t2) (t1 +:+ t2 +:+ s) = t2.
Proof.
  induction t1 as [|c t1 IH]; [exact (substring_prefix t2 s)|].
  change (substring (String.length t1) (String.length t2) (t1 +:+ t2 +:+ s) = t2).
  exact IH.
Qed.

(** What a successful attempt returns: the text the whole pattern matched
    and, inside it, the text its group matched. *)
Lemma match_here_sound p s m :
  Re.match_here p s = Some m →
  ∃ t1 t2 t3 s',
    s = t1 +:+ t2 +:+ t3 +:+ s'
    ∧ matches (Re.before p) t1 ∧ matches (Re.group p) t2 ∧ matches (Re.after p) t3
    ∧ Re.group0 m = t1 +:+ t2 +:+ t3 ∧ Re.group1 m = t2.
Proof.
  unfold Re.match_here.
  intros (t1 & s1 & -> & H1 & (t2 & s2 & -> & H2 & (t3 & s3 & -> & H3 & Hm)%match_atoms_sound)
            %match_atoms_sound)%match_atoms_sound.
  injection Hm as <-. exists t1, t2, t3, s3. repeat split; try done; simpl.
  - rewrite <- !app_length_str, <- !app_assoc_str. apply substring_prefix.
  - replace (String.length t1 + String.length t2 - String.length t1)%nat
      with (String.length t2) by lia.
    apply substring_middle.
Qed.

(** Every match of the scan is a successful attempt at some position. *)
Lemma finditer_from_attempt p m : ∀ s pending,
  m ∈ Re.finditer_from p s pending →
  ∃ pre suf, s = pre +:+ suf ∧ Re.match_here p suf = Some m.
Proof.
  induction s as [|c s IH]; intros pending; simpl.
  - destruct pending; [|by intros ?%elem_of_nil].
    destruct (Re.match_here p "") eqn:Hm; [|by intros ?%elem_of_nil].
    intros ->%list_elem_of_singleton. by exists "", "".
  - assert (∀ n, m ∈ Re.finditer_from p s n →
              ∃ pre suf, String c s = pre +:+ suf ∧ Re.match_here p suf = Some m) as Hrest.
    { intros n (pre & suf & -> & Hm)%IH. by exists (String c pre), suf. }
    destruct pending; [|by apply Hrest].
    destruct (Re.match_here p (String c s)) eqn:Hm; [|by apply Hrest].
    intros [->|Hin]%elem_of_cons; [|by eapply Hrest].
    by exists "", (String c s).
Qed.

Lemma finditer_attempt p s m :
  m ∈ Re.finditer p s → ∃ pre suf, s = pre +:+ suf ∧ Re.match_here p suf = Some m.
Proof. apply finditer_from_attempt. Qed.

Lemma chr_eq a c : Re.chr a c = true → c = a.
Proof. unfold Re.chr. by intros ->%Ascii.eqb_eq. Qed.

Lemma matches_event t :
  matches (Re.before re_event) t →
  ∃ c w sp, t = handler_text c w sp +:+ "="
            ∧ Re.upper c = true ∧ all_in Re.word w = true ∧ all_in Re.space sp = true.
Proof.
  intros Hm. cbn in Hm.
  inversion Hm as [|? o ? ? Ho Hm1| |]; subst. apply chr_eq in Ho as ->.
  inversion Hm1 as [|? n ? ? Hn Hm2| |]; subst. apply chr_eq in Hn as ->.
  inversion Hm2 as [|? c ? ? Hc Hm3| |]; subst.
  inversion Hm3 as [| |? ? w ? Hw Hm4|]; subst.
  inversion Hm4 as [| |? ? sp ? Hsp Hm5|]; subst.
  inversion Hm5 as [|? e ? ? He Hm6| |]; subst. apply chr_eq in He as ->.
  inversion Hm6; subst.
  exists c, w, sp. split; [|done].
  unfold handler_text.
  change (String "o" (String "n" (String c (w +:+ sp +:+ "=")))
          = String "o" (String "n" (String c ((w +:+ sp) +:+ "=")))).
  by rewrite app_assoc_str.
Qed.

Lemma matches_nil_inv t : matches [] t → t = "".
Proof. by inversion 1. Qed.

Lemma app_empty_r_str s : s +:+ "" = s.
Proof.
  induction s as [|c s IH]; [done|].
  change (String c (s +:+ "") = String c s). by rewrite IH.
Qed.

Lemma str_replace1_outside cls u v :
  (∀ c, cls c = true → Ascii.eqb c "=" = false) →
  all_in cls u = true →
  str_replace1 "=" "" (u +:+ v) = u +:+ str_replace1 "=" "" v.
Proof.
  intros Hcls. induction u as [|c u IH]; [done|]. simpl.
  intros [Hc Hu]%andb_true_iff.
  change (str_replace1 "=" "" (String c (u +:+ v)) = String c (u +:+ str_replace1 "=" "" v)).
  simpl. rewrite (Hcls c Hc), IH by done. done.
Qed.

Lemma not_equals_sign (cls : ascii → bool) :
  cls "="%char = false → ∀ c, cls c = true → Ascii.eqb c "=" = false.
Proof.
  intros Hcls c Hc. destruct (Ascii.eqb_spec c "=") as [->|]; [|done]. congruence.
Qed.

Lemma str_replace1_handler c w sp :
  Re.upper c = true → all_in Re.word w = true → all_in Re.space sp = true →
  str_replace1 "=" "" (handler_text c w sp +:+ "=") = handler_text c w sp.
Proof.
  intros Hc Hw Hsp. unfold handler_text.
  change (str_replace1 "=" "" (String "o" (String "n" (String c ((w +:+ sp) +:+ "="))))
          = String "o" (String "n" (String c (w +:+ sp)))).
  cbn [str_replace1]. cbn [Ascii.eqb Bool.eqb].
  rewrite (not_equals_sign Re.upper eq_refl c Hc).
  change (String "o" (String "n" (String c (str_replace1 "=" "" ((w +:+ sp) +:+ "="))))
          = String "o" (String "n" (String c (w +:+ sp)))).
  rewrite app_assoc_str.
  rewrite (str_replace1_outside Re.word w _ (not_equals_sign Re.word eq_refl) Hw).
  rewrite (str_replace1_outside Re.space sp _ (not_equals_sign Re.space eq_refl) Hsp).
  by rewrite app_empty_r_str.
Qed.

(** X25. What the extractor returns, in general: every element is a handler
    as the pattern reads it, the name followed by the white space that stood
    before the [=], and that text followed by [=] occurs in the code. *)
Lemma extract_event_handlers_elements code language r :
  r ∈ extract_event_handlers code language →
  ∃ c w sp,
    r = handler_text c w sp
    ∧ Re.upper c = true ∧ all_in Re.word w = true ∧ all_in Re.space sp = true
    ∧ str_in (r +:+ "=") code = true.
Proof.
  unfold extract_event_handlers. destruct (js_family language); [|by intros ?%elem_of_nil].
  rewrite elem_of_py_list_set, list_elem_of_fmap.
  intros (m & -> & (pre & suf & -> & Hm)%finditer_attempt).
  apply match_here_sound in Hm
    as (t1 & t2 & t3 & s' & -> & (c & w & sp & -> & Hc & Hw & Hsp)%matches_event
          & ->%matches_nil_inv & ->%matches_nil_inv & -> & _).
  exists c, w, sp.
  change (handler_text c w sp +:+ "=" +:+ "" +:+ "") with ((handler_text c w sp +:+ "=") +:+ "").
  rewrite !app_empty_r_str, str_replace1_handler by done.
  repeat split; try done.
  change (((handler_text c w sp +:+ "=") +:+ "" +:+ "" +:+ s'))
    with ((handler_text c w sp +:+ "=") +:+ s').
  apply str_in_app.
Qed.

(** The scan on sample texts: greedy repetition with backtracking, matches
    that do not overlap, no anchoring at word boundaries. *)
Example finditer_const_arrow :
  Re.finditer re_const_arrow "const A = x => y => z; const B = 1"
  = [Re.Match "const A = x => y =>" "A"].
Proof. vm_compute. reflexivity. Qed.

Example finditer_className :
  Re.group1 <$> Re.finditer re_className
    ("className='a b' className=" +:+ String dquote ("c-d' e" +:+ String dquote ""))
  = ["a b"; "c-d"].
Proof. vm_compute. reflexivity. Qed.

Example finditer_style :
  Re.group1 <$> Re.finditer re_style "style={{color: red}} style={}" = ["{color: red"].
Proof. vm_compute. reflexivity. Qed.

Example finditer_event :
  Re.group0 <$> Re.finditer re_event
    "onClick={a} onChange = {b} buttonClick=1 onAonB= on= onX =="
  = ["onClick="; "onChange ="; "onClick="; "onAonB="; "onX ="].
Proof. vm_compute. reflexivity. Qed.

(** The specification's worked example, run through the extractors, the
    classifier and the confidence score. *)
Example header_example :
  let request := sample_request header_code "u1" in
  extract_components header_code "javascript" = ["Header"]
  ∧ extract_hooks header_code "javascript" = []
  ∧ extract_event_handlers header_code "javascript" = ["onClick"]
  ∧ extract_styling header_code "javascript" = ["btn-primary"]
  ∧ (CodeAnalysisResponse.change_type <$>
       match (analyze_code first_reading request initial_state).2 with
       | Respond response => Some response
       | HTTPException _ _ => None
       end) = Some "event_handling"
  ∧ (CodeAnalysisResponse.confidence <$>
       match (analyze_code first_reading request initial_state).2 with
       | Respond response => Some response
       | HTTPException _ _ => None
       end) = Some 1%float.
Proof. vm_compute. repeat split. Qed.

(** C7 (the code departs from it). The pattern lets white space stand
    between the handler name and the [=], and only the [=] is removed from
    the match (see the lemma above): the element returned for
    [onClick ={go}] is the name followed by a blank, not the name, and the
    same handler written both ways gives two elements. *)
Theorem extract_event_handlers_keeps_blank :
  extract_event_handlers "<button onClick ={go}>" "javascript" = ["onClick "]
  ∧ ("onClick" ∉ extract_event_handlers "<button onClick ={go}>" "javascript")
  ∧ (extract_event_handlers "<a onClick={f}/><b onClick ={g}/>" "javascript"
       ≡ₚ ["onClick"; "onClick "]).
Proof.
  split; [|split].
  - vm_compute. reflexivity.
  - assert (extract_event_handlers "<button onClick ={go}>" "javascript" = ["onClick "])
      as -> by (vm_compute; reflexivity).
    rewrite list_elem_of_singleton. discriminate.
  - assert (extract_event_handlers "<a onClick={f}/><b onClick ={g}/>" "javascript"
            = ["onClick "; "onClick"]) as -> by (vm_compute; reflexivity).
    apply Permutation_swap.
Qed.

(** ** User history *)

Lemma ltb_false_le (s1 s2 : string) : String.ltb s1 s2 = false → String.le s2 s1.
Proof.
  unfold String.le, String.ltb, String.leb. rewrite (String.compare_antisym s1 s2).
  destruct (s2 ?= s1)%string; simpl; intros; done.
Qed.

Lemma ltb_true_le (s1 s2 : string) : String.ltb s1 s2 = true → String.le s1 s2.
Proof.
  unfold String.le, String.ltb, String.leb.
  destruct (s1 ?= s2)%string; simpl; intros; done.
Qed.

Lemma le_ne_ltb (s1 s2 : string) : String.le s1 s2 → s1 ≠ s2 → String.ltb s1 s2 = true.
Proof.
  unfold String.le, String.ltb, String.leb.
  destruct (s1 ?= s2)%string eqn:Hcmp; simpl; intros; try done.
  by apply String.compare_eq_iff in Hcmp.
Qed.

Global Instance newer_or_equal_trans : Transitive newer_or_equal.
Proof. intros a b c Hab Hbc. unfold newer_or_equal in *. by etrans. Qed.

Lemma insert_by_timestamp_perm x l : insert_by_timestamp x l ≡ₚ x :: l.
Proof.
  induction l as [|y l IH]; simpl; [done|].
  destruct (String.ltb _ _); [|done].
  rewrite IH. apply Permutation_swap.
Qed.

Lemma insert_by_timestamp_sorted x l :
  Sorted newer_or_equal l → Sorted newer_or_equal (insert_by_timestamp x l).
Proof.
  induction l as [|y l IH]; simpl; intros Hsorted.
  - repeat constructor.
  - destruct (String.ltb _ _) eqn:Hlt.
    + apply Sorted_inv in Hsorted as [Hl Hhd]. constructor; [by apply IH|].
      destruct l as [|z l]; simpl.
      * constructor. by apply ltb_true_le.
      * destruct (String.ltb (AnalysisResult.timestamp x) (AnalysisResult.timestamp z));
          constructor; [by apply HdRel_inv in Hhd | by apply ltb_true_le].
    + constructor; [done|]. constructor. by apply ltb_false_le.
Qed.

Lemma sort_by_timestamp_reverse_perm l : sort_by_timestamp_reverse l ≡ₚ l.
Proof.
  induction l as [|x l IH]; simpl; [done|].
  by rewrite insert_by_timestamp_perm, IH.
Qed.

Lemma sort_by_timestamp_reverse_sorted l :
  StronglySorted newer_or_equal (sort_by_timestamp_reverse l).
Proof.
  apply Sorted_StronglySorted; [apply _|].
  induction l as [|x l IH]; simpl; [constructor|].
  by apply insert_by_timestamp_sorted.
Qed.

Lemma StronglySorted_take {A} (R : relation A) n l :
  StronglySorted R l → StronglySorted R (take n l).
Proof.
  revert n. induction l as [|x l IH]; intros [|n] Hsorted; simpl; try constructor.
  - apply IH. by apply StronglySorted_inv in Hsorted as [? _].
  - apply StronglySorted_inv in Hsorted as [_ Hall]. by apply Forall_take.
Qed.

Lemma py_slice_to_nonneg {A} (l : list A) n : 0 ≤ n → py_slice_to l n = take (Z.to_nat n) l.
Proof. intros. unfold py_slice_to. by rewrite (proj2 (Z.ltb_ge n 0)). Qed.

(** Distinct timestamps make the descending order strict. *)
Lemma StronglySorted_strict l :
  StronglySorted newer_or_equal l →
  NoDup (AnalysisResult.timestamp <$> l) →
  StronglySorted strictly_newer l.
Proof.
  induction 1 as [|x l Hsorted IH Hall]; simpl; intros Hnodup; constructor.
  - apply IH. by apply NoDup_cons in Hnodup as [_ ?].
  - apply NoDup_cons in Hnodup as [Hnotin _].
    apply list.Forall_forall. intros y Hy.
    apply le_ne_ltb; [exact (proj1 (list.Forall_forall _ _) Hall y Hy)|].
    intros Heq. apply Hnotin. rewrite <- Heq.
    apply list_elem_of_fmap. by exists y.
Qed.

Lemma ltb_irrefl (t : string) : String.ltb t t = false.
Proof.
  unfold String.ltb. pose proof (String.compare_antisym t t) as Hsym.
  by destruct (t ?= t)%string.
Qed.

(** The sort is stable: records made at the same timestamp keep the order
    they were stored in. *)
Lemma made_at_insert t x l :
  made_at t (insert_by_timestamp x l) = made_at t (x :: l).
Proof.
  induction l as [|y l IH]; [done|]. cbn [insert_by_timestamp].
  destruct (String.ltb (AnalysisResult.timestamp x) (AnalysisResult.timestamp y)) eqn:Hlt;
    [|done].
  unfold made_at in *. rewrite filter_cons, IH, !filter_cons.
  destruct (decide (AnalysisResult.timestamp y = t)) as [Hy|Hy];
    destruct (decide (AnalysisResult.timestamp x = t)) as [Hx|Hx]; try done.
  rewrite Hx, Hy, ltb_irrefl in Hlt. done.
Qed.

Lemma made_at_sort t l : made_at t (sort_by_timestamp_reverse l) = made_at t l.
Proof.
  induction l as [|x l IH]; [done|].
  change (sort_by_timestamp_reverse (x :: l))
    with (insert_by_timestamp x (sort_by_timestamp_reverse l)).
  rewrite made_at_insert.
  unfold made_at in *. by rewrite !filter_cons, IH.
Qed.

Lemma made_at_prefix t l1 l2 : l1 `prefix_of` l2 → made_at t l1 `prefix_of` made_at t l2.
Proof. intros [k ->]. unfold made_at. rewrite filter_app. by eexists. Qed.

(** A record older than all of a sorted list goes to its end. *)
Lemma insert_by_timestamp_oldest x l :
  Forall (λ y, strictly_newer y x) l → insert_by_timestamp x l = l ++ [x].
Proof.
  induction 1 as [|y l Hy _ IH]; [done|]. cbn [insert_by_timestamp].
  unfold strictly_newer in Hy. by rewrite Hy, IH.
Qed.

(** Records stored at growing timestamps are sorted into the reverse of the
    order they were stored in. *)
Lemma sort_by_timestamp_reverse_older_first l :
  older_first l → sort_by_timestamp_reverse l = reverse l.
Proof.
  induction 1 as [|x l _ IH Hx]; [done|].
  change (sort_by_timestamp_reverse (x :: l))
    with (insert_by_timestamp x (sort_by_timestamp_reverse l)).
  rewrite IH, reverse_cons. apply insert_by_timestamp_oldest. by apply Forall_reverse.
Qed.

(** C8 (amended). For every user and every non-negative limit, the history
    holds at most [limit] records, all of them stored records of that user,
    ordered by descending creation timestamp, most recent first: every record
    is at least as recent as all that follow it, and strictly more recent
    when the user's stored timestamps are pairwise distinct; records with the
    same timestamp come in the order they were stored in. When the
    timestamps grew from each creation to the next, this is the order of
    creation, the last created first. *)
Theorem get_user_history_bounded_sorted (user_id : string) (limit : Z) (st : State) :
  0 ≤ limit →
  let analyses := UserHistory.analyses (get_user_history user_id limit st) in
  Z.of_nat (length analyses) ≤ limit
  ∧ StronglySorted newer_or_equal analyses
  ∧ (∀ a, a ∈ analyses → a ∈ analyses_of user_id st)
  ∧ (NoDup (AnalysisResult.timestamp <$> analyses_of user_id st) →
     StronglySorted strictly_newer analyses)
  ∧ (∀ t, made_at t analyses `prefix_of` made_at t (analyses_of user_id st))
  ∧ (older_first (analyses_of user_id st) → newest_stored_first user_id limit st).
Proof.
  intros Hlimit. cbv zeta. unfold newest_stored_first, get_user_history. simpl.
  fold (analyses_of user_id st). rewrite py_slice_to_nonneg by done.
  split; [|split; [|split; [|split; [|split]]]].
  - rewrite length_take. lia.
  - apply StronglySorted_take, sort_by_timestamp_reverse_sorted.
  - intros a Ha. apply elem_of_take in Ha as (i & Ha & _).
    rewrite <- (sort_by_timestamp_reverse_perm (analyses_of user_id st)).
    by eapply list_elem_of_lookup_2.
  - intros Hnodup. apply StronglySorted_take, StronglySorted_strict.
    + apply sort_by_timestamp_reverse_sorted.
    + by rewrite sort_by_timestamp_reverse_perm.
  - intros t. rewrite <- (made_at_sort t (analyses_of user_id st)).
    apply made_at_prefix, prefix_take.
  - intros Holder. by rewrite sort_by_timestamp_reverse_older_first.
Qed.

Lemma get_user_history_bounded_sorted_witness :
  Z.of_nat (length (UserHistory.analyses (get_user_history "u1" 2 sample_history))) ≤ 2
  ∧ AnalysisResult.timestamp
    <$> UserHistory.analyses (get_user_history "u1" 2 sample_history)
    = ["2023-11-14T22:13:22.250000"; "2023-11-14T22:13:21.250000"].
Proof.
  split.
  - refine (proj1 (get_user_history_bounded_sorted "u1" 2 sample_history _)). lia.
  - reflexivity.
Defined.

(** C8 as stated fails in three ways. For a negative limit Python's slice
    [[:limit]] drops records from the end, and no list is of length at most
    [-1]. Two records made at the same timestamp, here the two passes
    through the hour that repeats when the clocks are set back, cannot be
    ordered strictly. And the timestamp is the wall-clock reading, not the
    order of creation: after the clock is set back the record created last
    carries the earlier timestamp and is listed last. *)
Lemma get_user_history_not_as_stated :
  ¬ history_as_stated "u1" (-1) sample_history
  ∧ ¬ history_as_stated "u1" 10 repeated_hour_history
  ∧ ¬ newest_stored_first "u1" 10 set_back_history.
Proof.
  split; [|split].
  - intros [Hlength _].
    assert (length (UserHistory.analyses (get_user_history "u1" (-1) sample_history))
            = 2%nat) as Htwo by (vm_compute; reflexivity).
    rewrite Htwo in Hlength. lia.
  - intros [_ Hsorted].
    assert (AnalysisResult.timestamp
            <$> UserHistory.analyses (get_user_history "u1" 10 repeated_hour_history)
            = ["2023-10-29T02:30:00.500000"; "2023-10-29T02:30:00.500000"]) as Hstamps
      by (vm_compute; reflexivity).
    destruct (UserHistory.analyses (get_user_history "u1" 10 repeated_hour_history))
      as [|a [|b l]]; try discriminate Hstamps.
    injection Hstamps as Ha Hb _.
    apply StronglySorted_inv in Hsorted as [_ Hnewer].
    apply Forall_cons in Hnewer as [Hnewer _].
    unfold strictly_newer in Hnewer. rewrite Ha, Hb in Hnewer. discriminate Hnewer.
  - unfold newest_stored_first. intros Hnewest.
    apply (f_equal (fmap AnalysisResult.timestamp)) in Hnewest.
    vm_compute in Hnewest. discriminate Hnewest.
Qed.

(** ** Analyze *)

Lemma dict_get_set {V} key (v : V) d : dict_get key (dict_set key v d) = Some v.
Proof.
  induction d as [|[k w] d IH]; simpl.
  - by rewrite decide_True.
  - destruct (decide (k = key)) as [->|Hne]; simpl.
    + by rewrite decide_True.
    + by rewrite decide_False.
Qed.

Lemma explanations_fallback :
  py_getitem explanations "general_coding"
  = Ok "This code affects how your application behaves and renders. Understanding these patterns helps build more effective software.".
Proof. vm_compute. reflexivity. Qed.

Lemma suggestions_fallback :
  py_getitem suggestions_map "general_coding"
  = Ok ["Write clean, readable code"; "Add meaningful comments";
        "Follow established coding standards"].
Proof. vm_compute. reflexivity. Qed.

(** The two table lookups with an eagerly evaluated fallback never raise. *)
Lemma generate_explanation_ok change_type analysis_data :
  ∃ text, generate_explanation change_type analysis_data = Ok text.
Proof. unfold generate_explanation. rewrite explanations_fallback. by eexists. Qed.

Lemma get_suggestions_ok change_type analysis_data :
  ∃ tips, get_suggestions change_type analysis_data = Ok tips.
Proof. unfold get_suggestions. rewrite suggestions_fallback. by eexists. Qed.




(** ** Starting a video job *)




Example default_title_state_management :
  default_title "state_management" = "Understanding: state management".
Proof. reflexivity. Qed.

(** ** Identifiers *)

(** With a finite clock reading [analyze_code] always answers, under the id
    made of the reading truncated to milliseconds. *)
Lemma analyze_code_responds env request st millis :
  py_int (time_time env * 1000)%float = Ok millis →
  ∃ record,
    analyze_code env request st
    = ({| analysis_storage :=
            dict_set ("analysis_" +:+ pretty millis) record (analysis_storage st);
          video_generation_status := video_generation_status st;
          background_tasks := background_tasks st |},
       Respond (CodeAnalysisResponse.of_result record))
    ∧ AnalysisResult.analysis_id record = "analysis_" +:+ pretty millis
    ∧ ∃ t, AnalysisResult.change_type record = change_type_name t.
Proof.
  intros Hclock. unfold analyze_code. rewrite Hclock. cbn [mbind result_bind].
  rewrite determine_change_type_classify. cbn [mbind result_bind].
  match goal with |- context [generate_explanation ?c ?d] =>
    destruct (generate_explanation_ok c d) as [text ->];
    destruct (get_suggestions_ok c d) as [tips ->] end.
  cbn [mbind result_bind mret result_ret]. eexists. split; [reflexivity|].
  split; [reflexivity|]. by eexists.
Qed.

(** Two analyses whose clock readings fall in the same millisecond get the
    same id, and the second record replaces the first in the store. *)
Lemma analyze_code_same_millisecond env1 env2 request1 request2 st millis :
  py_int (time_time env1 * 1000)%float = Ok millis →
  py_int (time_time env2 * 1000)%float = Ok millis →
  let '(st1, r1) := analyze_code env1 request1 st in
  let '(st2, r2) := analyze_code env2 request2 st1 in
  response_analysis_id r1 = response_analysis_id r2
  ∧ length (analysis_storage st2) = length (analysis_storage st1).
Proof.
  intros Hclock1 Hclock2.
  destruct (analyze_code_responds env1 request1 st millis Hclock1) as (rec1 & -> & Hid1 & _).
  match goal with |- context [analyze_code env2 request2 ?s] =>
    destruct (analyze_code_responds env2 request2 s millis Hclock2) as (rec2 & -> & Hid2 & _) end.
  split.
  - simpl. by rewrite Hid1, Hid2.
  - cbn [analysis_storage]. generalize (analysis_storage st). intros d.
    induction d as [|[k w] d IH]; simpl.
    + by rewrite decide_True.
    + destruct (decide (k = _)) as [->|Hne]; simpl.
      * by rewrite decide_True.
      * rewrite decide_False by done. simpl. by rewrite IH.
Qed.

(** C2 (the code departs from it). Two analyses, and two video requests,
    made at clock readings 1700000000.0001 and 1700000000.0004 get one and
    the same id: the id is the reading truncated to milliseconds. Each store
    then holds a single record, the second one; the first is gone. *)
Theorem ids_collide_within_a_millisecond :
  let a1 := analyze_code first_reading (sample_request "function Header() {}" "u1")
              initial_state in
  let a2 := analyze_code second_reading (sample_request "<a onClick={go}>x</a>" "u2")
              a1.1 in
  let v1 := generate_video first_reading (sample_video_request None) a2.1 in
  let v2 := generate_video second_reading (sample_video_request (Some "Second")) v1.1 in
  response_analysis_id a1.2 = Some "analysis_1700000000000"
  ∧ response_analysis_id a2.2 = Some "analysis_1700000000000"
  ∧ (AnalysisResult.user_id <$> dict_values (analysis_storage a2.1)) = [Some "u2"]
  ∧ response_video_id v1.2 = Some "video_1700000000000"
  ∧ response_video_id v2.2 = Some "video_1700000000000"
  ∧ (VideoStatus.title <$> (map_to_list (video_generation_status v2.1)).*2) = ["Second"].
Proof. vm_compute. repeat split. Qed.

(** ** The video job *)

Lemma each_step_lookup {A} (R : A → A → Prop) l i v w :
  each_step R l → l !! i = Some v → l !! S i = Some w → R v w.
Proof.
  revert i. induction l as [|x l IH]; intros i Hstep Hv Hw; [done|].
  destruct l as [|y l]; [by destruct i|].
  destruct Hstep as [HR Hrest]. destruct i as [|i].
  - simpl in Hv, Hw. by simplify_eq.
  - eapply IH; eauto.
Qed.

(** C5 (the code departs from it). Two jobs accepted within one millisecond
    share one record. Along the run [colliding_schedule] that record goes
    from completed at 100 back to 80, so its progress decreases, it is
    completed at a progress other than 100, and its terminal snapshot
    changes (the second completion also replaces [generated_at]). *)
Theorem colliding_jobs_break_invariants :
  let trace := video_trace "video_1700000000000" (exec colliding_schedule initial_state) in
  status_progress <$> trace
  = [ ("pending", 0); ("pending", 0);
      ("generating", 0); ("generating", 10); ("generating", 10); ("generating", 10);
      ("generating", 20); ("generating", 20); ("generating", 40); ("generating", 40);
      ("generating", 60); ("generating", 60);
      ("generating", 80); ("completed", 100); ("completed", 80); ("completed", 100) ]
  ∧ drop 13 (VideoStatus.generated_at <$> trace)
    = [ Some "2023-11-14T22:13:24.500000"; Some "2023-11-14T22:13:24.500000";
        Some "2023-11-14T22:13:25.500000" ]
  ∧ ¬ progress_non_decreasing trace
  ∧ ¬ Forall hundred_iff_completed trace
  ∧ ¬ terminal_is_final trace.
Proof.
  cbv zeta.
  assert (∃ trace, video_trace "video_1700000000000" (exec colliding_schedule initial_state)
                   = trace
            ∧ status_progress <$> drop 13 trace
              = [("completed", 100); ("completed", 80); ("completed", 100)]
            ∧ length trace = 16%nat) as (trace & Htrace & Htail & Hlen).
  { eexists. split; [reflexivity|]. split; vm_compute; reflexivity. }
  split; [vm_compute; reflexivity|]. split; [vm_compute; reflexivity|].
  rewrite Htrace.
  destruct (drop 13 trace) as [|v13 [|v14 [|v15 rest]]] eqn:Hdrop; try discriminate.
  injection Htail as Hs13 Hp13 Hs14 Hp14 _.
  assert (trace !! 13%nat = Some v13) as H13.
  { rewrite <- (Nat.add_0_r 13), <- lookup_drop, Hdrop. done. }
  assert (trace !! 14%nat = Some v14) as H14.
  { change 14%nat with (13 + 1)%nat. rewrite <- lookup_drop, Hdrop. done. }
  split; [|split].
  - intros Hmono. pose proof (each_step_lookup _ _ _ _ _ Hmono H13 H14) as Hle.
    simpl in Hle. lia.
  - intros Hall. rewrite list.Forall_forall in Hall.
    assert (hundred_iff_completed v14) as [_ Hbad].
    { apply Hall. by eapply list_elem_of_lookup_2. }
    specialize (Hbad Hs14). lia.
  - intros Hfinal.
    pose proof (each_step_lookup _ _ _ _ _ Hfinal H13 H14 (or_introl Hs13)) as Heq.
    subst v14. lia.
Qed.

(** *** Jobs with distinct ids

    The rest of this section shows that the collision is the only way the
    invariants break: in a run whose video ids are pairwise distinct every
    record is written by its own task alone and keeps them, however the
    requests and the tasks are interleaved and whatever faults the sleeps
    raise. *)

Lemma update_video_ok vid f (store : gmap string VideoStatus.t) v :
  store !! vid = Some v → update_video vid f store = Ok (<[vid := f v]> store).
Proof. intros Hv. unfold update_video, py_getitem. by rewrite Hv. Qed.

Ltac run_statement :=
  cbn [run_until_await];
  erewrite update_video_ok by first [eassumption | apply lookup_insert_eq].

(** One resumption of the task at stage [k]: the stage it reaches and what
    it writes to the record. *)
Lemma resume_task_at vid k fault env (store : gmap string VideoStatus.t) v :
  (k ≤ 5)%nat →
  store !! vid = Some v →
  ∃ stores,
    resume fault env (task_at vid k) store = (stores, task_at vid (next_stage k fault))
    ∧ (λ s : gmap string VideoStatus.t, s !! vid) <$> stores
      = Some <$> writes vid k fault env v.
Proof.
  intros Hk Hv.
  do 6 (try destruct k as [|k]); try lia; destruct fault as [e|];
    unfold resume, task_at;
    cbn [body on_exception generate_video_background stage_offset drop app
         next_stage writes];
    change (py_range 20 100 20) with [20; 40; 60; 80];
    cbn [mbind list_bind mapM fmap list_fmap app drop];
    repeat run_statement; cbn [run_until_await];
    (eexists; split; [reflexivity|]; cbn [fmap list_fmap];
     rewrite ?lookup_insert_eq; reflexivity).
Qed.

Lemma omap_fmap_Some {A B} (f : A → option B) (l : list A) (ws : list B) :
  f <$> l = Some <$> ws → omap f l = ws.
Proof.
  revert ws. induction l as [|x l IH]; intros [|w ws] Heq; try done.
  injection Heq as Hx Hl. csimpl. rewrite Hx. f_equal. by apply IH.
Qed.

Lemma video_trace_with_store vid st stores :
  video_trace vid (with_video_store st <$> stores)
  = omap (λ s : gmap string VideoStatus.t, s !! vid) stores.
Proof.
  unfold video_trace. induction stores as [|s stores IH]; csimpl; [done|].
  by rewrite IH.
Qed.

Lemma step_resume_task_at vid i k fault env st v :
  (k ≤ 5)%nat →
  video_generation_status st !! vid = Some v →
  background_tasks st !! i = Some (task_at vid k) →
  let states := step_event (ResumeTask i env fault) st in
  let st' := default st (last states) in
  video_trace vid states = or_unchanged v (writes vid k fault env v)
  ∧ video_generation_status st' !! vid
    = Some (default v (last (writes vid k fault env v)))
  ∧ background_tasks st' !! i = Some (task_at vid (next_stage k fault)).
Proof.
  intros Hk Hv Htask. cbv zeta. unfold step_event. rewrite Htask.
  destruct (resume_task_at vid k fault env _ v Hk Hv) as (stores & -> & Hstores).
  assert (<[i := task_at vid (next_stage k fault)]> (background_tasks st) !! i
          = Some (task_at vid (next_stage k fault))) as Htask'.
  { apply list_lookup_insert_eq. by eapply lookup_lt_Some. }
  destruct stores as [|s stores].
  - destruct (writes vid k fault env v); [|done]. simpl. by rewrite Hv.
  - rewrite video_trace_with_store, fmap_last.
    destruct (last (s :: stores)) as [s'|] eqn:Hlast;
      [|by apply last_None in Hlast].
    split; [|split].
    + rewrite (omap_fmap_Some _ _ _ Hstores).
      by destruct (writes vid k fault env v).
    + simpl. apply (f_equal last) in Hstores. rewrite !fmap_last, Hlast in Hstores.
      simpl in Hstores. destruct (last (writes vid k fault env v)); by simplify_eq/=.
    + done.
Qed.

Lemma each_step_app {A} (R : A → A → Prop) l v rest :
  last l = Some v → each_step R l → each_step R (v :: rest) → each_step R (l ++ rest).
Proof.
  induction l as [|x l IH]; intros Hlast Hl Hrest; [done|].
  destruct l as [|y l].
  - by simplify_eq/=.
  - destruct Hl as [HR Hl]. split; [done|]. by apply IH.
Qed.

Ltac settle_record_goal :=
  match goal with
  | H : hundred_iff_completed _ |- _ ↔ _ => exact H
  | H : terminal _ |- terminal _ => exact H
  | |- _ ↔ _ => split; intros; first [discriminate | lia | done]
  | |- terminal _ → _ => intros [?|?]; first [discriminate | done]
  | |- terminal _ => first [by left | by right]
  | |- Forall _ _ => constructor
  | |- _ ∧ _ => split
  | |- (_ ≤ _)%Z => simpl; lia
  | |- hundred_iff_completed _ => unfold hundred_iff_completed; simpl
  | |- _ = _ => reflexivity
  | |- True => exact I
  end.

(** The values one resumption writes keep the invariants and leave the
    record as the next stage expects it. *)
Lemma writes_chain vid k fault env v :
  (k ≤ 5)%nat →
  stage_record k v →
  job_invariants (v :: or_unchanged v (writes vid k fault env v))
  ∧ stage_record (next_stage k fault) (default v (last (writes vid k fault env v))).
Proof.
  intros Hk Hrecord.
  do 6 (try destruct k as [|k]); try lia; destruct fault as [e|];
    destruct v as [id status progress url thumb duration generated analysis title err];
    unfold stage_record, status_progress in Hrecord; simpl in Hrecord;
    try (injection Hrecord as -> ->);
    try (destruct Hrecord as [Hterminal Hhundred]);
    unfold job_invariants, progress_non_decreasing, terminal_is_final;
    cbn [writes or_unchanged next_stage stage_record last default each_step
         status_progress
         VideoStatus.set_status VideoStatus.set_progress VideoStatus.update_failed
         VideoStatus.update_completed completed_by
         VideoStatus.status VideoStatus.progress];
    repeat settle_record_goal.
Qed.

Lemma job_invariants_app l v rest :
  last l = Some v → job_invariants l → job_invariants (v :: rest) →
  job_invariants (l ++ rest).
Proof.
  intros Hlast (Hmono & Hall & Hfinal) (Hmono' & Hall' & Hfinal').
  split; [|split].
  - by eapply each_step_app.
  - apply Forall_app. split; [done|]. by apply Forall_cons in Hall' as [_ ?].
  - by eapply each_step_app.
Qed.

Lemma last_written v (ws : list VideoStatus.t) :
  last (v :: or_unchanged v ws) = Some (default v (last ws)).
Proof.
  destruct ws as [|w ws]; [done|]. cbn [or_unchanged].
  rewrite last_cons. destruct (last (w :: ws)) eqn:Hlast; [done|].
  by apply last_None in Hlast.
Qed.

Lemma resume_task_at_frame vid k fault env (store : gmap string VideoStatus.t) v :
  (k ≤ 5)%nat →
  store !! vid = Some v →
  ∀ other, other ≠ vid →
    Forall (λ s : gmap string VideoStatus.t, s !! other = store !! other)
           (resume fault env (task_at vid k) store).1.
Proof.
  intros Hk Hv other Hother.
  do 6 (try destruct k as [|k]); try lia; destruct fault as [e|];
    unfold resume, task_at;
    cbn [body on_exception generate_video_background stage_offset drop app
         next_stage writes];
    change (py_range 20 100 20) with [20; 40; 60; 80];
    cbn [mbind list_bind mapM fmap list_fmap app drop];
    repeat run_statement; cbn [run_until_await fst];
    repeat constructor; by rewrite ?lookup_insert_ne.
Qed.

Lemma stage_record_hundred k v :
  (k ≤ 5)%nat → stage_record k v → hundred_iff_completed v.
Proof.
  intros Hk Hrecord.
  destruct (writes_chain "" k None (clock 0 "") v Hk Hrecord) as [(_ & Hall & _) _].
  by apply Forall_cons in Hall as [? _].
Qed.

Lemma job_invariants_repeat v n :
  hundred_iff_completed v → job_invariants (v :: replicate n v).
Proof.
  intros Hv. induction n as [|n (Hmono & Hall & Hfinal)]; simpl.
  - split; [exact I|]. split; [|exact I]. constructor; [done|constructor].
  - split; [|split].
    + split; [lia|exact Hmono].
    + by constructor.
    + split; [done|exact Hfinal].
Qed.

Lemma last_repeat (v : VideoStatus.t) n : last (v :: replicate n v) = Some v.
Proof. induction n as [|n IH]; [done|]. simpl in *. by rewrite IH. Qed.

Lemma video_trace_unchanged vid states o :
  Forall (λ s, video_generation_status s !! vid = o) states →
  video_trace vid states = match o with Some v => replicate (length states) v | None => [] end.
Proof.
  unfold video_trace. induction 1 as [|s states Hs _ IH]; csimpl.
  - by destruct o.
  - rewrite Hs, IH. by destruct o.
Qed.

Lemma system_ok_lookup ids st vid v :
  system_ok ids st → video_generation_status st !! vid = Some v →
  hundred_iff_completed v.
Proof.
  intros (_ & Hlen & Htasks & Hnone) Hv.
  destruct (decide (vid ∈ ids)) as [Hin|Hnotin].
  - apply list_elem_of_lookup in Hin as [i Hi].
    destruct (lookup_lt_is_Some_2 (background_tasks st) i) as [task Htask].
    { rewrite <- Hlen. by eapply lookup_lt_Some. }
    destruct (Htasks i vid task Hi Htask) as (k & v' & Hk & _ & Hv' & Hrecord).
    simplify_eq. by eapply stage_record_hundred.
  - rewrite Hnone in Hv by done. done.
Qed.

(** The record of a job during states that leave it alone. *)
Lemma untouched_segment ids st vid states :
  system_ok ids st →
  Forall (λ s, video_generation_status s !! vid = video_generation_status st !! vid) states →
  job_invariants (option_list (video_generation_status st !! vid) ++ video_trace vid states)
  ∧ last (option_list (video_generation_status st !! vid) ++ video_trace vid states)
    = video_generation_status (default st (last states)) !! vid.
Proof.
  intros Hok Hsame. rewrite (video_trace_unchanged _ _ _ Hsame).
  assert (video_generation_status (default st (last states)) !! vid
          = video_generation_status st !! vid) as ->.
  { destruct (last states) as [s|] eqn:Hlast; [|done]. simpl.
    rewrite list.Forall_forall in Hsame. apply Hsame.
    apply last_Some in Hlast as [l ->]. set_solver. }
  destruct (video_generation_status st !! vid) as [v|] eqn:Hv; simpl.
  - split; [|apply last_repeat]. apply job_invariants_repeat.
    by eapply system_ok_lookup.
  - split; [|done]. split; [exact I|]. split; [constructor|exact I].
Qed.

Lemma task_ok_frame st st' id task :
  video_generation_status st' !! id = video_generation_status st !! id →
  task_ok st id task → task_ok st' id task.
Proof. intros Hsame (k & v & ? & ? & ? & ?). exists k, v. by rewrite Hsame. Qed.

Lemma system_ok_frame ids st st' :
  video_generation_status st' = video_generation_status st →
  background_tasks st' = background_tasks st →
  system_ok ids st → system_ok ids st'.
Proof.
  intros Hstore Htasks (Hnodup & Hlen & Hall & Hnone).
  split; [done|]. rewrite Htasks. split; [done|]. split.
  - intros i id task Hid Htask. eapply task_ok_frame; [|by eapply Hall].
    by rewrite Hstore.
  - by rewrite Hstore.
Qed.

Lemma analyze_code_frame env request st :
  video_generation_status (analyze_code env request st).1 = video_generation_status st
  ∧ background_tasks (analyze_code env request st).1 = background_tasks st.
Proof.
  unfold analyze_code.
  match goal with |- context [match ?a with Ok _ => _ | Raise _ => _ end] => destruct a end;
    done.
Qed.

Lemma step_resume_frame vid i k fault env st v :
  (k ≤ 5)%nat →
  video_generation_status st !! vid = Some v →
  background_tasks st !! i = Some (task_at vid k) →
  let states := step_event (ResumeTask i env fault) st in
  background_tasks (default st (last states))
  = <[i := task_at vid (next_stage k fault)]> (background_tasks st)
  ∧ ∀ other, other ≠ vid →
      Forall (λ s, video_generation_status s !! other = video_generation_status st !! other)
             states.
Proof.
  intros Hk Hv Htask. cbv zeta. unfold step_event. rewrite Htask.
  pose proof (resume_task_at_frame vid k fault env _ v Hk Hv) as Hframe.
  destruct (resume_task_at vid k fault env _ v Hk Hv) as (stores & Hresume & _).
  rewrite Hresume in Hframe |- *. cbn [fst] in Hframe.
  destruct stores as [|s stores].
  - split; [done|]. intros other _. by repeat constructor.
  - split.
    + rewrite fmap_last.
      destruct (last (s :: stores)) eqn:Hlast; [done|by apply last_None in Hlast].
    + intros other Hother. apply Forall_fmap.
      eapply Forall_impl; [exact (Hframe other Hother)|]. done.
Qed.


Lemma system_ok_step ev ids st :
  system_ok ids st →
  NoDup (ids ++ option_list (minted_video_id ev)) →
  let states := step_event ev st in
  system_ok (ids ++ option_list (minted_video_id ev)) (default st (last states))
  ∧ ∀ vid,
      job_invariants (option_list (video_generation_status st !! vid)
                      ++ video_trace vid states)
      ∧ last (option_list (video_generation_status st !! vid) ++ video_trace vid states)
        = video_generation_status (default st (last states)) !! vid.
Proof.
  intros Hok Hnodup. cbv zeta. destruct ev as [env request|env request|i env fault].
  - (* an analysis leaves the video store and the tasks alone *)
    destruct (analyze_code_frame env request st) as [Hstore Htasks].
    cbn [minted_video_id option_list step_event last default]. rewrite app_nil_r.
    split; [by apply (system_ok_frame ids st)|].
    intros vid. apply (untouched_segment ids); [done|].
    repeat constructor. by rewrite Hstore.
  - cbn [minted_video_id step_event last default] in *.
    unfold generate_video.
    destruct (py_int (time_time env * 1000)%float) as [millis|e];
      cbn [mbind result_bind mret result_ret fst option_list VideoStatus.video_id
           last from_option id] in *.
    + (* a job accepted under a fresh id *)
      set (vid' := "video_" +:+ pretty millis) in *.
      pose proof Hnodup as Hnodup'.
      apply NoDup_app in Hnodup as (_ & Hfresh & _).
      assert (vid' ∉ ids) as Hnew.
      { intros Hin. apply (Hfresh _ Hin). by left. }
      destruct Hok as (Hids & Hlen & Htasks & Hnone). split.
      * split; [done|]. cbn [background_tasks video_generation_status]. split; [|split].
        -- rewrite !length_app, Hlen. reflexivity.
        -- intros i id task Hid Htask.
           destruct (decide (i < length ids)%nat) as [Hlt|Hge].
           ++ rewrite lookup_app_l in Hid by done.
              rewrite lookup_app_l in Htask by lia.
              destruct (Htasks i id task Hid Htask) as (k & v & ? & ? & Hv & ?).
              exists k, v. repeat split; try done.
              cbn [video_generation_status]. rewrite lookup_insert_ne; [done|].
              intros ->. apply Hnew. by eapply list_elem_of_lookup_2.
           ++ rewrite lookup_app_r in Hid by lia.
              rewrite lookup_app_r in Htask by lia.
              rewrite <- Hlen in Htask.
              destruct (i - length ids)%nat; [|done]. simplify_eq/=.
              eexists 0%nat, _. split; [lia|]. split; [reflexivity|].
              split; [apply lookup_insert_eq|reflexivity].
        -- intros id Hid. apply not_elem_of_app in Hid as [Hid Hne].
           rewrite lookup_insert_ne; [by apply Hnone|].
           intros <-. apply Hne. by left.
      * intros vid. unfold video_trace. csimpl. cbn [video_generation_status].
        destruct (decide (vid = vid')) as [->|Hne].
        -- rewrite lookup_insert_eq, (Hnone vid' Hnew). simpl.
           split; [|done]. split; [exact I|]. split; [|exact I].
           constructor; [|constructor]. split; simpl; intros; [lia|discriminate].
        -- rewrite lookup_insert_ne by done.
           destruct (video_generation_status st !! vid) as [v|] eqn:Hv; simpl.
           ++ split; [|done]. apply (job_invariants_repeat v 1).
              eapply (system_ok_lookup ids st); [|done]. by repeat split.
           ++ split; [|done]. split; [exact I|]. split; [constructor|exact I].
    + (* a request refused: nothing changes *)
      rewrite app_nil_r. split; [done|].
      intros vid. apply (untouched_segment ids); [done|]. by repeat constructor.
  - cbn [minted_video_id option_list] in *. rewrite app_nil_r in *.
    destruct (background_tasks st !! i) as [task|] eqn:Htask.
    + (* a task resumed: it writes to its own record only *)
      destruct Hok as (Hids & Hlen & Htasks & Hnone).
      destruct (lookup_lt_is_Some_2 ids i) as [id Hid].
      { rewrite Hlen. by eapply lookup_lt_Some. }
      destruct (Htasks i id task Hid Htask) as (k & v & Hk & -> & Hv & Hrecord).
      destruct (step_resume_task_at id i k fault env st v Hk Hv Htask)
        as (Htrace & Hv' & _).
      destruct (step_resume_frame id i k fault env st v Hk Hv Htask)
        as (Htasks' & Hframe).
      destruct (writes_chain id k fault env v Hk Hrecord) as [Hchain Hrecord'].
      assert (∀ other, other ≠ id →
                video_generation_status
                  (default st (last (step_event (ResumeTask i env fault) st))) !! other
                = video_generation_status st !! other) as Hframe'.
      { intros other Hother.
        destruct (last (step_event (ResumeTask i env fault) st)) as [s|] eqn:Hlast; [|done].
        specialize (Hframe other Hother). rewrite list.Forall_forall in Hframe.
        apply Hframe. apply last_Some in Hlast as [l ->]. set_solver. }
      split.
      * split; [done|]. rewrite Htasks'. split; [by rewrite length_insert|]. split.
        -- intros j id' task' Hid' Htask'.
           destruct (decide (j = i)) as [->|Hne].
           ++ rewrite list_lookup_insert_eq in Htask' by (by eapply lookup_lt_Some).
              simplify_eq. eexists _, _. split; [|split; [reflexivity|split; [exact Hv'|done]]].
              destruct k as [|[|[|[|k]]]], fault; simpl; lia.
           ++ rewrite list_lookup_insert_ne in Htask' by done.
              eapply task_ok_frame; [|by eapply Htasks]. apply Hframe'.
              intros ->. apply Hne. by eapply NoDup_lookup.
        -- intros other Hother. rewrite Hframe'; [by apply Hnone|].
           intros ->. apply Hother. by eapply list_elem_of_lookup_2.
      * intros vid. destruct (decide (vid = id)) as [->|Hne].
        -- rewrite Hv, Htrace, Hv'. simpl. split; [done|]. apply last_written.
        -- apply (untouched_segment ids); [by repeat split|]. by apply Hframe.
    + (* no such task *)
      unfold step_event. rewrite Htask. split; [done|].
      intros vid. apply (untouched_segment ids st vid []); [done|]. constructor.
Qed.

Lemma run_keeps_invariants vid evs : ∀ ids st,
  system_ok ids st →
  NoDup (ids ++ minted_video_ids evs) →
  job_invariants (option_list (video_generation_status st !! vid)
                  ++ video_trace vid (exec evs st)).
Proof.
  induction evs as [|ev evs IH]; intros ids st Hok Hnodup.
  - apply (untouched_segment ids st vid []); [done|constructor].
  - cbn [exec]. unfold video_trace. rewrite omap_app.
    change (omap (λ st0 : State, video_generation_status st0 !! vid))
      with (video_trace vid).
    assert (minted_video_ids (ev :: evs)
            = option_list (minted_video_id ev) ++ minted_video_ids evs) as Hminted.
    { unfold minted_video_ids. csimpl. by destruct (minted_video_id ev). }
    rewrite Hminted, app_assoc in Hnodup.
    destruct (system_ok_step ev ids st Hok) as [Hok' Hsegment].
    { by apply NoDup_app in Hnodup as (? & _ & _). }
    destruct (Hsegment vid) as [Hinv Hlast].
    specialize (IH _ _ Hok' Hnodup). rewrite app_assoc.
    destruct (video_generation_status (default st (last (step_event ev st))) !! vid)
      as [v|] eqn:Hv.
    + by eapply job_invariants_app.
    + apply last_None in Hlast. by rewrite Hlast.
Qed.

(** X26. In every run from the initial state that mints pairwise distinct
    video ids, the record of every video keeps the three invariants from its
    creation on: progress never decreases, it is 100 exactly when the job is
    completed, and a terminal record never changes. *)
Theorem distinct_ids_keep_invariants (evs : list event) (video_id : string) :
  NoDup (minted_video_ids evs) →
  job_invariants (video_trace video_id (exec evs initial_state)).
Proof.
  intros Hnodup.
  apply (run_keeps_invariants video_id evs [] initial_state); [|done].
  split; [constructor|]. split; [done|]. split; [by intros [|?]|done].
Qed.

(** * Further properties of the code *)

(** ** Analyze, in general *)

Lemma generate_explanation_value change_type analysis_data :
  generate_explanation change_type analysis_data
  = Ok (default "This code affects how your application behaves and renders. Understanding these patterns helps build more effective software."
          (explanations !! change_type)).
Proof. unfold generate_explanation. by rewrite explanations_fallback. Qed.

Lemma get_suggestions_value change_type analysis_data :
  get_suggestions change_type analysis_data
  = Ok (default ["Write clean, readable code"; "Add meaningful comments";
                 "Follow established coding standards"]
          (suggestions_map !! change_type)).
Proof. unfold get_suggestions. by rewrite suggestions_fallback. Qed.

(** With a finite clock reading [analyze_code] stores and returns the record
    [analysis_record]. *)
Lemma analyze_code_ok env request st millis :
  py_int (time_time env * 1000)%float = Ok millis →
  ∃ explanation suggestions,
    analyze_code env request st
    = ({| analysis_storage :=
            dict_set ("analysis_" +:+ pretty millis)
              (analysis_record env request millis explanation suggestions)
              (analysis_storage st);
          video_generation_status := video_generation_status st;
          background_tasks := background_tasks st |},
       Respond (CodeAnalysisResponse.of_result
                  (analysis_record env request millis explanation suggestions))).
Proof.
  intros Hclock. unfold analyze_code. rewrite Hclock. cbn [mbind result_bind].
  rewrite determine_change_type_classify. cbn [mbind result_bind].
  rewrite generate_explanation_value, get_suggestions_value.
  cbn [mbind result_bind mret result_ret]. by eexists _, _.
Qed.

Lemma dict_get_set_ne {V} key key' (v : V) d :
  key' ≠ key → dict_get key' (dict_set key v d) = dict_get key' d.
Proof.
  intros Hne. induction d as [|[k w] d IH]; simpl.
  - by rewrite decide_False.
  - destruct (decide (k = key)) as [->|Hk]; simpl.
    + by rewrite !decide_False.
    + destruct (decide (k = key')); [done|exact IH].
Qed.

Lemma classify_name_listed components hooks events styling :
  change_type_name (classify components hooks events styling) ∈ change_type_names.
Proof.
  unfold change_type_names.
  apply list_elem_of_fmap. eexists. split; [reflexivity|].
  destruct (classify components hooks events styling); set_solver.
Qed.



Lemma analyze_code_raise env request st e :
  py_int (time_time env * 1000)%float = Raise e →
  analyze_code env request st = (st, HTTPException 500 ("Analysis failed: " +:+ exn_str e)).
Proof. intros Hclock. unfold analyze_code. by rewrite Hclock. Qed.

(** X2. An analysis touches one key of the analysis store at most: for every
    id, either it is the id of the response returned or [get_analysis]
    answers for it as before. When the analysis fails (status 500) the state
    is left as it was. The video store and the background tasks are never
    touched. *)
Theorem analyze_code_other_records
    (env : Env) (request : CodeAnalysisRequest.t) (st : State) (analysis_id : string) :
  match (analyze_code env request st).2 with
  | Respond response =>
      CodeAnalysisResponse.analysis_id response = analysis_id
      ∨ get_analysis analysis_id (analyze_code env request st).1 = get_analysis analysis_id st
  | HTTPException status_code _ =>
      status_code = 500 ∧ (analyze_code env request st).1 = st
  end
  ∧ video_generation_status (analyze_code env request st).1 = video_generation_status st
  ∧ background_tasks (analyze_code env request st).1 = background_tasks st.
Proof.
  destruct (py_int (time_time env * 1000)%float) as [millis|e] eqn:Hclock.
  - destruct (analyze_code_ok env request st millis Hclock) as (explanation & suggestions & ->).
    cbn [fst snd]. split; [|done].
    destruct (decide ("analysis_" +:+ pretty millis = analysis_id)) as [Heq|Hne]; [by left|].
    right. unfold get_analysis. cbn [analysis_storage].
    by rewrite dict_get_set_ne.
  - rewrite (analyze_code_raise env request st e Hclock). done.
Qed.

(** ** Classifier and content tables at their edges *)

(** X3. [determine_change_type] never raises, whatever dictionary it gets: a
    missing key counts as an empty set, and the result is the label the
    cascade selects for the sets that are present. *)
Theorem determine_change_type_any_dict (analysis_data : gmap string (list string)) :
  determine_change_type analysis_data
  = Ok (change_type_name
          (classify (default [] (analysis_data !! "components"))
                    (default [] (analysis_data !! "hooks"))
                    (default [] (analysis_data !! "events"))
                    (default [] (analysis_data !! "styling")))).
Proof.
  unfold determine_change_type, hooks_any, py_getitem, py_any, classify.
  destruct (analysis_data !! "hooks") as [hooks|]; cbn [get_truthy default from_option id].
  - destruct hooks as [|h hooks]; cbn [list_truthy mbind result_bind mret result_ret py_any].
    + cbn [existsb].
      destruct (analysis_data !! "events") as [[|? ?]|];
        destruct (analysis_data !! "styling") as [[|? ?]|];
        destruct (analysis_data !! "components") as [[|? ?]|]; reflexivity.
    + fold state_style.
      destruct (existsb state_style (h :: hooks)); [reflexivity|].
      fold effect_style.
      destruct (existsb effect_style (h :: hooks)); [reflexivity|].
      destruct (analysis_data !! "events") as [[|? ?]|];
        destruct (analysis_data !! "styling") as [[|? ?]|];
        destruct (analysis_data !! "components") as [[|? ?]|]; reflexivity.
  - cbn [mbind result_bind mret result_ret existsb].
    destruct (analysis_data !! "events") as [[|? ?]|];
      destruct (analysis_data !! "styling") as [[|? ?]|];
      destruct (analysis_data !! "components") as [[|? ?]|]; reflexivity.
Qed.

Lemma lookup_unlisted {V} (table : list (string * V)) key :
  key ∉ table.*1 → (list_to_map table : gmap string V) !! key = None.
Proof. apply not_elem_of_list_to_map_1. Qed.

(** X4. For a label outside the six, the three tables fall back differently:
    the affected elements become the generic tag [general-concepts], while
    the explanation and the suggestions are those of [general_coding]. None
    of the three lookups raises. *)
Theorem content_tables_fallback
    (change_type : string) (analysis_data : gmap string (list string)) :
  change_type ∉ change_type_names →
  get_affected_elements change_type = ["general-concepts"]
  ∧ generate_explanation change_type analysis_data
    = generate_explanation "general_coding" analysis_data
  ∧ get_suggestions change_type analysis_data
    = get_suggestions "general_coding" analysis_data
  ∧ get_affected_elements "general_coding" ≠ get_affected_elements change_type.
Proof.
  intros Hunlisted.
  assert (element_map !! change_type = None) as Helements
    by (apply lookup_unlisted; exact Hunlisted).
  assert (explanations !! change_type = None) as Hexplanations
    by (apply lookup_unlisted; exact Hunlisted).
  assert (suggestions_map !! change_type = None) as Hsuggestions
    by (apply lookup_unlisted; exact Hunlisted).
  unfold get_affected_elements. rewrite Helements.
  rewrite !generate_explanation_value, !get_suggestions_value.
  rewrite Hexplanations, Hsuggestions.
  split; [reflexivity|]. split; [reflexivity|]. split; [reflexivity|]. discriminate.
Qed.

Lemma content_tables_fallback_witness :
  get_affected_elements "refactoring" = ["general-concepts"]
  ∧ generate_explanation "refactoring" ∅ = generate_explanation "general_coding" ∅
  ∧ get_suggestions "refactoring" ∅ = get_suggestions "general_coding" ∅
  ∧ get_affected_elements "general_coding" ≠ get_affected_elements "refactoring".
Proof.
  apply (content_tables_fallback "refactoring" ∅).
  unfold change_type_names. simpl.
  rewrite !elem_of_cons, elem_of_nil. intros [?|[?|[?|[?|[?|[?|[]]]]]]]; discriminate.
Defined.


(** ** What a response says about the code *)

Lemma analyze_code_response env request st response :
  (analyze_code env request st).2 = Respond response →
  ∃ millis explanation suggestions,
    response = CodeAnalysisResponse.of_result
                 (analysis_record env request millis explanation suggestions).
Proof.
  destruct (py_int (time_time env * 1000)%float) as [millis|e] eqn:Hclock.
  - destruct (analyze_code_ok env request st millis Hclock) as (explanation & suggestions & ->).
    intros [= <-]. by eexists _, _, _.
  - by rewrite (analyze_code_raise env request st e Hclock).
Qed.

(** X5. In every response of [analyze_code] the flag, the four lists and the
    score agree: [significant_change] holds exactly when one of the four
    lists is non-empty, and exactly when the confidence is above the 0.5
    base. A response of type [general_coding] can still be significant: the
    type only says that no rule of the cascade applied. *)
Theorem significant_change_coherent
    (env : Env) (request : CodeAnalysisRequest.t) (st : State)
    (response : CodeAnalysisResponse.t) :
  (analyze_code env request st).2 = Respond response →
  (CodeAnalysisResponse.significant_change response = true
   ↔ CodeAnalysisResponse.components response ++ CodeAnalysisResponse.hooks response
     ++ CodeAnalysisResponse.events response ++ CodeAnalysisResponse.styling response ≠ [])
  ∧ PrimFloat.ltb 0.5 (CodeAnalysisResponse.confidence response)
    = CodeAnalysisResponse.significant_change response
  ∧ (CodeAnalysisResponse.significant_change response = false →
     CodeAnalysisResponse.change_type response = "general_coding").
Proof.
  intros (millis & explanation & suggestions & ->)%analyze_code_response.
  cbn [CodeAnalysisResponse.of_result analysis_record
       CodeAnalysisResponse.significant_change CodeAnalysisResponse.components
       CodeAnalysisResponse.hooks CodeAnalysisResponse.events
       CodeAnalysisResponse.styling CodeAnalysisResponse.confidence
       CodeAnalysisResponse.change_type AnalysisResult.significant_change
       AnalysisResult.components AnalysisResult.hooks AnalysisResult.events
       AnalysisResult.styling AnalysisResult.confidence AnalysisResult.change_type].
  rewrite calculate_confidence_flags.
  destruct (extract_components _ _) as [|c cs], (extract_hooks _ _) as [|h hs],
           (extract_event_handlers _ _) as [|e es], (extract_styling _ _) as [|s ss];
    (split; [split; intros; first [discriminate | done]|]);
    (split; [reflexivity|]); intros; first [discriminate | reflexivity].
Qed.

Lemma significant_change_coherent_witness :
  ∃ response,
    (analyze_code first_reading (sample_request "const v = useMemo(f, [])" "u1")
       initial_state).2 = Respond response
    ∧ CodeAnalysisResponse.change_type response = "general_coding"
    ∧ CodeAnalysisResponse.hooks response = ["useMemo"]
    ∧ PrimFloat.ltb 0.5 (CodeAnalysisResponse.confidence response)
      = CodeAnalysisResponse.significant_change response.
Proof.
  destruct ((analyze_code first_reading (sample_request "const v = useMemo(f, [])" "u1")
               initial_state).2) as [response|] eqn:Hresponse;
    [|vm_compute in Hresponse; discriminate].
  exists response. split; [reflexivity|].
  pose proof (significant_change_coherent _ _ _ _ Hresponse) as (_ & Hscore & _).
  vm_compute in Hresponse. injection Hresponse as <-.
  split; [reflexivity|]. split; [reflexivity|]. exact Hscore.
Defined.

(** ** What the extractors return *)

Lemma occurs_in_app pre t suf : occurs_in t (pre +:+ t +:+ suf).
Proof. apply str_in_app. Qed.

Lemma occurs_in_trans t u s : occurs_in t u → occurs_in u s → occurs_in t s.
Proof.
  unfold occurs_in. intros (p1 & s1 & ->)%str_in_split (p2 & s2 & ->)%str_in_split.
  rewrite !app_assoc_str, <- (app_assoc_str p2 p1). apply str_in_app.
Qed.

Lemma matches_lit_inv a p t :
  matches (Re.lit a ++ p) t → ∃ t', t = a +:+ t' ∧ matches p t'.
Proof.
  revert t. induction a as [|c a IH]; intros t; [by exists t|].
  cbn [Re.lit app]. inversion 1 as [|? d ? t' Hd Hm| |]; subst.
  apply chr_eq in Hd as ->. apply IH in Hm as (t'' & -> & Hm). by exists t''.
Qed.

Lemma matches_one_inv cls p t :
  matches (Re.One cls :: p) t → ∃ c t', t = String c t' ∧ cls c = true ∧ matches p t'.
Proof. inversion 1; subst. by eexists _, _. Qed.

Lemma matches_star_inv cls p t :
  matches (Re.Star cls :: p) t → ∃ u t', t = u +:+ t' ∧ all_in cls u = true ∧ matches p t'.
Proof. inversion 1; subst. by eexists _, _. Qed.

Lemma matches_plus_inv cls p t :
  matches (Re.Plus cls :: p) t →
  ∃ u t', t = u +:+ t' ∧ u ≠ "" ∧ all_in cls u = true ∧ matches p t'.
Proof. inversion 1; subst. by eexists _, _. Qed.

(** A capitalised identifier, as the group of three patterns reads it. *)
Lemma matches_capitalized t :
  matches [Re.One Re.upper; Re.Star Re.word] t → capitalized t.
Proof.
  intros (c & t' & -> & Hc & (w & t'' & -> & Hw & ->%matches_nil_inv)%matches_star_inv)
           %matches_one_inv.
  exists c, w. by rewrite app_empty_r_str.
Qed.

(** Every match of a scan, as a piece of the text scanned. *)
Lemma finditer_sound p code m :
  m ∈ Re.finditer p code →
  ∃ t1 t2 t3,
    matches (Re.before p) t1 ∧ matches (Re.group p) t2 ∧ matches (Re.after p) t3
    ∧ Re.group0 m = t1 +:+ t2 +:+ t3 ∧ Re.group1 m = t2
    ∧ occurs_in (t1 +:+ t2 +:+ t3) code.
Proof.
  intros (pre & suf & -> & Hm)%finditer_attempt.
  apply match_here_sound in Hm as (t1 & t2 & t3 & s' & -> & H1 & H2 & H3 & H0 & Hg).
  exists t1, t2, t3. repeat split; try done.
  replace (pre +:+ t1 +:+ t2 +:+ t3 +:+ s') with (pre +:+ (t1 +:+ t2 +:+ t3) +:+ s')
    by (by rewrite !app_assoc_str).
  apply occurs_in_app.
Qed.

(** A hook found by the scan: [use], what the group matched, and where. *)
Lemma extract_hooks_match code language r :
  r ∈ extract_hooks code language →
  ∃ name, r = "use" +:+ name ∧ matches (Re.group re_hook) name ∧ occurs_in r code.
Proof.
  unfold extract_hooks. destruct (js_family language); [|by intros ?%elem_of_nil].
  rewrite elem_of_py_list_set, list_elem_of_fmap.
  intros (m & -> & (t1 & t2 & t3 & H1 & H2 & ->%matches_nil_inv & -> & _ & Hin)
            %finditer_sound).
  cbn [Re.before re_hook] in H1.
  rewrite <- (app_nil_r (Re.lit "use")) in H1.
  apply matches_lit_inv in H1 as (t' & -> & ->%matches_nil_inv).
  rewrite !app_empty_r_str in Hin |- *. by exists t2.
Qed.

(** X6. Every element [extract_hooks] returns is [use] followed by a capital
    letter and word characters, and occurs in the code as it stands. The
    pattern asks for no word boundary: a name is also found inside a longer
    identifier. *)
Theorem extract_hooks_elements (code language r : string) :
  r ∈ extract_hooks code language →
  (∃ name, r = "use" +:+ name ∧ capitalized name) ∧ occurs_in r code.
Proof.
  intros (name & -> & Hname & Hin)%extract_hooks_match.
  split; [|exact Hin]. exists name. split; [done|].
  cbn [Re.group re_hook] in Hname. by apply matches_capitalized.
Qed.

Lemma extract_hooks_elements_witness :
  (∃ name, "useState" = "use" +:+ name ∧ capitalized name)
  ∧ occurs_in "useState" "const s = reuseState(0)".
Proof.
  apply (extract_hooks_elements "const s = reuseState(0)" "typescript" "useState").
  vm_compute. constructor.
Defined.

Lemma elem_of_collect_group1_one p code r :
  r ∈ collect_group1 [p] code → ∃ m, r = Re.group1 m ∧ m ∈ Re.finditer p code.
Proof. unfold collect_group1. cbn [foldl app]. by rewrite list_elem_of_fmap. Qed.

Lemma elem_of_collect_group1_two p1 p2 code r :
  r ∈ collect_group1 [p1; p2] code →
  (∃ m, r = Re.group1 m ∧ m ∈ Re.finditer p1 code)
  ∨ (∃ m, r = Re.group1 m ∧ m ∈ Re.finditer p2 code).
Proof.
  unfold collect_group1. cbn [foldl app]. by rewrite elem_of_app, !list_elem_of_fmap.
Qed.

(** A keyword, white space and a capitalised identifier: what the patterns
    of the components read from their start to the end of the group. *)
Lemma keyword_then_name keyword p code m :
  Re.before p = Re.lit keyword ++ [Re.Plus Re.space] →
  Re.group p = [Re.One Re.upper; Re.Star Re.word] →
  m ∈ Re.finditer p code →
  capitalized (Re.group1 m)
  ∧ ∃ sp, blanks sp ∧ occurs_in (keyword +:+ sp +:+ Re.group1 m) code.
Proof.
  intros Hbefore Hgroup (t1 & t2 & t3 & H1 & H2 & _ & _ & -> & Hin)%finditer_sound.
  rewrite Hbefore in H1. rewrite Hgroup in H2.
  apply matches_lit_inv in H1
    as (t' & -> & (sp & t'' & -> & Hne & Hsp & ->%matches_nil_inv)%matches_plus_inv).
  split; [by apply matches_capitalized|].
  exists sp. split; [done|].
  rewrite app_empty_r_str in Hin.
  apply (occurs_in_trans _ ((keyword +:+ sp) +:+ t2 +:+ t3)); [|done].
  replace ((keyword +:+ sp) +:+ t2 +:+ t3) with ("" +:+ (keyword +:+ sp +:+ t2) +:+ t3)
    by (by rewrite !app_assoc_str).
  apply occurs_in_app.
Qed.

(** X7. Every element [extract_components] returns is a capitalised
    identifier that stands in the code after a keyword and white space:
    [function] or [const] for JavaScript and TypeScript, [class] for
    Python. *)
Theorem extract_components_elements (code language r : string) :
  r ∈ extract_components code language →
  capitalized r
  ∧ ∃ keyword sp,
      blanks sp ∧ occurs_in (keyword +:+ sp +:+ r) code
      ∧ keyword ∈ (if js_family language then ["function"; "const"] else ["class"]).
Proof.
  unfold extract_components. destruct (js_family language).
  - rewrite elem_of_py_list_set.
    intros [(m & -> & Hm)|(m & -> & Hm)]%elem_of_collect_group1_two.
    + destruct (keyword_then_name "function" re_function code m eq_refl eq_refl Hm)
        as (Hname & sp & Hsp & Hin).
      split; [done|]. exists "function", sp. split; [done|]. split; [done|]. repeat constructor.
    + destruct (keyword_then_name "const" re_const_arrow code m eq_refl eq_refl Hm)
        as (Hname & sp & Hsp & Hin).
      split; [done|]. exists "const", sp. split; [done|]. split; [done|]. repeat constructor.
  - destruct (String.eqb language "python"); [|by intros ?%elem_of_nil].
    rewrite elem_of_py_list_set. intros (m & -> & Hm)%elem_of_collect_group1_one.
    destruct (keyword_then_name "class" re_class code m eq_refl eq_refl Hm)
      as (Hname & sp & Hsp & Hin).
    split; [done|]. exists "class", sp. split; [done|]. split; [done|]. repeat constructor.
Qed.

Lemma extract_components_elements_witness :
  capitalized "Panel"
  ∧ ∃ keyword sp,
      blanks sp ∧ occurs_in (keyword +:+ sp +:+ "Panel") "class  Panel(Base): pass"
      ∧ keyword ∈ ["class"].
Proof.
  apply (extract_components_elements "class  Panel(Base): pass" "python" "Panel").
  vm_compute. constructor.
Defined.

(** A quoted run of word characters, white space and dashes after a
    keyword: what the two class-name patterns read. *)
Lemma keyword_then_quoted keyword p code m :
  Re.before p = Re.lit keyword ++ [Re.One Re.quote] →
  Re.group p = [Re.Plus Re.word_space_dash] →
  Re.after p = [Re.One Re.quote] →
  m ∈ Re.finditer p code →
  Re.group1 m ≠ "" ∧ all_in Re.word_space_dash (Re.group1 m) = true
  ∧ ∃ q1 q2, Re.quote q1 = true ∧ Re.quote q2 = true
             ∧ occurs_in (keyword +:+ String q1 (Re.group1 m +:+ String q2 "")) code.
Proof.
  intros Hbefore Hgroup Hafter (t1 & t2 & t3 & H1 & H2 & H3 & _ & -> & Hin)%finditer_sound.
  rewrite Hbefore in H1. rewrite Hgroup in H2. rewrite Hafter in H3.
  apply matches_lit_inv in H1
    as (t' & -> & (q1 & t'' & -> & Hq1 & ->%matches_nil_inv)%matches_one_inv).
  apply matches_plus_inv in H2 as (u & t' & -> & Hne & Hu & ->%matches_nil_inv).
  apply matches_one_inv in H3 as (q2 & t' & -> & Hq2 & ->%matches_nil_inv).
  rewrite app_empty_r_str in Hin |- *.
  split; [done|]. split; [done|]. exists q1, q2. split; [done|]. split; [done|].
  by rewrite app_assoc_str in Hin.
Qed.

(** X8. Every element [extract_styling] returns is non-empty and is either
    the text between two quote characters after [className=]
    ([class_name=] for Python), made of word characters, white space and
    dashes, or, for JavaScript and TypeScript, the text between [style={]
    and the next closing brace. The two quote characters need not be the
    same. *)
Theorem extract_styling_elements (code language r : string) :
  r ∈ extract_styling code language →
  r ≠ ""
  ∧ ((all_in Re.word_space_dash r = true
      ∧ ∃ q1 q2, Re.quote q1 = true ∧ Re.quote q2 = true
          ∧ occurs_in ((if js_family language then "className=" else "class_name=")
                       +:+ String q1 (r +:+ String q2 "")) code)
     ∨ (js_family language = true ∧ all_in Re.not_rbrace r = true
        ∧ occurs_in ("style={" +:+ r +:+ "}") code)).
Proof.
  unfold extract_styling. destruct (js_family language).
  - rewrite elem_of_py_list_set.
    intros [(m & -> & Hm)|(m & -> & Hm)]%elem_of_collect_group1_two.
    + destruct (keyword_then_quoted "className=" re_className code m
                  eq_refl eq_refl eq_refl Hm) as (Hne & Hall & Hq).
      split; [done|]. by left.
    + apply finditer_sound in Hm as (t1 & t2 & t3 & H1 & H2 & H3 & _ & -> & Hin).
      cbn [Re.before Re.group Re.after re_style] in H1, H2, H3.
      rewrite <- (app_nil_r (Re.lit "style={")) in H1.
      apply matches_lit_inv in H1 as (t' & -> & ->%matches_nil_inv).
      apply matches_plus_inv in H2 as (u & t' & -> & Hne & Hu & ->%matches_nil_inv).
      rewrite <- (app_nil_r (Re.lit "}")) in H3.
      apply matches_lit_inv in H3 as (t' & -> & ->%matches_nil_inv).
      rewrite app_empty_r_str. rewrite (app_empty_r_str u) in Hin.
      change ("}" +:+ "") with "}" in Hin.
      split; [done|]. right. done.
  - destruct (String.eqb language "python"); [|by intros ?%elem_of_nil].
    rewrite elem_of_py_list_set. intros (m & -> & Hm)%elem_of_collect_group1_one.
    destruct (keyword_then_quoted "class_name=" re_class_name code m
                eq_refl eq_refl eq_refl Hm) as (Hne & Hall & Hq).
    split; [done|]. by left.
Qed.

Lemma extract_styling_elements_witness :
  "btn primary" ≠ ""
  ∧ ((all_in Re.word_space_dash "btn primary" = true
      ∧ ∃ q1 q2, Re.quote q1 = true ∧ Re.quote q2 = true
          ∧ occurs_in ("className=" +:+ String q1 ("btn primary" +:+ String q2 ""))
              "<a className='btn primary' style={{top: 0}}>")
     ∨ (true = true ∧ all_in Re.not_rbrace "btn primary" = true
        ∧ occurs_in ("style={" +:+ "btn primary" +:+ "}")
            "<a className='btn primary' style={{top: 0}}>")).
Proof.
  apply (extract_styling_elements "<a className='btn primary' style={{top: 0}}>"
           "javascript" "btn primary").
  vm_compute. do 2 constructor.
Defined.

(** ** The languages *)

(** X10. Outside JavaScript and TypeScript an analysis has no hooks and no
    event handlers, so its label is never one of the first three of the
    cascade, and its confidence is at most 0.85. This is the case of Python
    code, the only other language a pattern exists for. *)
Theorem other_language_analysis
    (env : Env) (request : CodeAnalysisRequest.t) (st : State)
    (response : CodeAnalysisResponse.t) :
  CodeAnalysisRequest.language request ∉ ["javascript"; "typescript"] →
  (analyze_code env request st).2 = Respond response →
  CodeAnalysisResponse.hooks response = []
  ∧ CodeAnalysisResponse.events response = []
  ∧ CodeAnalysisResponse.change_type response
    ∈ ["styling"; "component_structure"; "general_coding"]
  ∧ PrimFloat.leb (CodeAnalysisResponse.confidence response) 0.85 = true.
Proof.
  intros Hjs%js_family_false (millis & explanation & suggestions & ->)%analyze_code_response.
  cbn [CodeAnalysisResponse.of_result analysis_record CodeAnalysisResponse.change_type
       CodeAnalysisResponse.hooks CodeAnalysisResponse.events
       CodeAnalysisResponse.confidence AnalysisResult.change_type AnalysisResult.hooks
       AnalysisResult.events AnalysisResult.confidence].
  rewrite calculate_confidence_flags.
  unfold extract_hooks, extract_event_handlers. rewrite Hjs.
  split; [done|]. split; [done|].
  destruct (extract_components _ _) as [|c cs], (extract_styling _ _) as [|s ss];
    (split; [cbn; repeat constructor|reflexivity]).
Qed.

Lemma other_language_analysis_witness :
  ∃ response,
    (analyze_code first_reading
       {| CodeAnalysisRequest.code := "class Panel: on_click = useState";
          CodeAnalysisRequest.language := "python";
          CodeAnalysisRequest.context := None;
          CodeAnalysisRequest.user_id := None;
          CodeAnalysisRequest.session_id := None |} initial_state).2 = Respond response
    ∧ CodeAnalysisResponse.hooks response = []
    ∧ CodeAnalysisResponse.events response = []
    ∧ CodeAnalysisResponse.change_type response
      ∈ ["styling"; "component_structure"; "general_coding"]
    ∧ PrimFloat.leb (CodeAnalysisResponse.confidence response) 0.85 = true.
Proof.
  eexists. split; [vm_compute; reflexivity|].
  apply (other_language_analysis first_reading
           {| CodeAnalysisRequest.code := "class Panel: on_click = useState";
              CodeAnalysisRequest.language := "python";
              CodeAnalysisRequest.context := None;
              CodeAnalysisRequest.user_id := None;
              CodeAnalysisRequest.session_id := None |} initial_state).
  - cbn. rewrite !elem_of_cons, elem_of_nil. intros [?|[?|[]]]; discriminate.
  - vm_compute. reflexivity.
Defined.

(** X11. Of the languages [health_check] reports as supported, [java] is
    the one no extractor has a pattern for: whatever the code, nothing is
    extracted from it, while each of the other three has code from which
    something is. *)
Theorem supported_language_without_patterns (env : Env) (st : State) (language : string) :
  language ∈ HealthCheck.supported_languages (health_check env st) →
  (∀ code,
     extract_components code language = [] ∧ extract_hooks code language = []
     ∧ extract_event_handlers code language = [] ∧ extract_styling code language = [])
  ↔ language = "java".
Proof.
  cbn [health_check HealthCheck.supported_languages]. unfold supported_languages.
  rewrite !elem_of_cons, elem_of_nil.
  intros [->|[->|[->|[->|[]]]]]; (split; [|try discriminate]).
  - intros Hnone. by destruct (Hnone "function A() {}") as [Hc _].
  - intros Hnone. by destruct (Hnone "function A() {}") as [Hc _].
  - intros Hnone. by destruct (Hnone "class A: pass") as [Hc _].
  - done.
  - intros _ code. repeat split.
Qed.

Lemma supported_language_without_patterns_witness :
  (∀ code,
     extract_components code "java" = [] ∧ extract_hooks code "java" = []
     ∧ extract_event_handlers code "java" = [] ∧ extract_styling code "java" = [])
  ↔ "java" = "java".
Proof.
  apply (supported_language_without_patterns first_reading initial_state "java").
  cbn. repeat constructor.
Defined.

(** ** Histories *)

Lemma py_slice_to_length {A} (l : list A) limit :
  length (py_slice_to l limit) = slice_length (length l) limit.
Proof.
  unfold py_slice_to, slice_length. destruct (limit <? 0) eqn:Hlimit; rewrite length_take.
  - apply Z.ltb_lt in Hlimit. lia.
  - done.
Qed.

(** X12. The history for every limit, negative ones included. The count
    [total_analyses] is the number of stored records of the user, whatever
    the limit; the list returned is a prefix of the user's full sorted
    history, of the length Python's slice gives: [min limit total] for a
    limit of zero or more, and [total + limit] (or none) for a negative one,
    which drops the oldest records. *)
Theorem get_user_history_every_limit (user_id : string) (limit : Z) (st : State) :
  let history := get_user_history user_id limit st in
  let total := length (analyses_of user_id st) in
  UserHistory.user_id history = user_id
  ∧ UserHistory.total_analyses history = total
  ∧ length (UserHistory.analyses history) = slice_length total limit
  ∧ UserHistory.analyses history
    `prefix_of` UserHistory.analyses (get_user_history user_id (Z.of_nat total) st).
Proof.
  cbv zeta. unfold get_user_history.
  cbn [UserHistory.user_id UserHistory.total_analyses UserHistory.analyses].
  fold (analyses_of user_id st).
  set (sorted := sort_by_timestamp_reverse (analyses_of user_id st)).
  assert (length sorted = length (analyses_of user_id st)) as Hlen.
  { unfold sorted. by rewrite sort_by_timestamp_reverse_perm. }
  split; [done|]. split; [done|]. split.
  - by rewrite py_slice_to_length, Hlen.
  - rewrite (py_slice_to_nonneg sorted (Z.of_nat _)) by lia.
    rewrite Nat2Z.id, <- Hlen, firstn_all.
    unfold py_slice_to. destruct (limit <? 0); apply prefix_take.
Qed.

(** X13. With a limit of at least the number of the user's records, the
    history holds each of them exactly once, and records made at the same
    timestamp come in the order they were stored in (the sort is stable);
    this holds for the records of any history that is not cut. *)
Theorem get_user_history_complete_stable (user_id : string) (limit : Z) (st : State) :
  Z.of_nat (length (analyses_of user_id st)) ≤ limit →
  let analyses := UserHistory.analyses (get_user_history user_id limit st) in
  analyses ≡ₚ analyses_of user_id st
  ∧ ∀ t, made_at t analyses = made_at t (analyses_of user_id st).
Proof.
  intros Hlimit. cbv zeta. unfold get_user_history. cbn [UserHistory.analyses].
  fold (analyses_of user_id st).
  rewrite py_slice_to_nonneg by lia.
  rewrite take_ge.
  - split; [apply sort_by_timestamp_reverse_perm|]. intros t. apply made_at_sort.
  - rewrite sort_by_timestamp_reverse_perm. lia.
Qed.

Lemma get_user_history_complete_stable_witness :
  UserHistory.analyses (get_user_history "u1" 10 sample_history)
  ≡ₚ analyses_of "u1" sample_history
  ∧ ∀ t, made_at t (UserHistory.analyses (get_user_history "u1" 10 sample_history))
         = made_at t (analyses_of "u1" sample_history).
Proof.
  apply (get_user_history_complete_stable "u1" 10 sample_history).
  vm_compute. discriminate.
Defined.

(** ** Video jobs *)

Lemma generate_video_ok env request st millis :
  py_int (time_time env * 1000)%float = Ok millis →
  generate_video env request st
  = ({| analysis_storage := analysis_storage st;
        video_generation_status :=
          <["video_" +:+ pretty millis := pending_job ("video_" +:+ pretty millis) request]>
            (video_generation_status st);
        background_tasks :=
          background_tasks st ++ [task_at ("video_" +:+ pretty millis) 0] |},
     Respond (VideoGenerationResponse.of_status
                (pending_job ("video_" +:+ pretty millis) request))).
Proof. intros Hclock. unfold generate_video. by rewrite Hclock. Qed.

Lemma generate_video_raise env request st e :
  py_int (time_time env * 1000)%float = Raise e →
  generate_video env request st
  = (st, HTTPException 500 ("Video generation failed: " +:+ exn_str e)).
Proof. intros Hclock. unfold generate_video. by rewrite Hclock. Qed.

(** X14. A job accepted by [generate_video] is at once visible to
    [get_video_status], which answers with the same response; one task is
    queued for it, after those already there; the status of every other id
    and the analysis store are as before. When the request fails (status
    500) the state is left as it was. *)
Theorem generate_video_then_get_video_status
    (env : Env) (request : VideoGenerationRequest.t) (st : State) :
  match (generate_video env request st).2 with
  | Respond response =>
      get_video_status (VideoGenerationResponse.video_id response)
        (generate_video env request st).1 = Respond response
      ∧ (∀ other, other ≠ VideoGenerationResponse.video_id response →
           get_video_status other (generate_video env request st).1
           = get_video_status other st)
      ∧ background_tasks (generate_video env request st).1
        = background_tasks st
          ++ [generate_video_background (VideoGenerationResponse.video_id response)
                (VideoGenerationRequest.change_type request)
                (VideoGenerationRequest.code_snippet request)
                (VideoGenerationRequest.explanation request)
                (VideoGenerationRequest.affected_elements request)]
  | HTTPException status_code _ =>
      status_code = 500 ∧ (generate_video env request st).1 = st
  end.
Proof.
  destruct (py_int (time_time env * 1000)%float) as [millis|e] eqn:Hclock.
  - rewrite (generate_video_ok env request st millis Hclock). cbn [fst snd].
    unfold get_video_status.
    cbn [video_generation_status VideoGenerationResponse.of_status
         VideoGenerationResponse.video_id pending_job VideoStatus.video_id].
    rewrite lookup_insert_eq. split; [done|]. split; [|done].
    intros other Hother. by rewrite lookup_insert_ne.
  - by rewrite (generate_video_raise env request st e Hclock).
Qed.

(** The run of the task of one job, resumption by resumption. *)
Lemma next_stage_le k fault : (k ≤ 5)%nat → (next_stage k fault ≤ 5)%nat.
Proof. intros Hk. do 6 (try destruct k as [|k]); try lia; destruct fault; simpl; lia. Qed.

Lemma task_run vid i resumptions : ∀ k st v,
  (k ≤ 5)%nat →
  video_generation_status st !! vid = Some v →
  background_tasks st !! i = Some (task_at vid k) →
  video_trace vid (exec (resume_events i resumptions) st)
  = expected_trace vid k resumptions v
  ∧ video_generation_status (after (resume_events i resumptions) st) !! vid
    = Some (final_record vid k resumptions v)
  ∧ background_tasks (after (resume_events i resumptions) st) !! i
    = Some (task_at vid (final_stage k resumptions)).
Proof.
  induction resumptions as [|[env fault] rest IH]; intros k st v Hk Hv Htask; [done|].
  destruct (step_resume_task_at vid i k fault env st v Hk Hv Htask)
    as (Htrace & Hv' & Htask').
  destruct (IH (next_stage k fault) _ _ (next_stage_le k fault Hk) Hv' Htask')
    as (IHtrace & IHv & IHtask).
  change (resume_events i ((env, fault) :: rest))
    with (ResumeTask i env fault :: resume_events i rest).
  cbn [exec after foldl expected_trace final_record final_stage].
  split; [|split].
  - unfold video_trace in *. rewrite omap_app. by rewrite Htrace, IHtrace.
  - exact IHv.
  - exact IHtask.
Qed.

(** X15. An accepted job whose task is resumed five times without a fault
    runs to completion. Its record goes through generating at 0 (the first
    write), 10, 20, 40, 60 and 80 and ends completed at 100, with the two
    URLs built from the id, a duration of 8 and the clock reading of the last
    resumption; analysis id and title stay those of the request. A further
    resumption finds the task ended and changes nothing. *)
Theorem job_runs_to_completion
    (env : Env) (request : VideoGenerationRequest.t) (st : State) (millis : Z)
    (e0 e1 e2 e3 e4 : Env) (late : list (Env * option exn)) :
  py_int (time_time env * 1000)%float = Ok millis →
  let video_id := "video_" +:+ pretty millis in
  let accepted := (generate_video env request st).1 in
  let i := length (background_tasks st) in
  let run := resume_events i (undisturbed [e0; e1; e2; e3; e4] ++ late) in
  status_progress <$> video_trace video_id (exec run accepted)
  = [("generating", 0); ("generating", 10); ("generating", 20); ("generating", 40);
     ("generating", 60); ("generating", 80); ("completed", 100)]
    ++ replicate (length late) ("completed", 100)
  ∧ video_generation_status (after run accepted) !! video_id
    = Some {| VideoStatus.video_id := video_id;
              VideoStatus.status := "completed";
              VideoStatus.progress := 100;
              VideoStatus.video_url := Some ("/videos/" +:+ video_id +:+ ".webm");
              VideoStatus.thumbnail_url := Some ("/thumbnails/" +:+ video_id +:+ ".jpg");
              VideoStatus.duration := Some 8;
              VideoStatus.generated_at := Some (now_isoformat e4);
              VideoStatus.analysis_id := VideoGenerationRequest.analysis_id request;
              VideoStatus.title :=
                title_or (VideoGenerationRequest.title request)
                  (default_title (VideoGenerationRequest.change_type request));
              VideoStatus.error := None |}.
Proof.
  intros Hclock. cbv zeta.
  rewrite (generate_video_ok env request st millis Hclock). cbn [fst].
  set (vid := "video_" +:+ pretty millis).
  set (accepted := {| analysis_storage := _ |}).
  destruct (task_run vid (length (background_tasks st))
              (undisturbed [e0; e1; e2; e3; e4] ++ late) 0 accepted (pending_job vid request))
    as (Htrace & Hrecord & _).
  { lia. }
  { apply lookup_insert_eq. }
  { cbn [accepted background_tasks]. apply list_lookup_middle. done. }
  rewrite Htrace, Hrecord. clear Htrace Hrecord.
  cbn [undisturbed fmap list_fmap app expected_trace final_record writes next_stage
       or_unchanged last default from_option id].
  set (done_ := completed_by vid e4 _).
  assert (expected_trace vid 5 late done_ = replicate (length late) done_
          ∧ final_record vid 5 late done_ = done_) as [-> ->].
  { clearbody done_. induction late as [|[env' fault] late [IHtrace IHrecord]]; [done|].
    cbn [expected_trace final_record length replicate].
    replace (next_stage 5 fault) with 5%nat by (by destruct fault).
    replace (writes vid 5 fault env' done_) with (@nil VideoStatus.t) by (by destruct fault).
    cbn [or_unchanged last default from_option id app]. by rewrite IHtrace, IHrecord. }
  split; [|done].
  rewrite ?fmap_app, ?fmap_cons, fmap_replicate. reflexivity.
Qed.

Lemma job_runs_to_completion_witness :
  status_progress
  <$> video_trace ("video_" +:+ pretty 1700000000000)
        (exec (resume_events 0 (undisturbed [tick1; tick2; tick3; tick4; tick5]
                                ++ [(tick5, None)]))
           (generate_video first_reading (sample_video_request None) initial_state).1)
  = [("generating", 0); ("generating", 10); ("generating", 20); ("generating", 40);
     ("generating", 60); ("generating", 80); ("completed", 100); ("completed", 100)]
  ∧ video_generation_status
      (after (resume_events 0 (undisturbed [tick1; tick2; tick3; tick4; tick5]
                               ++ [(tick5, None)]))
         (generate_video first_reading (sample_video_request None) initial_state).1)
    !! ("video_" +:+ pretty 1700000000000)
    = Some {| VideoStatus.video_id := "video_" +:+ pretty 1700000000000;
              VideoStatus.status := "completed";
              VideoStatus.progress := 100;
              VideoStatus.video_url :=
                Some ("/videos/" +:+ ("video_" +:+ pretty 1700000000000) +:+ ".webm");
              VideoStatus.thumbnail_url :=
                Some ("/thumbnails/" +:+ ("video_" +:+ pretty 1700000000000) +:+ ".jpg");
              VideoStatus.duration := Some 8;
              VideoStatus.generated_at := Some "2023-11-14T22:13:25.500000";
              VideoStatus.analysis_id := "analysis_42";
              VideoStatus.title := "Understanding: state management";
              VideoStatus.error := None |}.
Proof.
  apply (job_runs_to_completion first_reading (sample_video_request None) initial_state
           1700000000000 tick1 tick2 tick3 tick4 tick5 [(tick5, None)]).
  vm_compute. reflexivity.
Defined.

(** X16. An exception raised at one of the four sleeps ends the job as
    failed. The record keeps the progress reached before the sleep (10, 20,
    40 or 60 for the first to the fourth sleep) and gets the text of the
    exception as [error]; no URL, duration or date is set. The status
    endpoint reports the failure without the error text, which the response
    model has no field for. Later resumptions change nothing. *)
Theorem job_fails_at_sleep
    (env : Env) (request : VideoGenerationRequest.t) (st : State) (millis : Z)
    (envs : list Env) (env' : Env) (e : exn) (late : list (Env * option exn)) :
  py_int (time_time env * 1000)%float = Ok millis →
  (1 ≤ length envs ≤ 4)%nat →
  let video_id := "video_" +:+ pretty millis in
  let accepted := (generate_video env request st).1 in
  let i := length (background_tasks st) in
  let final := after (resume_events i (undisturbed envs ++ (env', Some e) :: late))
                 accepted in
  ∃ reached,
    [10; 20; 40; 60] !! (length envs - 1)%nat = Some reached
    ∧ video_generation_status final !! video_id
      = Some (VideoStatus.update_failed (exn_str e)
                (VideoStatus.set_progress reached
                   (VideoStatus.set_status "generating" (pending_job video_id request))))
    ∧ get_video_status video_id final
      = Respond {| VideoGenerationResponse.video_id := video_id;
                   VideoGenerationResponse.status := "failed";
                   VideoGenerationResponse.progress := reached;
                   VideoGenerationResponse.video_url := None;
                   VideoGenerationResponse.thumbnail_url := None;
                   VideoGenerationResponse.duration := None;
                   VideoGenerationResponse.generated_at := None |}.
Proof.
  intros Hclock Henvs. cbv zeta.
  rewrite (generate_video_ok env request st millis Hclock). cbn [fst].
  set (vid := "video_" +:+ pretty millis).
  set (accepted := {| analysis_storage := _ |}).
  destruct (task_run vid (length (background_tasks st))
              (undisturbed envs ++ (env', Some e) :: late) 0 accepted (pending_job vid request))
    as (_ & Hrecord & _).
  { lia. }
  { apply lookup_insert_eq. }
  { cbn [accepted background_tasks]. apply list_lookup_middle. done. }
  unfold get_video_status. rewrite Hrecord. clear Hrecord.
  assert (∀ v, final_record vid 5 late v = v) as Hlate.
  { induction late as [|[env'' fault] late IH]; intros v; [done|].
    cbn [final_record].
    replace (next_stage 5 fault) with 5%nat by (by destruct fault).
    replace (writes vid 5 fault env'' v) with (@nil VideoStatus.t) by (by destruct fault).
    apply IH. }
  do 5 (try destruct envs as [|? envs]); cbn [length] in Henvs; try lia;
    cbn [undisturbed fmap list_fmap app final_record writes next_stage
         last default from_option id length Nat.sub];
    rewrite Hlate; eexists; (split; [reflexivity|]); split; reflexivity.
Qed.

Lemma job_fails_at_sleep_witness :
  ∃ reached,
    [10; 20; 40; 60] !! 1%nat = Some reached
    ∧ video_generation_status
        (after (resume_events 0 (undisturbed [tick1; tick2]
                                 ++ [(tick3, Some (RuntimeError "loop closed"));
                                     (tick4, None)]))
           (generate_video first_reading (sample_video_request None) initial_state).1)
      !! ("video_" +:+ pretty 1700000000000)
      = Some (VideoStatus.update_failed "loop closed"
                (VideoStatus.set_progress reached
                   (VideoStatus.set_status "generating"
                      (pending_job ("video_" +:+ pretty 1700000000000)
                         (sample_video_request None)))))
    ∧ get_video_status ("video_" +:+ pretty 1700000000000)
        (after (resume_events 0 (undisturbed [tick1; tick2]
                                 ++ [(tick3, Some (RuntimeError "loop closed"));
                                     (tick4, None)]))
           (generate_video first_reading (sample_video_request None) initial_state).1)
      = Respond {| VideoGenerationResponse.video_id := "video_" +:+ pretty 1700000000000;
                   VideoGenerationResponse.status := "failed";
                   VideoGenerationResponse.progress := reached;
                   VideoGenerationResponse.video_url := None;
                   VideoGenerationResponse.thumbnail_url := None;
                   VideoGenerationResponse.duration := None;
                   VideoGenerationResponse.generated_at := None |}.
Proof.
  apply (job_fails_at_sleep first_reading (sample_video_request None) initial_state
           1700000000000 [tick1; tick2] tick3 (RuntimeError "loop closed") [(tick4, None)]).
  - vm_compute. reflexivity.
  - simpl. lia.
Defined.

(** X17. A task whose record is missing from the store does nothing: the
    statement it resumes with raises [KeyError], so does the handler, and the
    task ends without a write, at whatever stage it stood and whether or not
    its sleep raised. *)
Theorem task_without_record
    (video_id : string) (k : nat) (fault : option exn) (env : Env)
    (store : gmap string VideoStatus.t) :
  (k ≤ 5)%nat →
  store !! video_id = None →
  resume fault env (task_at video_id k) store = ([], task_at video_id 5).
Proof.
  intros Hk Hnone.
  assert (∀ f, update_video video_id f store = Raise (KeyError video_id)) as Hraise.
  { intros f. unfold update_video, py_getitem. by rewrite Hnone. }
  do 6 (try destruct k as [|k]); try lia; destruct fault as [e|];
    unfold resume, task_at;
    cbn [body on_exception generate_video_background stage_offset drop app];
    change (py_range 20 100 20) with [20; 40; 60; 80];
    cbn [mbind list_bind mapM fmap list_fmap app drop run_until_await];
    rewrite ?Hraise; reflexivity.
Qed.

Lemma task_without_record_witness :
  resume None tick1 (task_at "video_7" 2) ∅ = ([], task_at "video_7" 5).
Proof.
  apply (task_without_record "video_7" 2 None tick1 ∅).
  - lia.
  - reflexivity.
Defined.

Set Warnings "-clear-no-such-hyp".

(** ** What a run leaves in the stores *)

Lemma update_video_dom vid f (store store' : gmap string VideoStatus.t) :
  update_video vid f store = Ok store' → dom store' = dom store.
Proof.
  unfold update_video, py_getitem.
  destruct (store !! vid) as [v|] eqn:Hv; [|done].
  cbn [mbind result_bind mret result_ret]. intros Hstore. injection Hstore as <-.
  by apply dom_insert_lookup_L.
Qed.

Lemma generate_video_background_keeps_keys vid change_type code_snippet explanation elements :
  task_keeps_keys
    (generate_video_background vid change_type code_snippet explanation elements).
Proof.
  split.
  - cbn [body generate_video_background].
    change (py_range 20 100 20) with [20; 40; 60; 80].
    cbn [mbind list_bind mapM fmap list_fmap app].
    repeat apply Forall_cons_2;
      first [apply Forall_nil_2 | exact I | intros ? ? ?; apply update_video_dom].
  - intros e ? ? ?. apply update_video_dom.
Qed.

Lemma run_until_await_keeps_keys handler env steps : ∀ store,
  (∀ e, keeps_keys (handler e)) →
  Forall step_keeps_keys steps →
  Forall (λ s, dom s = dom store) (run_until_await handler env steps store).1
  ∧ Forall step_keeps_keys (run_until_await handler env steps store).2.
Proof.
  induction steps as [|[run|seconds] rest IH]; intros store Hhandler Hsteps.
  - by split.
  - apply Forall_cons in Hsteps as [Hrun Hrest]. cbn [run_until_await].
    destruct (run env store) as [store'|e] eqn:Hstore.
    + destruct (IH store' Hhandler Hrest) as [Hstores Hremaining].
      destruct (run_until_await handler env rest store') as [stores remaining].
      cbn [fst snd] in *. apply Hrun in Hstore. split; [|done].
      constructor; [done|]. eapply Forall_impl; [exact Hstores|].
      intros s Hs. cbn in Hs. congruence.
    + destruct (handler e env store) as [store'|] eqn:Hhandled; cbn [fst snd].
      * apply Hhandler in Hhandled. by repeat constructor.
      * by split.
  - cbn [run_until_await fst snd]. by split.
Qed.

Lemma resume_keeps_keys fault env task store :
  task_keeps_keys task →
  Forall (λ s, dom s = dom store) (resume fault env task store).1
  ∧ task_keeps_keys (resume fault env task store).2.
Proof.
  intros [Hbody Hhandler]. unfold resume.
  destruct (body task) as [|[run|seconds] rest] eqn:Hsteps.
  - by repeat split.
  - pose proof (run_until_await_keeps_keys (on_exception task) env (Act run :: rest)
                  store Hhandler Hbody) as [Hstores Hremaining].
    destruct fault;
      destruct (run_until_await (on_exception task) env (Act run :: rest) store);
      by repeat split.
  - apply Forall_cons in Hbody as [_ Hrest].
    destruct fault as [e|].
    + destruct (on_exception task e env store) as [store'|] eqn:Hhandled; cbn [fst snd].
      * apply Hhandler in Hhandled. by repeat constructor.
      * by repeat split.
    + pose proof (run_until_await_keeps_keys (on_exception task) env rest
                    store Hhandler Hrest) as [Hstores Hremaining].
      destruct (run_until_await (on_exception task) env rest store); by repeat split.
Qed.

Lemma option_list_to_set (o : option string) :
  (list_to_set (option_list o) : gset string) = from_option singleton ∅ o.
Proof. destruct o; set_solver. Qed.

(** One event: the keys of the video store afterwards, and the tasks. *)
Lemma step_event_keys ev st :
  Forall task_keeps_keys (background_tasks st) →
  let st' := default st (last (step_event ev st)) in
  dom (video_generation_status st')
  = dom (video_generation_status st) ∪ list_to_set (option_list (minted_video_id ev))
  ∧ Forall task_keeps_keys (background_tasks st').
Proof.
  intros Htasks. cbv zeta. destruct ev as [env request|env request|i env fault].
  - cbn [step_event last default from_option id minted_video_id option_list list_to_set].
    destruct (analyze_code_frame env request st) as [-> ->]. split; [set_solver|done].
  - cbn [step_event last default from_option id minted_video_id].
    unfold generate_video.
    destruct (py_int (time_time env * 1000)%float) as [millis|e];
      cbn [mbind result_bind mret result_ret fst video_generation_status background_tasks
           option_list VideoStatus.video_id].
    + split; [rewrite dom_insert_L; set_solver|].
      apply Forall_app. split; [done|].
      apply Forall_cons_2; [apply generate_video_background_keeps_keys|apply Forall_nil_2].
    + split; [set_solver|done].
  - cbn [minted_video_id option_list]. unfold step_event.
    destruct (background_tasks st !! i) as [task|] eqn:Htask;
      [|cbn; split; [set_solver|done]].
    assert (task_keeps_keys task) as Hkeeps.
    { eapply list.Forall_forall; [exact Htasks|]. by eapply list_elem_of_lookup_2. }
    destruct (resume_keeps_keys fault env task (video_generation_status st) Hkeeps)
      as [Hstores Htask'].
    destruct (resume fault env task (video_generation_status st)) as [stores task'].
    cbn [fst snd] in Hstores, Htask'.
    assert (Forall task_keeps_keys (<[i := task']> (background_tasks st))) as Htasks'.
    { by apply Forall_insert. }
    destruct stores as [|s stores]; [cbn; split; [set_solver|done]|].
    rewrite fmap_last.
    destruct (last (s :: stores)) as [s'|] eqn:Hlast; [|by apply last_None in Hlast].
    cbn [fmap option_fmap option_map default from_option id with_video_store
         video_generation_status background_tasks].
    split; [|done].
    apply last_Some_elem_of in Hlast.
    rewrite (proj1 (list.Forall_forall _ _) Hstores s' Hlast). set_solver.
Qed.

Lemma after_cons ev evs st :
  after (ev :: evs) st = after evs (default st (last (step_event ev st))).
Proof. reflexivity. Qed.

Lemma omap_cons_option_list {A B} (f : A → option B) x l :
  omap f (x :: l) = option_list (f x) ++ omap f l.
Proof. csimpl. by destruct (f x). Qed.

Lemma run_keys evs : ∀ st,
  Forall task_keeps_keys (background_tasks st) →
  dom (video_generation_status (after evs st))
  = dom (video_generation_status st) ∪ list_to_set (minted_video_ids evs).
Proof.
  induction evs as [|ev evs IH]; intros st Htasks.
  - cbn. set_solver.
  - destruct (step_event_keys ev st Htasks) as [Hdom Htasks'].
    rewrite after_cons, (IH _ Htasks'), Hdom.
    unfold minted_video_ids. rewrite omap_cons_option_list, list_to_set_app_L. set_solver.
Qed.

(** X18. Jobs are never dropped and never appear from nowhere: after any
    run of requests and task resumptions from the empty stores, with any
    interleaving, any faults and any id collisions, [get_video_status]
    answers for an id exactly when a [generate_video] of the run minted it,
    and raises 404 otherwise. *)
Theorem video_status_known_iff_minted (evs : list event) (video_id : string) :
  (video_id ∈ minted_video_ids evs →
   ∃ response, get_video_status video_id (after evs initial_state) = Respond response)
  ∧ (video_id ∉ minted_video_ids evs →
     get_video_status video_id (after evs initial_state)
     = HTTPException 404 "Video not found").
Proof.
  pose proof (run_keys evs initial_state (Forall_nil_2 _)) as Hdom.
  cbn [initial_state video_generation_status] in Hdom.
  rewrite dom_empty_L, (left_id_L ∅ (∪)) in Hdom.
  unfold get_video_status. split; intros Hminted.
  - assert (video_id ∈ dom (video_generation_status (after evs initial_state))) as Hin.
    { rewrite Hdom. by apply elem_of_list_to_set. }
    apply elem_of_dom in Hin as [v ->]. by eexists.
  - assert (video_id ∉ dom (video_generation_status (after evs initial_state))) as Hout.
    { rewrite Hdom. by rewrite elem_of_list_to_set. }
    apply not_elem_of_dom in Hout. by rewrite Hout.
Qed.

Lemma video_status_known_iff_minted_witness :
  ∃ response,
    get_video_status "video_1700000000000" (after colliding_schedule initial_state)
    = Respond response.
Proof.
  refine (proj1 (video_status_known_iff_minted colliding_schedule "video_1700000000000") _).
  vm_compute. constructor.
Defined.

Lemma dict_set_keys {V} key (v : V) d :
  (dict_set key v d).*1 = if decide (key ∈ d.*1) then d.*1 else d.*1 ++ [key].
Proof.
  induction d as [|[k w] d IH]; [done|]. cbn [dict_set].
  destruct (decide (k = key)) as [->|Hne].
  - rewrite decide_True; [done|]. cbn. left.
  - cbn [fmap list_fmap fst]. rewrite IH. cbn [fmap list_fmap fst].
    destruct (decide (key ∈ d.*1)) as [Hin|Hout].
    + rewrite decide_True; [done|]. by right.
    + rewrite decide_False; [done|]. intros [?|?]%elem_of_cons; congruence.
Qed.

Lemma dict_get_Some_keys {V} key (d : list (string * V)) :
  is_Some (dict_get key d) ↔ key ∈ d.*1.
Proof.
  induction d as [|[k w] d IH]; cbn [dict_get fmap list_fmap fst].
  - split; [by intros [? ?]|by intros ?%elem_of_nil].
  - destruct (decide (k = key)) as [->|Hne].
    + split; [intros _; left|by eexists].
    + rewrite IH, elem_of_cons. split; [by right|]. by intros [?|?].
Qed.

(** One event: the keys of the analysis store afterwards. *)
Lemma step_event_analysis_keys ev st :
  NoDup (analysis_storage st).*1 →
  let st' := default st (last (step_event ev st)) in
  NoDup (analysis_storage st').*1
  ∧ (list_to_set (analysis_storage st').*1 : gset string)
    = list_to_set (analysis_storage st).*1
      ∪ list_to_set (option_list (minted_analysis_id ev)).
Proof.
  intros Hnodup. cbv zeta. destruct ev as [env request|env request|i env fault].
  - cbn [step_event last default from_option id minted_analysis_id].
    destruct (py_int (time_time env * 1000)%float) as [millis|e] eqn:Hclock.
    + destruct (analyze_code_ok env request st millis Hclock)
        as (explanation & suggestions & ->).
      cbn [fst analysis_storage option_list]. rewrite dict_set_keys.
      destruct (decide (_ ∈ _)) as [Hin|Hout].
      * split; [done|]. set_solver.
      * split.
        -- apply NoDup_app. split; [done|]. split; [|apply NoDup_singleton].
           intros k Hk ->%list_elem_of_singleton. done.
        -- rewrite list_to_set_app_L. set_solver.
    + rewrite (analyze_code_raise env request st e Hclock). split; [done|]. set_solver.
  - cbn [step_event last default from_option id minted_analysis_id option_list].
    unfold generate_video.
    destruct (py_int (time_time env * 1000)%float);
      cbn [mbind result_bind mret result_ret fst analysis_storage];
      (split; [done|set_solver]).
  - cbn [minted_analysis_id option_list]. unfold step_event.
    destruct (background_tasks st !! i) as [task|]; [|cbn; split; [done|set_solver]].
    destruct (resume fault env task (video_generation_status st)) as [stores task'].
    destruct stores as [|s stores]; [cbn; split; [done|set_solver]|].
    rewrite fmap_last.
    destruct (last (s :: stores)) as [s'|]; cbn; (split; [done|set_solver]).
Qed.

Lemma run_analysis_keys evs : ∀ st,
  NoDup (analysis_storage st).*1 →
  NoDup (analysis_storage (after evs st)).*1
  ∧ (list_to_set (analysis_storage (after evs st)).*1 : gset string)
    = list_to_set (analysis_storage st).*1 ∪ list_to_set (minted_analysis_ids evs).
Proof.
  induction evs as [|ev evs IH]; intros st Hnodup.
  - cbn. split; [done|set_solver].
  - destruct (step_event_analysis_keys ev st Hnodup) as [Hnodup' Hkeys].
    rewrite after_cons. destruct (IH _ Hnodup') as [IHnodup IHkeys].
    split; [done|]. rewrite IHkeys, Hkeys.
    unfold minted_analysis_ids. rewrite omap_cons_option_list, list_to_set_app_L. set_solver.
Qed.

(** X19. Analyses are never dropped either: after any run from the empty
    stores [get_analysis] answers for an id exactly when an [analyze_code] of
    the run minted it, and raises 404 otherwise. *)
Theorem analysis_known_iff_minted (evs : list event) (analysis_id : string) :
  (analysis_id ∈ minted_analysis_ids evs →
   ∃ record, get_analysis analysis_id (after evs initial_state) = Respond record)
  ∧ (analysis_id ∉ minted_analysis_ids evs →
     get_analysis analysis_id (after evs initial_state)
     = HTTPException 404 "Analysis not found").
Proof.
  destruct (run_analysis_keys evs initial_state (NoDup_nil_2 (A:=string))) as [_ Hkeys].
  cbn [initial_state analysis_storage fmap list_fmap list_to_set] in Hkeys.
  rewrite (left_id_L ∅ (∪)) in Hkeys.
  pose proof (dict_get_Some_keys analysis_id (analysis_storage (after evs initial_state)))
    as Hget.
  unfold get_analysis. split; intros Hminted.
  - destruct (proj2 Hget) as [record ->]; [|by eexists].
    apply (elem_of_list_to_set (C:=gset string)). rewrite Hkeys.
    by apply elem_of_list_to_set.
  - destruct (dict_get analysis_id _) as [record|]; [|done].
    exfalso. apply Hminted. apply (elem_of_list_to_set (C:=gset string)).
    rewrite <- Hkeys. apply elem_of_list_to_set. apply Hget. by eexists.
Qed.

Lemma analysis_known_iff_minted_witness :
  get_analysis "analysis_1700000000000"
    (after [PostAnalyze tick1 (sample_request header_code "u1");
            PostGenerateVideo first_reading (sample_video_request None)] initial_state)
  = HTTPException 404 "Analysis not found".
Proof.
  refine (proj2 (analysis_known_iff_minted
                   [PostAnalyze tick1 (sample_request header_code "u1");
                    PostGenerateVideo first_reading (sample_video_request None)]
                   "analysis_1700000000000") _).
  intros Hin. vm_compute in Hin. inversion Hin as [|? ? ? Hin']. inversion Hin'.
Defined.

(** X20. The two counters of [health_check] count ids, not requests and not
    running jobs: after any run from the empty stores [active_analyses] is
    the number of distinct analysis ids minted and [active_videos] the
    number of distinct video ids minted, completed and failed jobs
    included. *)
Theorem health_check_counts (env : Env) (evs : list event) :
  let report := health_check env (after evs initial_state) in
  HealthCheck.active_analyses report
  = size (list_to_set (minted_analysis_ids evs) : gset string)
  ∧ HealthCheck.active_videos report
    = size (list_to_set (minted_video_ids evs) : gset string)
  ∧ (HealthCheck.active_analyses report + HealthCheck.active_videos report
     ≤ length evs)%nat.
Proof.
  cbv zeta. cbn [health_check HealthCheck.active_analyses HealthCheck.active_videos].
  destruct (run_analysis_keys evs initial_state (NoDup_nil_2 (A:=string)))
    as [Hnodup Hkeys].
  cbn [initial_state analysis_storage fmap list_fmap list_to_set] in Hkeys.
  rewrite (left_id_L ∅ (∪)) in Hkeys.
  pose proof (run_keys evs initial_state (Forall_nil_2 _)) as Hdom.
  cbn [initial_state video_generation_status] in Hdom.
  rewrite dom_empty_L, (left_id_L ∅ (∪)) in Hdom.
  assert (length (analysis_storage (after evs initial_state))
          = size (list_to_set (minted_analysis_ids evs) : gset string)) as ->.
  { rewrite <- Hkeys, size_list_to_set by done. by rewrite length_fmap. }
  assert (size (video_generation_status (after evs initial_state))
          = size (list_to_set (minted_video_ids evs) : gset string)) as ->.
  { by rewrite <- Hdom, size_dom. }
  split; [done|]. split; [done|].
  clear. induction evs as [|ev evs IH]; [cbn; rewrite size_empty; lia|].
  unfold minted_analysis_ids, minted_video_ids in *.
  rewrite !omap_cons_option_list, !list_to_set_app_L.
  rewrite (size_union_alt (list_to_set (option_list (minted_analysis_id ev)))).
  rewrite (size_union_alt (list_to_set (option_list (minted_video_id ev)))).
  pose proof (subseteq_size
                (list_to_set (omap minted_analysis_id evs) ∖ list_to_set (option_list (minted_analysis_id ev)))
                (list_to_set (omap minted_analysis_id evs) : gset string)) as Ha.
  pose proof (subseteq_size
                (list_to_set (omap minted_video_id evs) ∖ list_to_set (option_list (minted_video_id ev)))
                (list_to_set (omap minted_video_id evs) : gset string)) as Hv.
  assert (size (list_to_set (option_list (minted_analysis_id ev)) : gset string)
          + size (list_to_set (option_list (minted_video_id ev)) : gset string) ≤ 1)%nat.
  { destruct ev as [env request|env request|i env fault];
      cbn [minted_analysis_id minted_video_id];
      repeat case_match; rewrite !option_list_to_set; cbn [from_option];
      rewrite ?size_singleton, ?size_empty; lia. }
  cbn [length]. specialize (Ha ltac:(set_solver)). specialize (Hv ltac:(set_solver)).
  lia.
Qed.

(** ** Ids made at different milliseconds *)

(** X21. Two analyses whose clock readings fall in different milliseconds
    get different ids, and both records can be retrieved afterwards, each
    under its own id: the first is not overwritten by the second. *)
Theorem distinct_millis_both_kept
    (env1 env2 : Env) (request1 request2 : CodeAnalysisRequest.t) (st : State)
    (millis1 millis2 : Z) :
  py_int (time_time env1 * 1000)%float = Ok millis1 →
  py_int (time_time env2 * 1000)%float = Ok millis2 →
  millis1 ≠ millis2 →
  ∃ record1 record2,
    (analyze_code env1 request1 st).2
    = Respond (CodeAnalysisResponse.of_result record1)
    ∧ (analyze_code env2 request2 (analyze_code env1 request1 st).1).2
      = Respond (CodeAnalysisResponse.of_result record2)
    ∧ AnalysisResult.analysis_id record1 ≠ AnalysisResult.analysis_id record2
    ∧ get_analysis (AnalysisResult.analysis_id record1)
        (analyze_code env2 request2 (analyze_code env1 request1 st).1).1
      = Respond record1
    ∧ get_analysis (AnalysisResult.analysis_id record2)
        (analyze_code env2 request2 (analyze_code env1 request1 st).1).1
      = Respond record2.
Proof.
  intros Hclock1 Hclock2 Hne.
  destruct (analyze_code_ok env1 request1 st millis1 Hclock1) as (x1 & s1 & ->).
  cbn [fst snd].
  match goal with |- context [analyze_code env2 request2 ?st1] =>
    destruct (analyze_code_ok env2 request2 st1 millis2 Hclock2) as (x2 & s2 & ->)
  end.
  cbn [fst snd analysis_storage]. eexists _, _. split; [reflexivity|]. split; [reflexivity|].
  cbn [analysis_record AnalysisResult.analysis_id].
  assert ("analysis_" +:+ pretty millis1 ≠ "analysis_" +:+ pretty millis2) as Hids.
  { intros Heq. apply Hne. apply (inj pretty). by simplify_eq/=. }
  split; [done|]. unfold get_analysis. cbn [analysis_storage]. split.
  - rewrite dict_get_set_ne by done. by rewrite dict_get_set.
  - by rewrite dict_get_set.
Qed.

Lemma distinct_millis_both_kept_witness :
  ∃ record1 record2,
    (analyze_code first_reading (sample_request header_code "u1") initial_state).2
    = Respond (CodeAnalysisResponse.of_result record1)
    ∧ (analyze_code tick1 (sample_request "" "u2")
         (analyze_code first_reading (sample_request header_code "u1") initial_state).1).2
      = Respond (CodeAnalysisResponse.of_result record2)
    ∧ AnalysisResult.analysis_id record1 ≠ AnalysisResult.analysis_id record2
    ∧ get_analysis (AnalysisResult.analysis_id record1)
        (analyze_code tick1 (sample_request "" "u2")
           (analyze_code first_reading (sample_request header_code "u1") initial_state).1).1
      = Respond record1
    ∧ get_analysis (AnalysisResult.analysis_id record2)
        (analyze_code tick1 (sample_request "" "u2")
           (analyze_code first_reading (sample_request header_code "u1") initial_state).1).1
      = Respond record2.
Proof.
  apply (distinct_millis_both_kept first_reading tick1 (sample_request header_code "u1")
           (sample_request "" "u2") initial_state 1700000000000 1700000001500).
  - vm_compute. reflexivity.
  - vm_compute. reflexivity.
  - lia.
Defined.

(** ** The title of a job *)

Lemma str_replace1_length old c s :
  String.length (str_replace1 old (String c "") s) = String.length s.
Proof.
  induction s as [|d s IH]; [done|]. cbn [str_replace1].
  destruct (Ascii.eqb d old); by rewrite app_length_str, IH.
Qed.

Lemma str_in_char_cons c d s :
  d ≠ c → str_in (String c "") (String d s) = str_in (String c "") s.
Proof.
  intros Hne. rewrite (str_in_unfold _ (String d s)). cbn [String.prefix].
  by destruct (ascii_dec c d) as [->|].
Qed.

Lemma str_replace1_gone old c s :
  c ≠ old → str_in (String old "") (str_replace1 old (String c "") s) = false.
Proof.
  intros Hne. induction s as [|d s IH]; [done|]. cbn [str_replace1].
  destruct (Ascii.eqb_spec d old) as [->|Hd].
  - change (str_in (String old "") (String c (str_replace1 old (String c "") s)) = false).
    by rewrite str_in_char_cons.
  - change (str_in (String old "") (String d (str_replace1 old (String c "") s)) = false).
    by rewrite str_in_char_cons.
Qed.

(** X22. The title of an accepted job is the request's title when that is a
    non-empty string, and the default otherwise, for a missing and for an
    empty title alike. The default is [Understanding: ] followed by the
    change type with every underscore turned into a blank: it has the length
    of the change type plus 15 and holds no underscore. *)
Theorem generate_video_title
    (env : Env) (request : VideoGenerationRequest.t) (st : State) (millis : Z) :
  py_int (time_time env * 1000)%float = Ok millis →
  (VideoStatus.title
   <$> video_generation_status (generate_video env request st).1
       !! ("video_" +:+ pretty millis)) = Some (job_title request)
  ∧ String.length (default_title (VideoGenerationRequest.change_type request))
    = (15 + String.length (VideoGenerationRequest.change_type request))%nat
  ∧ str_in "_" (default_title (VideoGenerationRequest.change_type request)) = false.
Proof.
  intros Hclock. rewrite (generate_video_ok env request st millis Hclock).
  cbn [fst video_generation_status]. rewrite lookup_insert_eq.
  cbn [fmap option_fmap option_map pending_job VideoStatus.title].
  split; [|split].
  - unfold job_title, title_or.
    destruct (VideoGenerationRequest.title request) as [[|c t]|]; done.
  - unfold default_title. rewrite app_length_str, str_replace1_length. done.
  - unfold default_title.
    change ("Understanding: " +:+ ?s) with
      (String "U" (String "n" (String "d" (String "e" (String "r" (String "s" (String "t"
        (String "a" (String "n" (String "d" (String "i" (String "n" (String "g" (String ":"
          (String " " s))))))))))))))).
    rewrite !str_in_char_cons by discriminate.
    by apply str_replace1_gone.
Qed.

Lemma generate_video_title_witness :
  (VideoStatus.title
   <$> video_generation_status
         (generate_video first_reading
            {| VideoGenerationRequest.analysis_id := "analysis_42";
               VideoGenerationRequest.change_type := "side_effects";
               VideoGenerationRequest.code_snippet := "";
               VideoGenerationRequest.explanation := "";
               VideoGenerationRequest.affected_elements := [];
               VideoGenerationRequest.title := Some "" |} initial_state).1
       !! ("video_" +:+ pretty 1700000000000)) = Some "Understanding: side effects"
  ∧ String.length (default_title "side_effects") = (15 + 12)%nat
  ∧ str_in "_" (default_title "side_effects") = false.
Proof.
  apply (generate_video_title first_reading
           {| VideoGenerationRequest.analysis_id := "analysis_42";
              VideoGenerationRequest.change_type := "side_effects";
              VideoGenerationRequest.code_snippet := "";
              VideoGenerationRequest.explanation := "";
              VideoGenerationRequest.affected_elements := [];
              VideoGenerationRequest.title := Some "" |} initial_state 1700000000000).
  vm_compute. reflexivity.
Defined.

(** ** The texts of a response *)

Lemma analyze_code_exact env request st millis :
  py_int (time_time env * 1000)%float = Ok millis →
  (analyze_code env request st).2
  = Respond (CodeAnalysisResponse.of_result
               (analysis_record env request millis
                  (explanation_of
                     (change_type_name
                        (classify
                           (extract_components (CodeAnalysisRequest.code request)
                              (CodeAnalysisRequest.language request))
                           (extract_hooks (CodeAnalysisRequest.code request)
                              (CodeAnalysisRequest.language request))
                           (extract_event_handlers (CodeAnalysisRequest.code request)
                              (CodeAnalysisRequest.language request))
                           (extract_styling (CodeAnalysisRequest.code request)
                              (CodeAnalysisRequest.language request)))))
                  (suggestions_of
                     (change_type_name
                        (classify
                           (extract_components (CodeAnalysisRequest.code request)
                              (CodeAnalysisRequest.language request))
                           (extract_hooks (CodeAnalysisRequest.code request)
                              (CodeAnalysisRequest.language request))
                           (extract_event_handlers (CodeAnalysisRequest.code request)
                              (CodeAnalysisRequest.language request))
                           (extract_styling (CodeAnalysisRequest.code request)
                              (CodeAnalysisRequest.language request))))))).
Proof.
  intros Hclock. unfold analyze_code. rewrite Hclock. cbn [mbind result_bind].
  rewrite determine_change_type_classify. cbn [mbind result_bind].
  rewrite generate_explanation_value, get_suggestions_value.
  cbn [mbind result_bind mret result_ret snd]. reflexivity.
Qed.

(** X23. The texts of a response are read off its label: the affected
    elements, the explanation and the suggestions are the entries of the
    three tables under [change_type], which is one of the six labels. The
    fallbacks of the tables are never taken by [analyze_code]. *)
Theorem response_texts_by_label
    (env : Env) (request : CodeAnalysisRequest.t) (st : State)
    (response : CodeAnalysisResponse.t) :
  (analyze_code env request st).2 = Respond response →
  CodeAnalysisResponse.change_type response ∈ change_type_names
  ∧ element_map !! CodeAnalysisResponse.change_type response
    = Some (CodeAnalysisResponse.affected_elements response)
  ∧ explanations !! CodeAnalysisResponse.change_type response
    = Some (CodeAnalysisResponse.explanation response)
  ∧ suggestions_map !! CodeAnalysisResponse.change_type response
    = Some (CodeAnalysisResponse.suggestions response).
Proof.
  destruct (py_int (time_time env * 1000)%float) as [millis|e] eqn:Hclock;
    [|by rewrite (analyze_code_raise env request st e Hclock)].
  rewrite (analyze_code_exact env request st millis Hclock). intros [= <-].
  cbn [CodeAnalysisResponse.of_result analysis_record CodeAnalysisResponse.change_type
       CodeAnalysisResponse.affected_elements CodeAnalysisResponse.explanation
       CodeAnalysisResponse.suggestions AnalysisResult.change_type
       AnalysisResult.affected_elements AnalysisResult.explanation
       AnalysisResult.suggestions].
  split; [apply classify_name_listed|].
  destruct (classify _ _ _ _); repeat split.
Qed.

Lemma response_texts_by_label_witness :
  ∃ response,
    (analyze_code first_reading (sample_request header_code "u1") initial_state).2
    = Respond response
    ∧ CodeAnalysisResponse.change_type response = "event_handling"
    ∧ element_map !! CodeAnalysisResponse.change_type response
      = Some (CodeAnalysisResponse.affected_elements response).
Proof.
  destruct ((analyze_code first_reading (sample_request header_code "u1")
               initial_state).2) as [response|] eqn:Hresponse;
    [|vm_compute in Hresponse; discriminate].
  exists response. split; [reflexivity|].
  pose proof (response_texts_by_label _ _ _ _ Hresponse) as (_ & Helements & _).
  vm_compute in Hresponse. injection Hresponse as <-.
  split; [reflexivity|]. exact Helements.
Defined.

(** ** An analysis in the history *)

Lemma dict_set_fresh_values {V} key (v : V) d :
  dict_get key d = None → dict_values (dict_set key v d) = dict_values d ++ [v].
Proof.
  unfold dict_values. induction d as [|[k w] d IH]; [done|]. cbn [dict_get dict_set].
  destruct (decide (k = key)); [done|]. intros Hnone. cbn [fmap list_fmap snd app].
  f_equal. by apply IH.
Qed.

(** X24. An analysis stored under a fresh id adds one record to the history
    of the user it was made for and leaves the count of every other user
    as it was; an analysis made without a user id is in no history. *)
Theorem analyze_code_extends_history
    (env : Env) (request : CodeAnalysisRequest.t) (st : State) (millis : Z)
    (user_id : string) (limit : Z) :
  py_int (time_time env * 1000)%float = Ok millis →
  get_analysis ("analysis_" +:+ pretty millis) st = HTTPException 404 "Analysis not found" →
  UserHistory.total_analyses
    (get_user_history user_id limit (analyze_code env request st).1)
  = (UserHistory.total_analyses (get_user_history user_id limit st)
     + if decide (CodeAnalysisRequest.user_id request = Some user_id) then 1 else 0)%nat.
Proof.
  intros Hclock Hfresh.
  assert (dict_get ("analysis_" +:+ pretty millis) (analysis_storage st) = None) as Hnone.
  { unfold get_analysis in Hfresh. by destruct (dict_get _ _). }
  destruct (analyze_code_ok env request st millis Hclock) as (explanation & suggestions & ->).
  unfold get_user_history.
  cbn [fst analysis_storage UserHistory.total_analyses].
  rewrite !sort_by_timestamp_reverse_perm, (dict_set_fresh_values _ _ _ Hnone).
  rewrite filter_app, length_app. f_equal.
  rewrite filter_cons, filter_nil. cbn [analysis_record AnalysisResult.user_id].
  by destruct (decide (CodeAnalysisRequest.user_id request = Some user_id)).
Qed.

Lemma analyze_code_extends_history_witness :
  UserHistory.total_analyses
    (get_user_history "u1" 2 (analyze_code tick5 (sample_request "" "u1") sample_history).1)
  = (UserHistory.total_analyses (get_user_history "u1" 2 sample_history)
     + if decide (Some "u1" = Some "u1") then 1 else 0)%nat.
Proof.
  apply (analyze_code_extends_history tick5 (sample_request "" "u1") sample_history
           1700000005500 "u1" 2).
  - vm_compute. reflexivity.
  - vm_compute. reflexivity.
Defined.

(** ** Witnesses of the general statements on handlers and on distinct ids *)

Lemma extract_event_handlers_elements_witness :
  ∃ c w sp,
    "onClick " = handler_text c w sp
    ∧ Re.upper c = true ∧ all_in Re.word w = true ∧ all_in Re.space sp = true
    ∧ str_in ("onClick " +:+ "=") "<button onClick ={go}>" = true.
Proof.
  apply (extract_event_handlers_elements "<button onClick ={go}>" "javascript" "onClick ").
  vm_compute. constructor.
Defined.

Lemma distinct_ids_keep_invariants_witness :
  job_invariants (video_trace "video_1700000001500" (exec distinct_schedule initial_state)).
Proof.
  apply (distinct_ids_keep_invariants distinct_schedule "video_1700000001500").
  apply (bool_decide_unpack (NoDup (minted_video_ids distinct_schedule))).
  vm_compute. exact I.
Defined.

(** ** The scan for hooks misses nothing *)

Lemma upper_word c : Re.upper c = true → Re.word c = true.
Proof. unfold Re.upper, Re.word. intros ->. by rewrite !orb_true_r. Qed.

Lemma substring_0_take n s : substring 0 n s = take_str n s.
Proof.
  revert s. induction n as [|n IH]; intros [|c s]; try done. simpl. by rewrite IH.
Qed.

Lemma longest_first_top {R} (k : nat → option R) lo n r :
  k n = Some r → Re.longest_first k lo n = Some r.
Proof. intros Hk. destruct n; simpl; by rewrite Hk. Qed.

Lemma run_all_in cls u s :
  all_in cls u = true → Re.run cls (u +:+ s) = (String.length u + Re.run cls s)%nat.
Proof.
  induction u as [|c u IH]; [done|]. simpl. intros [Hc Hu]%andb_true_iff.
  change (Re.run cls (String c (u +:+ s)) = S (String.length u + Re.run cls s)).
  simpl. by rewrite Hc, IH.
Qed.

Lemma take_str_length cls s : String.length (take_str (Re.run cls s) s) = Re.run cls s.
Proof. by destruct (take_skip cls (Re.run cls s) s) as (_ & _ & Hlen). Qed.

(** An attempt at a text that starts like a hook succeeds and takes the
    whole run of word characters. *)
Lemma match_here_hook c rest :
  Re.upper c = true →
  ∃ m, Re.match_here re_hook ("use" +:+ String c rest) = Some m
       ∧ Re.group0 m = "use" +:+ String c (take_str (Re.run Re.word rest) rest).
Proof.
  intros Hc. unfold Re.match_here.
  change ("use" +:+ String c rest) with (String "u" (String "s" (String "e" (String c rest)))).
  cbn [re_hook Re.before Re.group Re.after Re.lit Re.match_atoms Re.chr Ascii.eqb Bool.eqb].
  rewrite Hc. eexists. split.
  - apply longest_first_top. reflexivity.
  - cbn [Re.group0 Nat.add substring]. by rewrite substring_0_take.
Qed.

Lemma match_here_hook_inv s m :
  Re.match_here re_hook s = Some m →
  ∃ c rest, s = "use" +:+ String c rest ∧ Re.upper c = true.
Proof.
  intros (t1 & t2 & t3 & s' & -> & H1 & H2 & _)%match_here_sound.
  cbn [Re.before Re.group re_hook] in H1, H2.
  rewrite <- (app_nil_r (Re.lit "use")) in H1.
  apply matches_lit_inv in H1 as (t' & -> & ->%matches_nil_inv).
  apply matches_one_inv in H2 as (c & w & -> & Hc & _).
  by exists c, (w +:+ t3 +:+ s').
Qed.

Lemma hook_name_word r :
  hook_name r → ∃ c rest, r = "use" +:+ String c rest ∧ Re.upper c = true
                          ∧ all_in Re.word r = true.
Proof.
  intros (name & -> & c & w & -> & Hc & Hw). exists c, w. split; [done|]. split; [done|].
  change (all_in Re.word (String "u" (String "s" (String "e" (String c w)))) = true).
  cbn [all_in]. rewrite (upper_word c Hc), Hw. reflexivity.
Qed.

(** A text split two ways: the shorter head is a head of the longer. *)
Lemma app_eq_prefix a b c d :
  a +:+ b = c +:+ d → (String.length a ≤ String.length c)%nat → ∃ x, c = a +:+ x.
Proof.
  revert c. induction a as [|e a IH]; intros c; [by exists c|].
  destruct c as [|f c]; [simpl; lia|].
  intros Heq Hlen.
  change (String e (a +:+ b) = String f (c +:+ d)) in Heq.
  injection Heq as -> Heq. simpl in Hlen.
  destruct (IH c Heq) as [x ->]; [lia|]. by exists x.
Qed.

(** A word that starts inside a run of word characters ends inside it. *)
Lemma run_covers pre K suf :
  all_in Re.word K = true →
  (String.length pre < Re.run Re.word (pre +:+ K +:+ suf))%nat →
  (String.length pre + String.length K ≤ Re.run Re.word (pre +:+ K +:+ suf))%nat.
Proof.
  intros HK. induction pre as [|a pre IH].
  - intros _. change ("" +:+ K +:+ suf) with (K +:+ suf). rewrite run_all_in by done.
    simpl. lia.
  - change (String a pre +:+ K +:+ suf) with (String a (pre +:+ K +:+ suf)). simpl.
    destruct (Re.word a); [|lia]. intros Hlt.
    assert (String.length pre < Re.run Re.word (pre +:+ K +:+ suf))%nat as Hlt' by lia.
    apply IH in Hlt'. lia.
Qed.

Lemma occurs_in_taken pre K suf n :
  (String.length pre + String.length K ≤ n)%nat →
  (n ≤ Re.run Re.word (pre +:+ K +:+ suf))%nat →
  occurs_in K (take_str n (pre +:+ K +:+ suf)).
Proof.
  intros Hlen Hn.
  destruct (take_skip Re.word n _ Hn) as (Hsplit & _ & Htaken).
  rewrite <- app_assoc_str in Hsplit at 1.
  destruct (app_eq_prefix (pre +:+ K) suf _ _ Hsplit) as [x Hx].
  { rewrite app_length_str, Htaken. lia. }
  rewrite Hx, app_assoc_str. apply occurs_in_app.
Qed.

Lemma finditer_from_hook_complete K :
  hook_name K →
  ∀ s pending pre suf,
    s = pre +:+ K +:+ suf →
    (pending = 0 ∨ Re.run Re.word s = pending)%nat →
    (pending ≤ String.length pre)%nat →
    ∃ m, m ∈ Re.finditer_from re_hook s pending ∧ occurs_in K (Re.group0 m).
Proof.
  intros (c & k & -> & Hc & HK)%hook_name_word.
  induction s as [|a s IH]; intros pending pre suf Hs Hrun Hpending.
  { by destruct pre. }
  destruct pending as [|n].
  - cbn [Re.finditer_from].
    destruct (Re.match_here re_hook (String a s)) as [m|] eqn:Hm.
    + destruct (match_here_hook_inv _ _ Hm) as (c' & rest & Hshape & Hc').
      destruct (match_here_hook c' rest Hc') as (m' & Hm' & Hgroup0).
      rewrite Hshape, Hm' in Hm. injection Hm as ->.
      assert (Re.run Re.word (String a s) = (4 + Re.run Re.word rest)%nat) as Hwhole.
      { rewrite Hshape.
        change ("use" +:+ String c' rest)
          with (String "u" (String "s" (String "e" (String c' rest)))).
        cbn [Re.run]. rewrite (upper_word c' Hc'). reflexivity. }
      assert (Re.group0 m = take_str (Re.run Re.word (String a s)) (String a s)) as Htaken.
      { rewrite Hgroup0, Hwhole, Hshape. reflexivity. }
      assert (String.length (Re.group0 m) = Re.run Re.word (String a s)) as Hlength.
      { rewrite Htaken. apply take_str_length. }
      destruct (decide (String.length pre + String.length ("use" +:+ String c k)
                        ≤ Re.run Re.word (String a s))%nat) as [Hin|Hout].
      * exists m. split; [left|]. rewrite Htaken, Hs.
        apply occurs_in_taken; by rewrite <- ?Hs.
      * assert (Re.run Re.word (String a s) ≤ String.length pre)%nat as Hpast.
        { destruct (decide (String.length pre < Re.run Re.word (String a s))%nat)
            as [Hlt|]; [|lia].
          rewrite Hs in Hlt. apply (run_covers pre _ suf HK) in Hlt.
          rewrite <- Hs in Hlt. lia. }
        destruct pre as [|a' pre];
          [rewrite Hwhole in Hpast; cbn [String.length] in Hpast; lia|].
        change (String a' pre +:+ ("use" +:+ String c k) +:+ suf)
          with (String a' (pre +:+ ("use" +:+ String c k) +:+ suf)) in Hs.
        injection Hs as -> Hs.
        destruct (IH (pred (String.length (Re.group0 m))) pre suf Hs) as (m' & Hin' & Hocc).
        { right. rewrite Hlength. rewrite Hwhole. rewrite Hshape in Hwhole.
          change ("use" +:+ String c' rest)
            with (String "u" (String "s" (String "e" (String c' rest)))) in Hshape.
          injection Hshape as -> ->. cbn [Re.run]. rewrite (upper_word c' Hc'). reflexivity. }
        { rewrite Hlength. cbn [String.length] in Hpast. lia. }
        exists m'. split; [by right|done].
    + destruct pre as [|a' pre].
      { change ("" +:+ ("use" +:+ String c k) +:+ suf)
          with ("use" +:+ String c (k +:+ suf)) in Hs.
        destruct (match_here_hook c (k +:+ suf) Hc) as (m & Hm' & _). congruence. }
      change (String a' pre +:+ ("use" +:+ String c k) +:+ suf)
        with (String a' (pre +:+ ("use" +:+ String c k) +:+ suf)) in Hs.
      injection Hs as -> Hs.
      apply (IH 0%nat pre suf Hs); [by left|lia].
  - cbn [Re.finditer_from].
    destruct pre as [|a' pre]; [simpl in Hpending; lia|].
    change (String a' pre +:+ ("use" +:+ String c k) +:+ suf)
      with (String a' (pre +:+ ("use" +:+ String c k) +:+ suf)) in Hs.
    injection Hs as -> Hs.
    apply (IH n pre suf Hs).
    + destruct Hrun as [|Hrun]; [done|]. simpl in Hrun.
      destruct (Re.word a'); [right; lia|done].
    + simpl in Hpending. lia.
Qed.

(** Every hook name that stands in the code is part of an element
    [extract_hooks] returns, for JavaScript and TypeScript. *)
Lemma extract_hooks_complete code language K :
  js_family language = true → hook_name K → occurs_in K code →
  ∃ h, h ∈ extract_hooks code language ∧ occurs_in K h.
Proof.
  intros Hjs HK (pre & suf & ->)%str_in_split.
  destruct (finditer_from_hook_complete K HK _ 0%nat pre suf eq_refl) as (m & Hm & Hocc);
    [by left|lia|].
  exists (Re.group0 m). split; [|done].
  unfold extract_hooks. rewrite Hjs, elem_of_py_list_set. by apply list_elem_of_fmap_2.
Qed.

(** ** From the code text to the label *)

Lemma existsb_orb {A} (f g : A → bool) l :
  existsb (λ x, f x || g x) l = existsb f l || existsb g l.
Proof.
  induction l as [|x l IH]; [done|]. simpl. rewrite IH.
  destruct (f x), (g x), (existsb f l), (existsb g l); done.
Qed.

Lemma hook_name_useState : hook_name "useState".
Proof. exists "State". split; [done|]. by exists "S"%char, "tate". Qed.

Lemma hook_name_useReducer : hook_name "useReducer".
Proof. exists "Reducer". split; [done|]. by exists "R"%char, "educer". Qed.

Lemma hook_name_useEffect : hook_name "useEffect".
Proof. exists "Effect". split; [done|]. by exists "E"%char, "ffect". Qed.

(** Some extracted hook contains the name [K] exactly when the language is
    JavaScript or TypeScript and [K] stands in the code. *)
Lemma hooks_contain code language K :
  hook_name K →
  existsb (str_in K) (extract_hooks code language) = true
  ↔ js_family language = true ∧ occurs_in K code.
Proof.
  intros HK. rewrite existsb_exists. split.
  - intros (h & Hh%list_elem_of_In & Hocc). split.
    + unfold extract_hooks in Hh. destruct (js_family language); [done|].
      by apply elem_of_nil in Hh.
    + apply extract_hooks_match in Hh as (_ & _ & _ & Hin). by apply (occurs_in_trans _ h).
  - intros [Hjs Hocc].
    destruct (extract_hooks_complete code language K Hjs HK Hocc) as (h & Hh & Hin).
    exists h. by rewrite <- list_elem_of_In.
Qed.

Lemma classify_labels components hooks events styling :
  (classify components hooks events styling = StateManagement
   ↔ existsb state_style hooks = true)
  ∧ (classify components hooks events styling = SideEffects
     ↔ existsb state_style hooks = false ∧ existsb effect_style hooks = true).
Proof.
  unfold classify.
  destruct (existsb state_style hooks), (existsb effect_style hooks);
    repeat case_match; split; split; try done; by intros [? ?].
Qed.

Lemma change_type_name_inj : Inj (=) (=) change_type_name.
Proof. by intros [] [] ?. Qed.

(** X9. The two hook labels are decided by the text alone. A response is
    labelled [state_management] exactly when the language is JavaScript or
    TypeScript and the code contains [useState] or [useReducer], and
    [side_effects] exactly when it contains [useEffect] and neither of the
    two, wherever the text stands: in a call, inside a longer identifier,
    in a comment or in a string. *)
Theorem hook_labels_from_text
    (env : Env) (request : CodeAnalysisRequest.t) (st : State)
    (response : CodeAnalysisResponse.t) :
  (analyze_code env request st).2 = Respond response →
  (CodeAnalysisResponse.change_type response = "state_management"
   ↔ js_family (CodeAnalysisRequest.language request) = true
     ∧ (occurs_in "useState" (CodeAnalysisRequest.code request)
        ∨ occurs_in "useReducer" (CodeAnalysisRequest.code request)))
  ∧ (CodeAnalysisResponse.change_type response = "side_effects"
     ↔ js_family (CodeAnalysisRequest.language request) = true
       ∧ occurs_in "useEffect" (CodeAnalysisRequest.code request)
       ∧ ¬ (occurs_in "useState" (CodeAnalysisRequest.code request)
            ∨ occurs_in "useReducer" (CodeAnalysisRequest.code request))).
Proof.
  intros (millis & explanation & suggestions & ->)%analyze_code_response.
  cbn [CodeAnalysisResponse.of_result analysis_record CodeAnalysisResponse.change_type
       AnalysisResult.change_type].
  set (code := CodeAnalysisRequest.code request).
  set (language := CodeAnalysisRequest.language request).
  destruct (classify_labels (extract_components code language) (extract_hooks code language)
              (extract_event_handlers code language) (extract_styling code language))
    as [Hstate Heffect].
  assert (existsb state_style (extract_hooks code language) = true
          ↔ js_family language = true
            ∧ (occurs_in "useState" code ∨ occurs_in "useReducer" code)) as Hstyle.
  { unfold state_style. rewrite existsb_orb, orb_true_iff.
    rewrite (hooks_contain code language _ hook_name_useState).
    rewrite (hooks_contain code language _ hook_name_useReducer). tauto. }
  assert (existsb effect_style (extract_hooks code language) = true
          ↔ js_family language = true ∧ occurs_in "useEffect" code) as Hstyle'.
  { unfold effect_style. apply (hooks_contain code language _ hook_name_useEffect). }
  split.
  - rewrite <- Hstyle, <- Hstate. split; [apply (change_type_name_inj _ StateManagement)|].
    by intros ->.
  - assert (change_type_name
              (classify (extract_components code language) (extract_hooks code language)
                 (extract_event_handlers code language) (extract_styling code language))
            = "side_effects"
            ↔ classify (extract_components code language) (extract_hooks code language)
                (extract_event_handlers code language) (extract_styling code language)
              = SideEffects) as ->.
    { split; [apply (change_type_name_inj _ SideEffects)|by intros ->]. }
    rewrite Heffect, Hstyle'.
    destruct (existsb state_style (extract_hooks code language)) eqn:Hany.
    + split; [by intros [? _]|]. intros (Hjs & _ & Hnone). destruct Hnone.
      by apply Hstyle.
    + split.
      * intros [_ [Hjs Hocc]]. split; [done|]. split; [done|].
        intros Hsome. assert (false = true) as Habsurd; [|done].
        apply Hstyle. by split.
      * intros (Hjs & Hocc & _). by split.
Qed.

Lemma hook_labels_from_text_witness :
  ∃ response,
    (analyze_code first_reading (sample_request "// TODO: useEffectively" "u1")
       initial_state).2 = Respond response
    ∧ (CodeAnalysisResponse.change_type response = "side_effects"
       ↔ js_family "javascript" = true ∧ occurs_in "useEffect" "// TODO: useEffectively"
         ∧ ¬ (occurs_in "useState" "// TODO: useEffectively"
              ∨ occurs_in "useReducer" "// TODO: useEffectively"))
    ∧ CodeAnalysisResponse.change_type response = "side_effects".
Proof.
  destruct ((analyze_code first_reading (sample_request "// TODO: useEffectively" "u1")
               initial_state).2) as [response|] eqn:Hresponse;
    [|vm_compute in Hresponse; discriminate].
  exists response. split; [reflexivity|].
  pose proof (hook_labels_from_text _ _ _ _ Hresponse) as [_ Heffect].
  vm_compute in Hresponse. injection Hresponse as <-.
  split; [exact Heffect|reflexivity].
Defined.
